(** * Failure-scenario instance preparation: parsing, coverage, greedy
      depot selection and edge rebalancing

    Shallow embedding of the three scripts
    [balanced_failure_scenarios.py], [updated_failure_scenarios.py] and
    [visualize_with_depot_placement.py].

    Conventions.
    - Text is a [string] of 8-bit characters; a file is the list of its
      lines as [readlines] returns them (each line keeps its newline).
    - Python exceptions are values of [exn]; a computation that may raise
      returns a [result].
    - [networkx.Graph] is the insertion-ordered adjacency structure
      [G._adj]: an association list from node to the association list of
      its neighbours and their edge-attribute records.
    - Python [set]s of node ids are [gset Z].
    - Python [float] is an abstract carrier ([PyFloat]); the theorems hold
      for every implementation of it, the examples run on the exact
      rationals [Q]. *)

From Stdlib Require Import ZArith QArith String Ascii List Lia Bool.
From Stdlib Require Import DecimalString DecimalZ.
From stdpp Require Import base option list gmap sets sorting.

Open Scope string_scope.
Open Scope list_scope.
Open Scope Z_scope.

(** ** Exceptions and results *)

Inductive exn : Type :=
| ValueError_capacity_not_found   (* ValueError('VEHICLE CAPACITY not found in file') *)
| ValueError_literal              (* int() / float() on a malformed literal *)
| ValueError_unpack               (* wrong number of values in a tuple assignment *)
| ValueError_contradictory_paths  (* networkx: 'Contradictory paths found' *)
| IndexError
| KeyError
| NodeNotFound                    (* networkx: the source is not in the graph *)
| ZeroDivisionError               (* float division by zero *)
| OverflowError.                  (* int too large to convert to float *)

Inductive result (A : Type) : Type :=
| Return (a : A)
| Raise (e : exn)
| OutOfFuel.

Arguments Return {A} a.
Arguments Raise {A} e.
Arguments OutOfFuel {A}.

#[global] Instance result_ret : MRet result := fun A a => Return a.

#[global] Instance result_bind : MBind result := fun A B k m =>
  match m with
  | Return a => k a
  | Raise e => Raise e
  | OutOfFuel => OutOfFuel
  end.

Definition of_option {A : Type} (e : exn) (o : option A) : result A :=
  match o with
  | Some a => Return a
  | None => Raise e
  end.

(** ** Python string operations *)

Module PyStr.

Definition nl : string := String "010"%char "".

(** [str.isspace] on the code points below 256. *)
Definition is_space (c : ascii) : bool :=
  let n := nat_of_ascii c in
  ((9 <=? n)%nat && (n <=? 13)%nat) || ((28 <=? n)%nat && (n <=? 32)%nat)
  || (n =? 133)%nat || (n =? 160)%nat.

Fixpoint lstrip_with (p : ascii -> bool) (s : string) : string :=
  match s with
  | String c s' => if p c then lstrip_with p s' else s
  | EmptyString => EmptyString
  end.

Fixpoint rstrip_with (p : ascii -> bool) (s : string) : string :=
  match s with
  | EmptyString => EmptyString
  | String c s' =>
      match rstrip_with p s' with
      | EmptyString => if p c then EmptyString else String c EmptyString
      | r => String c r
      end
  end.

Definition strip_with (p : ascii -> bool) (s : string) : string :=
  rstrip_with p (lstrip_with p s).

(** [s.strip()] *)
Definition strip (s : string) : string := strip_with is_space s.

(** [s.strip('(')] *)
Definition strip_char (a : ascii) (s : string) : string :=
  strip_with (Ascii.eqb a) s.

(** [s.startswith(p)] *)
Definition startswith (p s : string) : bool := String.prefix p s.

(** [s.endswith(p)] *)
Fixpoint endswith (p s : string) : bool :=
  String.eqb s p
  || match s with
     | String _ s' => endswith p s'
     | EmptyString => false
     end.

(** [sub in s] *)
Fixpoint contains (sub s : string) : bool :=
  String.prefix sub s
  || match s with
     | String _ s' => contains sub s'
     | EmptyString => false
     end.

(** [s.split(sep)] and [s.split(sep, maxsplit)] for a non-empty [sep]:
    [limit = None] is the unlimited form, [skip] counts the characters of
    a separator occurrence still to be passed over. *)
Fixpoint split_go (sep : string) (limit : option nat) (skip : nat)
    (s : string) : list string :=
  match s with
  | EmptyString => [EmptyString]
  | String c s' =>
      match skip with
      | S k => split_go sep limit k s'
      | O =>
          match limit with
          | Some O => [s]
          | _ =>
              if String.prefix sep s
              then EmptyString
                   :: split_go sep (option_map Nat.pred limit)
                        (String.length sep - 1) s'
              else match split_go sep limit O s' with
                   | p :: ps => String c p :: ps
                   | [] => [String c EmptyString]
                   end
          end
      end
  end.

Definition split (sep s : string) : list string := split_go sep None 0 s.
Definition split_max (sep : string) (n : nat) (s : string) : list string :=
  split_go sep (Some n) 0 s.

(** [sep.join(l)] *)
Definition join (sep : string) (l : list string) : string :=
  String.concat sep l.

(** [re.split(r'[, \t]+', s)]: the pieces between maximal runs of the
    separator characters; only the first and the last piece can be empty. *)
Definition is_sep (c : ascii) : bool :=
  Ascii.eqb c ","%char || Ascii.eqb c " "%char || Ascii.eqb c "009"%char.

Fixpoint re_split_go (in_sep : bool) (s : string) : list string :=
  match s with
  | EmptyString => [EmptyString]
  | String c s' =>
      if is_sep c
      then if in_sep then re_split_go true s'
           else EmptyString :: re_split_go true s'
      else match re_split_go false s' with
           | p :: ps => String c p :: ps
           | [] => [String c EmptyString]
           end
  end.

Definition re_split_seps (s : string) : list string := re_split_go false s.

Definition nonempty (s : string) : bool :=
  match s with
  | EmptyString => false
  | _ => true
  end.

(** [int(s)]: optional surrounding whitespace, an optional sign, decimal
    digits with single underscores allowed between digits. *)
Fixpoint drop_underscores (after_digit : bool) (s : string) : option string :=
  match s with
  | EmptyString => if after_digit then Some EmptyString else None
  | String c r =>
      if Ascii.eqb c "_"%char
      then if after_digit then drop_underscores false r else None
      else option_map (String c) (drop_underscores true r)
  end.

Definition int_digits (s : string) : option Z :=
  match drop_underscores false s with
  | Some ds => option_map Z.of_uint (NilZero.uint_of_string ds)
  | None => None
  end.

Definition int (s : string) : option Z :=
  match strip s with
  | String "+"%char r => int_digits r
  | String "-"%char r => option_map Z.opp (int_digits r)
  | r => int_digits r
  end.

(** [str(z)] for an integer. *)
Definition str (z : Z) : string := NilZero.string_of_int (Z.to_int z).

End PyStr.

(** ** Python floats *)

(** The operations the scripts and networkx apply to floats.  The integer
    literals [0], [1] and [2] that meet floats ([seen[source] = 0], the
    default edge cost [1], the divisor [2.0]) are [float_of_Z]. *)
Class PyFloat (float : Type) : Type := {
  float_of_string : string -> option float;  (* float(s); None: ValueError *)
  float_of_Z : Z -> float;
  fadd : float -> float -> float;
  fdiv : float -> float -> float;
  fltb : float -> float -> bool;               (* x < y *)
  feqb : float -> float -> bool;               (* x == y *)
}.

(** What the proofs use of the order and of addition; it holds of the
    floats that are not NaN. *)
Class PyFloatLaws {float : Type} (F : PyFloat float) : Prop := {
  float_one_literal : float_of_string "1.0" = Some (float_of_Z 1);
  fltb_irrefl : forall x, fltb x x = false;
  fle_trans : forall x y z,
    fltb y x = false -> fltb z y = false -> fltb z x = false;
  fltb_asym : forall x y, fltb x y = true -> fltb y x = false;
  feqb_le : forall x y,
    feqb x y = true -> fltb x y = false /\ fltb y x = false;
  fadd_nonneg : forall d c,
    fltb c (float_of_Z 0) = false -> fltb (fadd d c) d = false;
  float_one_nonneg : fltb (float_of_Z 1) (float_of_Z 0) = false;
}.

(** *** The exact-rational implementation used to run the examples.
    [float_of_string] reads plain decimal literals: optional sign, digits,
    optional fraction. *)
Module QFloat.

Definition digits_value (s : string) : option Z :=
  option_map Z.of_uint (NilEmpty.uint_of_string s).

Definition unsigned_of_string (s : string) : option Q :=
  match PyStr.split_max "." 1 s with
  | [i] =>
      if PyStr.nonempty i
      then option_map inject_Z (digits_value i)
      else None
  | [i; f] =>
      if PyStr.nonempty i || PyStr.nonempty f
      then match digits_value i, digits_value f with
           | Some a, Some b =>
               let k := 10 ^ Z.of_nat (String.length f) in
               Some (Qred (Qmake (a * k + b) (Z.to_pos k)))
           | _, _ => None
           end
      else None
  | _ => None
  end.

Definition of_string (s : string) : option Q :=
  match PyStr.strip s with
  | String "+"%char r => unsigned_of_string r
  | String "-"%char r => option_map Qopp (unsigned_of_string r)
  | r => unsigned_of_string r
  end.

Definition ltb (x y : Q) : bool := negb (Qle_bool y x).

End QFloat.

#[global] Instance QFloat_PyFloat : PyFloat Q := {|
  float_of_string := QFloat.of_string;
  float_of_Z := inject_Z;
  fadd := fun x y => Qred (Qplus x y);
  fdiv := fun x y => Qred (Qdiv x y);
  fltb := QFloat.ltb;
  feqb := Qeq_bool;
|}.

(** ** Insertion-ordered dictionaries keyed by node id *)

Fixpoint assoc_get {A : Type} (k : Z) (l : list (Z * A)) : option A :=
  match l with
  | [] => None
  | (k', a) :: l' => if Z.eqb k k' then Some a else assoc_get k l'
  end.

(** [d[k] = a]: an existing key keeps its position, a new one goes last. *)
Fixpoint assoc_set {A : Type} (k : Z) (a : A) (l : list (Z * A))
    : list (Z * A) :=
  match l with
  | [] => [(k, a)]
  | (k', a') :: l' =>
      if Z.eqb k k' then (k', a) :: l' else (k', a') :: assoc_set k a l'
  end.

Definition assoc_mem {A : Type} (k : Z) (l : list (Z * A)) : bool :=
  match assoc_get k l with
  | Some _ => true
  | None => false
  end.

(** ** networkx.Graph *)

Section Graphs.
Context {float : Type} {F : PyFloat float}.

(** The attribute dictionary of an edge.  The parser sets [weight] and
    [required] on every edge; [travel_time] is there once the selection
    has annotated the graph. *)
Record edge_data : Type := mk_edge_data {
  weight : float;
  required : bool;
  travel_time : option float;
}.

Definition adjacency : Type := list (Z * edge_data).

(** [G._adj] *)
Definition Graph : Type := list (Z * adjacency).

Definition empty_graph : Graph := [].

(** [G.nodes()], in insertion order *)
Definition nodes (G : Graph) : list Z := map fst G.

Definition add_node (n : Z) (G : Graph) : Graph :=
  if assoc_mem n G then G else G ++ [(n, [])].

Definition add_nodes_from (ns : list Z) (G : Graph) : Graph :=
  fold_left (fun G n => add_node n G) ns G.

(** [range(lo, hi)] *)
Definition range (lo hi : Z) : list Z :=
  map (fun i => lo + Z.of_nat i) (seq 0 (Z.to_nat (hi - lo))).

(** [G.add_edge(u, v, weight=w, required=r)]: both endpoints become
    nodes; the attribute dictionary already on the edge, if any, is
    updated and stored under both directions. *)
Definition add_edge (u v : Z) (w : float) (r : bool) (G : Graph) : Graph :=
  let G1 := add_node v (add_node u G) in
  let adj_u := default [] (assoc_get u G1) in
  let datadict :=
    match assoc_get v adj_u with
    | Some d => mk_edge_data w r (travel_time d)
    | None => mk_edge_data w r None
    end in
  let G2 := assoc_set u (assoc_set v datadict adj_u) G1 in
  let adj_v := default [] (assoc_get v G2) in
  assoc_set v (assoc_set u datadict adj_v) G2.

(** [G.edges(data=True)]: every edge once, from its endpoint met first. *)
Fixpoint edges_go (seen : list Z) (G : Graph)
    : list (Z * Z * edge_data) :=
  match G with
  | [] => []
  | (n, nbrs) :: G' =>
      map (fun '(m, d) => (n, m, d))
          (List.filter (fun '(m, _) => negb (existsb (Z.eqb m) seen)) nbrs)
      ++ edges_go (n :: seen) G'
  end.

Definition edges (G : Graph) : list (Z * Z * edge_data) := edges_go [] G.

Definition number_of_nodes (G : Graph) : nat := length G.
Definition number_of_edges (G : Graph) : nat := length (edges G).

(** [for u, v, data in G.edges(data=True):
       data['travel_time'] = data.get('weight', 1.0)]
    The dictionary of an edge is one object shared by both directions, so
    the assignment shows under [G[u][v]] and [G[v][u]]. *)
Definition annotate_travel_time (G : Graph) : Graph :=
  map (fun '(n, nbrs) =>
         (n, map (fun '(m, d) =>
                    (m, mk_edge_data (weight d) (required d)
                          (Some (weight d)))) nbrs)) G.

End Graphs.

Arguments edge_data : clear implicits.
Arguments adjacency : clear implicits.
Arguments Graph : clear implicits.

(** ** Weight extraction: the three scripts' [extract_weight]

    Each returns the weight together with the lines it prints. *)

Section ExtractWeight.
Context {float : Type} {F : PyFloat float}.

Definition float_or_one (weight_str : string) : float :=
  match float_of_string weight_str with
  | Some x => x
  | None => float_of_Z 1
  end.

Definition warning_no_weight : string :=
  "[!] Warning: No edge weight found, using default 1.0".

(** balanced_failure_scenarios.py *)
Definition extract_weight_balanced (text : string) : float * list string :=
  if PyStr.contains "edge weight" text then
    (float_or_one (PyStr.strip (nth 1 (PyStr.split "edge weight" text) "")),
     [])
  else if PyStr.contains "cost" text then
    (float_or_one (PyStr.strip (nth 1 (PyStr.split "cost" text) "")), [])
  else
    (float_or_one "1.0", [warning_no_weight]).

(** visualize_with_depot_placement.py *)
Definition extract_weight_visualize (text : string) : float * list string :=
  if PyStr.contains "edge weight" text then
    (float_or_one (PyStr.strip (nth 1 (PyStr.split "edge weight" text) "")),
     [])
  else if PyStr.contains "cost" text then
    (float_or_one (PyStr.strip (nth 1 (PyStr.split "cost" text) "")), [])
  else
    (float_or_one "1.0", []).

(** updated_failure_scenarios.py *)
Definition extract_weight_updated (text : string) : float * list string :=
  let text := PyStr.strip text in
  if PyStr.contains "edge weight" text then
    (float_or_one
       (PyStr.strip (nth 1 (PyStr.split_max "edge weight" 1 text) "")), [])
  else if PyStr.contains "cost" text then
    (float_or_one (PyStr.strip (nth 1 (PyStr.split_max "cost" 1 text) "")),
     [])
  else
    (float_of_Z 1, []).

End ExtractWeight.

(** ** [parse_text_file] *)

Section Parser.
Context {float : Type} {F : PyFloat float}.

(** The script's own [extract_weight]; the three copies of
    [parse_text_file] differ in nothing else. *)
Variable extract_weight : string -> float * list string.

Inductive section_name : Type :=
| required_edges
| non_required_edges
| failure_scenario.

Record parse_state : Type := mk_parse_state {
  st_G : Graph float;
  st_depots : list Z;
  st_battery_capacity : option float;
  st_current_section : option section_name;
  st_stdout : list string;
}.

Definition initial_state : parse_state :=
  mk_parse_state empty_graph [] None None [].

Definition in_edge_section (s : option section_name) : bool :=
  match s with
  | Some required_edges | Some non_required_edges => true
  | _ => false
  end.

Definition set_section (st : parse_state) (s : section_name) : parse_state :=
  mk_parse_state (st_G st) (st_depots st) (st_battery_capacity st) (Some s)
    (st_stdout st).

(** [l[1]] *)
Definition index1 (l : list string) : result string :=
  of_option IndexError (l !! 1%nat).

Definition py_int (s : string) : result Z :=
  of_option ValueError_literal (PyStr.int s).

Definition py_float (s : string) : result float :=
  of_option ValueError_literal (float_of_string s).

(** [u, v = map(int, parts)]: the conversions run one by one as the
    assignment asks for the items, the third only to see that there is
    one too many. *)
Definition unpack_two_ints (parts : list string) : result (Z * Z) :=
  match parts with
  | [] => Raise ValueError_unpack
  | [a] => _ ← py_int a; Raise ValueError_unpack
  | [a; b] => u ← py_int a; v ← py_int b; Return (u, v)
  | a :: b :: c :: _ =>
      _ ← py_int a; _ ← py_int b; _ ← py_int c; Raise ValueError_unpack
  end.

(** The [else] branch inside an edge section. *)
Definition parse_edge_line (st : parse_state) (line : string)
    : result parse_state :=
  match PyStr.split_max ") " 1 line with
  | [u_v; rest] =>
      '(u, v) ← unpack_two_ints (PyStr.split "," (PyStr.strip_char "(" u_v));
      let '(w, printed) := extract_weight rest in
      let req :=
        match st_current_section st with
        | Some required_edges => true
        | _ => false
        end in
      Return (mk_parse_state (add_edge u v w req (st_G st)) (st_depots st)
                (st_battery_capacity st) (st_current_section st)
                (st_stdout st ++ printed))
  | _ => Raise ValueError_unpack
  end.

(** One turn of [for line in lines]. *)
Definition parse_line (st : parse_state) (raw : string) : result parse_state :=
  let line := PyStr.strip raw in
  if negb (PyStr.nonempty line) then Return st
  else if PyStr.startswith "NAME" line then Return st
  else if PyStr.startswith "NUMBER OF VERTICES" line then
    field ← index1 (PyStr.split ":" line);
    num_vertices ← py_int (PyStr.strip field);
    Return (mk_parse_state
              (add_nodes_from (range 1 (num_vertices + 1)) (st_G st))
              (st_depots st) (st_battery_capacity st)
              (st_current_section st) (st_stdout st))
  else if PyStr.startswith "VEHICLE CAPACITY" line then
    field ← index1 (PyStr.split ":" line);
    c ← py_float (PyStr.strip field);
    Return (mk_parse_state (st_G st) (st_depots st) (Some c)
              (st_current_section st) (st_stdout st))
  else if PyStr.startswith "LIST_REQUIRED_EDGES:" line then
    Return (set_section st required_edges)
  else if PyStr.startswith "LIST_NON_REQUIRED_EDGES:" line then
    Return (set_section st non_required_edges)
  else if PyStr.startswith "FAILURE_SCENARIO:" line then
    Return (set_section st failure_scenario)
  else if PyStr.startswith "DEPOT:" line then
    field ← index1 (PyStr.split_max ":" 1 line);
    ds ← mapM (fun x => py_int (PyStr.strip x))
              (PyStr.split "," (PyStr.strip field));
    Return (mk_parse_state (st_G st) ds (st_battery_capacity st)
              (st_current_section st) (st_stdout st))
  else if in_edge_section (st_current_section st) then
    parse_edge_line st line
  else Return st.

Fixpoint parse_lines (st : parse_state) (lines : list string)
    : result parse_state :=
  match lines with
  | [] => Return st
  | raw :: rest => st' ← parse_line st raw; parse_lines st' rest
  end.

(** [parse_text_file], from the lines [f.readlines()] returned. *)
Definition parse_text_file (lines : list string)
    : result (Graph float * list Z * float) :=
  st ← parse_lines initial_state lines;
  match st_battery_capacity st with
  | None => Raise ValueError_capacity_not_found
  | Some c => Return (st_G st, st_depots st, c)
  end.

End Parser.

Arguments parse_state : clear implicits.

(** ** networkx: [single_source_dijkstra_path_length] *)

Section Dijkstra.
Context {float : Type} {F : PyFloat float}.

(** A heap entry [(distance, count, node)]. *)
Definition entry : Type := float * nat * Z.

(** Python's order on these tuples: the counter decides between equal
    distances; counters are never equal, so nodes are never compared. *)
Definition entry_ltb (a b : entry) : bool :=
  let '(d1, c1, _) := a in
  let '(d2, c2, _) := b in
  if feqb d1 d2 then (c1 <? c2)%nat else fltb d1 d2.

(** The heap is its multiset of entries; [heappop] removes a least one. *)
Fixpoint pop_min (best : entry) (l : list entry) : entry * list entry :=
  match l with
  | [] => (best, [])
  | e :: l' =>
      if entry_ltb e best
      then let '(m, r) := pop_min e l' in (m, best :: r)
      else let '(m, r) := pop_min best l' in (m, e :: r)
  end.

Definition heappop (fringe : list entry) : option (entry * list entry) :=
  match fringe with
  | [] => None
  | e :: l => Some (pop_min e l)
  end.

Record dijkstra_state : Type := mk_dijkstra_state {
  dist : gmap Z float;
  seen : gmap Z float;
  counter : nat;
  fringe : list entry;
}.

(** [weight(v, u, e)] for [weight='travel_time']:
    [data.get('travel_time', 1)] *)
Definition edge_cost (e : edge_data float) : float :=
  default (float_of_Z 1) (travel_time e).

(** [for u, e in G_succ[v].items()] with [dist[v] = d_v]. *)
Fixpoint relax (cutoff d_v : float) (nbrs : adjacency float) (st : dijkstra_state)
    : result dijkstra_state :=
  match nbrs with
  | [] => Return st
  | (u, e) :: rest =>
      let vu_dist := fadd d_v (edge_cost e) in
      if fltb cutoff vu_dist then relax cutoff d_v rest st
      else
        match dist st !! u with
        | Some u_dist =>
            if fltb vu_dist u_dist
            then Raise ValueError_contradictory_paths
            else relax cutoff d_v rest st
        | None =>
            let closer :=
              match seen st !! u with
              | None => true
              | Some s => fltb vu_dist s
              end in
            if closer
            then relax cutoff d_v rest
                   (mk_dijkstra_state (dist st) (<[u := vu_dist]> (seen st))
                      (S (counter st))
                      ((vu_dist, counter st, u) :: fringe st))
            else relax cutoff d_v rest st
        end
  end.

(** [while fringe] *)
Fixpoint dijkstra_loop (fuel : nat) (G : Graph float) (cutoff : float)
    (st : dijkstra_state) : result (gmap Z float) :=
  match heappop (fringe st) with
  | None => Return (dist st)
  | Some ((d, _, v), fringe') =>
      match fuel with
      | O => OutOfFuel
      | S fuel' =>
          match dist st !! v with
          | Some _ =>
              dijkstra_loop fuel' G cutoff
                (mk_dijkstra_state (dist st) (seen st) (counter st) fringe')
          | None =>
              nbrs ← of_option KeyError (assoc_get v G);
              st' ← relax cutoff d nbrs
                      (mk_dijkstra_state (<[v := d]> (dist st)) (seen st)
                         (counter st) fringe');
              dijkstra_loop fuel' G cutoff st'
          end
      end
  end.

Definition total_degree (G : Graph float) : nat :=
  foldr (fun '(_, nbrs) n => (length nbrs + n)%nat) 0%nat G.

(** Every pop but the first answers one push made while an adjacency list
    was scanned, and each list is scanned once. *)
Definition dijkstra_fuel (G : Graph float) : nat := S (total_degree G).

Definition single_source_dijkstra_path_length (G : Graph float) (source : Z)
    (cutoff : float) : result (gmap Z float) :=
  if assoc_mem source G then
    dijkstra_loop (dijkstra_fuel G) G cutoff
      (mk_dijkstra_state ∅ {[source := float_of_Z 0]} 1
         [(float_of_Z 0, 0%nat, source)])
  else Raise NodeNotFound.

(** ** [compute_coverage] *)

Fixpoint compute_coverage_from (G : Graph float) (radius : float) (ns : list Z)
    (coverage : gmap Z (gset Z)) : result (gmap Z (gset Z)) :=
  match ns with
  | [] => Return coverage
  | node :: rest =>
      lengths ← single_source_dijkstra_path_length G node radius;
      compute_coverage_from G radius rest (<[node := dom lengths]> coverage)
  end.

Definition compute_coverage (G : Graph float) (radius : float)
    : result (gmap Z (gset Z)) :=
  compute_coverage_from G radius (nodes G) ∅.

End Dijkstra.

Arguments entry : clear implicits.
Arguments dijkstra_state : clear implicits.

(** ** Greedy depot selection: the [while covered != all_nodes] loop of
    [select_depots] and [select_depots_with_factor] *)

Record greedy_state : Type := mk_greedy_state {
  selected : gset Z;
  covered : gset Z;
}.

(** [len(coverage[node] - covered)] *)
Definition gain (cn covered : gset Z) : Z := Z.of_nat (size (cn ∖ covered)).

(** [for node in G.nodes()] *)
Fixpoint best_candidate (coverage : gmap Z (gset Z)) (st : greedy_state)
    (ns : list Z) (best_node : option Z) (best_gain : Z)
    : result (option Z * Z) :=
  match ns with
  | [] => Return (best_node, best_gain)
  | node :: rest =>
      if decide (node ∈ selected st)
      then best_candidate coverage st rest best_node best_gain
      else
        cn ← of_option KeyError (coverage !! node);
        if best_gain <? gain cn (covered st)
        then best_candidate coverage st rest (Some node)
               (gain cn (covered st))
        else best_candidate coverage st rest best_node best_gain
  end.

Inductive step_outcome : Type :=
| Finished                                  (* covered == all_nodes *)
| NoCandidate                               (* best_node is None: break *)
| Picked (best : Z) (st' : greedy_state).

(** One test of the loop condition and, if it holds, one turn. *)
Definition greedy_step (coverage : gmap Z (gset Z)) (ns : list Z)
    (all_nodes : gset Z) (st : greedy_state) : result step_outcome :=
  if decide (covered st = all_nodes) then Return Finished
  else
    '(best_node, _) ← best_candidate coverage st ns None (-1);
    match best_node with
    | None => Return NoCandidate
    | Some b =>
        cb ← of_option KeyError (coverage !! b);
        Return (Picked b (mk_greedy_state ({[b]} ∪ selected st)
                            (covered st ∪ cb)))
    end.

Inductive loop_exit : Type := AllCovered | EarlyBreak.

(** The run of the loop: besides the final sets it records the nodes
    picked, in order, and how the loop ended. *)
Record greedy_run : Type := mk_greedy_run {
  final : greedy_state;
  picks : list Z;
  how : loop_exit;
}.

Fixpoint greedy_loop (fuel : nat) (coverage : gmap Z (gset Z))
    (ns : list Z) (all_nodes : gset Z) (st : greedy_state) (picked : list Z)
    : result greedy_run :=
  match fuel with
  | O => OutOfFuel
  | S fuel' =>
      o ← greedy_step coverage ns all_nodes st;
      match o with
      | Finished => Return (mk_greedy_run st picked AllCovered)
      | NoCandidate => Return (mk_greedy_run st picked EarlyBreak)
      | Picked b st' =>
          greedy_loop fuel' coverage ns all_nodes st' (picked ++ [b])
      end
  end.

(** Each turn picks a node not picked before, so one more test than there
    are nodes ends the loop. *)
Definition greedy_select (coverage : gmap Z (gset Z)) (ns : list Z)
    : result greedy_run :=
  greedy_loop (S (length ns)) coverage ns (list_to_set ns)
    (mk_greedy_state ∅ ∅) [].

(** The integers [float(n)] accepts: those that round (to nearest, ties
    to even) to a finite double, that is, those of absolute value below
    [2^1024 - 2^970]. *)
Definition int_fits_float (n : Z) : bool :=
  Z.abs n <? 2 ^ 1024 - 2 ^ 970.

Section Selection.
Context {float : Type} {F : PyFloat float}.

(** [select_depots] of updated_failure_scenarios.py and
    visualize_with_depot_placement.py.  The annotation is written into
    the caller's graph; the selection only reads it back. *)
Definition select_depots_run (G : Graph float) (battery_capacity : float)
    : result greedy_run :=
  let G := annotate_travel_time G in
  let radius := fdiv battery_capacity (float_of_Z 2) in
  coverage ← compute_coverage G radius;
  greedy_select coverage (nodes G).

Definition select_depots (G : Graph float) (battery_capacity : float)
    : result (gset Z) :=
  r ← select_depots_run G battery_capacity;
  Return (selected (final r)).

(** [x / n] for a float [x] and an integer [n]: the integer is converted
    to a float first, which raises OverflowError when it rounds to a
    value beyond the largest double, and a zero divisor raises
    ZeroDivisionError. *)
Definition truediv_int (x : float) (n : Z) : result float :=
  if negb (int_fits_float n) then Raise OverflowError
  else if n =? 0 then Raise ZeroDivisionError
  else Return (fdiv x (float_of_Z n)).

(** [select_depots_with_factor] of balanced_failure_scenarios.py; its
    coverage loop is the body of [compute_coverage] written in place. *)
Definition select_depots_with_factor_run (G : Graph float)
    (battery_capacity : float) (factor : Z) : result greedy_run :=
  let G := annotate_travel_time G in
  radius ← truediv_int battery_capacity factor;
  coverage ← compute_coverage G radius;
  greedy_select coverage (nodes G).

Definition select_depots_with_factor (G : Graph float) (battery_capacity : float)
    (factor : Z) : result (gset Z) :=
  r ← select_depots_with_factor_run G battery_capacity factor;
  Return (selected (final r)).

End Selection.

(** ** [rebalance_required_edges] *)

Module Rebalance.

Inductive section_name : Type := required | nonrequired | footer_section.

Record sections : Type := mk_sections {
  header : list string;
  req_lines : list string;
  nonreq_lines : list string;
  footer : list string;
  section : option section_name;
}.

Definition in_edge_block (s : option section_name) : bool :=
  match s with
  | Some required | Some nonrequired => true
  | _ => false
  end.

(** Step 1: one turn of [for line in text_lines]. *)
Definition classify (st : sections) (line : string) : sections :=
  let stripped := PyStr.strip line in
  if PyStr.startswith "LIST_REQUIRED_EDGES:" stripped then
    mk_sections (header st ++ [line]) (req_lines st) (nonreq_lines st)
      (footer st) (Some required)
  else if PyStr.startswith "LIST_NON_REQUIRED_EDGES:" stripped then
    mk_sections (header st) (req_lines st) (nonreq_lines st) (footer st)
      (Some nonrequired)
  else if PyStr.endswith ":" stripped && in_edge_block (section st) then
    mk_sections (header st) (req_lines st) (nonreq_lines st)
      (footer st ++ [line]) (Some footer_section)
  else
    match section st with
    | None =>
        mk_sections (header st ++ [line]) (req_lines st) (nonreq_lines st)
          (footer st) (section st)
    | Some required =>
        if PyStr.startswith "(" stripped
        then mk_sections (header st) (req_lines st ++ [line])
               (nonreq_lines st) (footer st) (section st)
        else mk_sections (header st ++ [line]) (req_lines st)
               (nonreq_lines st) (footer st) (section st)
    | Some nonrequired =>
        if PyStr.startswith "(" stripped
        then mk_sections (header st) (req_lines st)
               (nonreq_lines st ++ [line]) (footer st) (section st)
        else st
    | Some footer_section =>
        mk_sections (header st) (req_lines st) (nonreq_lines st)
          (footer st ++ [line]) (section st)
    end.

Definition split_sections (text_lines : list string) : sections :=
  fold_left classify text_lines (mk_sections [] [] [] [] None).

(** [l.pop()] and [l.pop(0)] *)
Definition pop_last (l : list string) : result (list string * string) :=
  match rev l with
  | [] => Raise IndexError
  | x :: r => Return (rev r, x)
  end.

Definition pop_first (l : list string) : result (list string * string) :=
  match l with
  | [] => Raise IndexError
  | x :: r => Return (r, x)
  end.

(** [math.ceil(total_edges / 2)] *)
Definition target_of (total_edges : nat) : nat := Nat.div2 (S total_edges).

(** [for _ in range(n): nonreq_lines.insert(0, req_lines.pop())] *)
Fixpoint move_to_nonreq (n : nat) (req nonreq : list string)
    : result (list string * list string) :=
  match n with
  | O => Return (req, nonreq)
  | S k =>
      '(req', x) ← pop_last req;
      move_to_nonreq k req' (x :: nonreq)
  end.

(** [for _ in range(n):
       if not nonreq_lines: break
       req_lines.append(nonreq_lines.pop(0))] *)
Fixpoint move_to_req (n : nat) (req nonreq : list string)
    : result (list string * list string) :=
  match n with
  | O => Return (req, nonreq)
  | S k =>
      match nonreq with
      | [] => Return (req, nonreq)
      | _ =>
          '(nonreq', x) ← pop_first nonreq;
          move_to_req k (req ++ [x]) nonreq'
      end
  end.

(** Step 2 *)
Definition rebalance_lists (req nonreq : list string)
    : result (list string * list string) :=
  let total_edges := (length req + length nonreq)%nat in
  let target_req := target_of total_edges in
  if (target_req <? length req)%nat
  then move_to_nonreq (length req - target_req) req nonreq
  else move_to_req (target_req - length req) req nonreq.

(** The header up to and including the first required-list marker. *)
Fixpoint header_upto_marker (hdr : list string) : list string :=
  match hdr with
  | [] => []
  | line :: rest =>
      if PyStr.startswith "LIST_REQUIRED_EDGES:" (PyStr.strip line)
      then [line]
      else line :: header_upto_marker rest
  end.

(** Step 3 *)
Definition rebuild (hdr req nonreq ftr : list string) : list string :=
  header_upto_marker hdr ++ req
  ++ ["LIST_NON_REQUIRED_EDGES:" ++ PyStr.nl]%string ++ nonreq ++ ftr.

Definition depot_tokens (l : string) : list string :=
  let parts := PyStr.strip (nth 1 (PyStr.split_max ":" 1 l) "") in
  List.filter PyStr.nonempty (PyStr.re_split_seps parts).

(** Step 4: the first [DEPOT:] line decides. *)
Fixpoint count_depots (out : list string) : nat :=
  match out with
  | [] => 0%nat
  | l :: rest =>
      if PyStr.startswith "DEPOT:" (PyStr.strip l)
      then length (depot_tokens l)
      else count_depots rest
  end.

Definition vehicles_for (depot_count : nat) : nat :=
  if (depot_count =? 1)%nat then 2%nat else depot_count.

Definition count_line (key : string) (n : nat) : string :=
  (key ++ " " ++ PyStr.str (Z.of_nat n) ++ PyStr.nl)%string.

(** Step 5 *)
Definition fix_count (n_req n_nonreq vehicle_count : nat) (line : string)
    : string :=
  let stripped := PyStr.strip line in
  if PyStr.startswith "NUMBER OF REQUIRED_EDGES:" stripped
  then count_line "NUMBER OF REQUIRED_EDGES:" n_req
  else if PyStr.startswith "NUMBER OF NON_REQUIRED_EDGES:" stripped
  then count_line "NUMBER OF NON_REQUIRED_EDGES:" n_nonreq
  else if PyStr.startswith "NUMBER OF VEHICLES:" stripped
  then count_line "NUMBER OF VEHICLES:" vehicle_count
  else line.

(** The two edge lists as the function leaves them. *)
Definition rebalanced_lists (text_lines : list string)
    : result (list string * list string) :=
  let s := split_sections text_lines in
  rebalance_lists (req_lines s) (nonreq_lines s).

Definition rebalance_required_edges (text_lines : list string)
    : result (list string * nat * nat) :=
  let s := split_sections text_lines in
  '(req, nonreq) ← rebalance_lists (req_lines s) (nonreq_lines s);
  let out := rebuild (header s) req nonreq (footer s) in
  let depot_count := count_depots out in
  let vehicle_count := vehicles_for depot_count in
  let fixed := map (fix_count (length req) (length nonreq) vehicle_count) out in
  Return (fixed, depot_count, vehicle_count).

End Rebalance.

(** ** [process_all], one scenario file at a time *)

Module ProcessAll.
Import Rebalance.

(** [next(idx for idx, l in enumerate(lines) if p l)]; [None] where
    Python raises [StopIteration]. *)
Fixpoint index_where (p : string -> bool) (l : list string) : option nat :=
  match l with
  | [] => None
  | x :: r => if p x then Some 0%nat else option_map S (index_where p r)
  end.

(** [l[a:b]] for indices that are not negative. *)
Definition slice (a b : nat) (l : list string) : list string :=
  take (b - a) (drop a l).

Definition message (inst : string) (i : Z) (req_count shown : nat)
    : string :=
  ("Rebalanced " ++ inst ++ "." ++ PyStr.str i ++ ": now "
   ++ PyStr.str (Z.of_nat req_count)
   ++ " required edges; vehicles set to "
   ++ PyStr.str (Z.of_nat shown))%string.

Inductive report : Type :=
| Printed (line : string)
| StopIteration.                (* [next] found no marker line *)

(** [l.strip() == marker] *)
Definition is_exactly (marker l : string) : bool :=
  String.eqb (PyStr.strip l) marker.

(** The body of the scenario loop for a file that exists: the lines
    written to the output file, then the report. *)
Definition process_instance (inst : string) (i : Z) (lines : list string)
    : result (list string * report) :=
  '(new_lines, depot_count, vehicle_count) ← rebalance_required_edges lines;
  match index_where (is_exactly "LIST_REQUIRED_EDGES:") new_lines with
  | None => Return (new_lines, StopIteration)
  | Some req_idx =>
      match index_where (is_exactly "LIST_NON_REQUIRED_EDGES:") new_lines
      with
      | None => Return (new_lines, StopIteration)
      | Some nonreq_idx =>
          let req_count :=
            length
              (List.filter (fun l => PyStr.startswith "(" (PyStr.strip l))
                 (slice (req_idx + 1) nonreq_idx new_lines)) in
          Return (new_lines,
                  Printed (message inst i req_count
                             (if (depot_count =? 1)%nat then vehicle_count
                              else depot_count)))
      end
  end.

(** A line step 1 of the rebalancing takes for the required-list
    marker. *)
Definition is_required_marker (l : string) : bool :=
  PyStr.startswith "LIST_REQUIRED_EDGES:" (PyStr.strip l).

Definition is_nonrequired_marker (l : string) : bool :=
  PyStr.startswith "LIST_NON_REQUIRED_EDGES:" (PyStr.strip l).
Definition is_edge_line (l : string) : bool :=
  PyStr.startswith "(" (PyStr.strip l).

(** What step 1 keeps true of the four lists. *)
Definition sorted_out (st : sections) : Prop :=
  Forall (fun l => is_nonrequired_marker l = false) (header st)
  /\ Forall (fun l => is_edge_line l = true) (req_lines st)
  /\ Forall (fun l => is_edge_line l = true) (nonreq_lines st)
  /\ Forall (fun l => is_required_marker l = false /\ is_nonrequired_marker l = false)
       (footer st).

(** [stripped.endswith(":")] *)
Definition ends_colon (l : string) : bool :=
  PyStr.endswith ":" (PyStr.strip l).

(** More that step 1 keeps true: edge lines do not end with a colon, and
    the footer starts with a line that does. *)
Definition tidy (st : sections) : Prop :=
  Forall (fun l => is_edge_line l = true /\ ends_colon l = false)
    (req_lines st)
  /\ Forall (fun l => is_edge_line l = true /\ ends_colon l = false)
       (nonreq_lines st)
  /\ ((footer st = [] /\ section st <> Some footer_section)
      \/ exists f0 rest, footer st = f0 :: rest /\ ends_colon f0 = true).

End ProcessAll.

(** ** Text files

    The text of a file is the string of its characters.
    [f.writelines(lines)] writes the lines one after the other and puts
    nothing between them.  Reading in text mode turns every carriage
    return, with the newline that follows it if there is one, into a
    newline; [f.readlines()] cuts what was read after every newline, and
    what follows the last newline, if anything, is a line too.  (The line
    separator of the system is taken to be the newline, which writing
    leaves as it is.) *)

Fixpoint writelines (lines : list string) : string :=
  match lines with
  | [] => EmptyString
  | l :: rest => (l ++ writelines rest)%string
  end.

Fixpoint universal_newlines (s : string) : string :=
  match s with
  | EmptyString => EmptyString
  | String c s' =>
      if Ascii.eqb c "013"%char
      then match s' with
           | String "010"%char s'' =>
               String "010"%char (universal_newlines s'')
           | _ => String "010"%char (universal_newlines s')
           end
      else String c (universal_newlines s')
  end.

Fixpoint keepends (s : string) : list string :=
  match s with
  | EmptyString => []
  | String c s' =>
      if Ascii.eqb c "010"%char
      then String c EmptyString :: keepends s'
      else match keepends s' with
           | [] => [String c EmptyString]
           | l :: ls => String c l :: ls
           end
  end.

(** [f.read()] and [f.readlines()] on a file opened with [open(path, 'r')] *)
Definition read (text : string) : string := universal_newlines text.

Definition readlines (text : string) : list string := keepends (read text).

(** ** The depot-selection drivers, one file at a time *)

Section Drivers.
Context {float : Type} {F : PyFloat float}.

(** What one turn of a driver's loop computes and writes. *)
Record placement : Type := mk_placement {
  new_depots : gset Z;
  num_vehicles : nat;
  written : list string;
}.

(** [sorted(new_depots)] *)
Definition sorted (s : gset Z) : list Z := merge_sort Z.le (elements s).

Definition depot_line (ds : gset Z) : string :=
  ("DEPOT: " ++ PyStr.join "," (map PyStr.str (sorted ds)) ++ PyStr.nl)%string.

Definition vehicle_line (n : nat) : string :=
  ("NUMBER OF VEHICLES: " ++ PyStr.str (Z.of_nat n) ++ PyStr.nl)%string.

(** The lines [update_all_instances] keeps. *)
Definition keeps (l : string) : bool :=
  negb (PyStr.startswith "DEPOT:" (PyStr.strip l))
  && negb (PyStr.startswith "NUMBER OF VEHICLES" (PyStr.strip l)).

(** What [update_all_instances] writes from the lines it read and the
    depots it selected: the kept lines, then the two new ones. *)
Definition serialize (lines : list string) (ds : gset Z) : list string :=
  List.filter keeps lines ++ [vehicle_line (size ds); depot_line ds].

(** The body of the scenario loop of [update_all_instances]
    (updated_failure_scenarios.py) for a file that exists. *)
Definition update_instance (lines : list string) : result placement :=
  '(G, _, battery_capacity) ← parse_text_file extract_weight_updated lines;
  ds ← select_depots G battery_capacity;
  Return (mk_placement ds (size ds) (serialize lines ds)).

(** [s.splitlines(True)] on one line of [readlines]: besides the newline,
    the other line boundaries below 256 end a line too. *)
Definition is_boundary (c : ascii) : bool :=
  let n := nat_of_ascii c in
  ((10 <=? n)%nat && (n <=? 13)%nat) || ((28 <=? n)%nat && (n <=? 30)%nat)
  || (n =? 133)%nat.

Fixpoint splitlines_keepends (s : string) : list string :=
  match s with
  | EmptyString => []
  | String c s' =>
      if is_boundary c
      then match s' with
           | String "010"%char s'' =>
               if Ascii.eqb c "013"%char
               then String c (String "010"%char EmptyString)
                    :: splitlines_keepends s''
               else String c EmptyString :: splitlines_keepends s'
           | _ => String c EmptyString :: splitlines_keepends s'
           end
      else match splitlines_keepends s' with
           | [] => [String c EmptyString]
           | p :: ps =>
               match s' with
               | EmptyString => [String c EmptyString]
               | _ => String c p :: ps
               end
           end
  end.

(** [filtered.insert(i+1, x)] at the first line that starts with
    [VEHICLE CAPACITY] *)
Fixpoint insert_after_capacity (x : string) (l : list string) : list string :=
  match l with
  | [] => []
  | a :: r =>
      if PyStr.startswith "VEHICLE CAPACITY" a
      then a :: x :: r
      else a :: insert_after_capacity x r
  end.

(** [filtered.insert(i, x)] at the first edge line *)
Fixpoint insert_before_edge (x : string) (l : list string) : list string :=
  match l with
  | [] => []
  | a :: r =>
      if PyStr.startswith "(" (PyStr.strip a)
      then x :: a :: r
      else a :: insert_before_edge x r
  end.

(** The body of the file loop of [update_gdb_with_third_radius]
    (balanced_failure_scenarios.py) for a [.txt] file. *)
Definition update_gdb_instance (lines : list string) : result placement :=
  '(G, _, battery_capacity) ← parse_text_file extract_weight_balanced lines;
  ds ← select_depots_with_factor G battery_capacity 2;
  let n_veh := size ds in
  let filtered :=
    List.filter
      (fun l => negb (PyStr.startswith "DEPOT:" l)
                && negb (PyStr.startswith "NUMBER OF VEHICLES:" l))
      (concat (map splitlines_keepends lines)) in
  Return (mk_placement ds n_veh
            (insert_before_edge (depot_line ds)
               (insert_after_capacity (vehicle_line n_veh) filtered))).

End Drivers.

Arguments placement : clear implicits.

(** * The vocabulary of the statements *)

(** ** Tests on the characters of a string *)

Module StrPred.
Import PyStr.

(** Every character of the string passes the test. *)
Fixpoint all_chars (p : ascii -> bool) (s : string) : bool :=
  match s with
  | EmptyString => true
  | String c s' => p c && all_chars p s'
  end.

Definition is_digit (c : ascii) : bool :=
  (48 <=? nat_of_ascii c)%nat && (nat_of_ascii c <=? 57)%nat.

Definition is_numeric (c : ascii) : bool := is_digit c || Ascii.eqb c "-".

Definition no_comma (c : ascii) : bool := negb (Ascii.eqb c ",").

Definition starts_unspaced (s : string) : bool :=
  match s with
  | String c _ => negb (is_space c)
  | EmptyString => false
  end.

(** Neither a newline nor a carriage return. *)
Definition not_eol (c : ascii) : bool :=
  negb (Ascii.eqb c "010") && negb (Ascii.eqb c "013").

(** One whole line: characters other than newline and carriage return,
    then a newline. *)
Fixpoint is_line (l : string) : bool :=
  match l with
  | EmptyString => false
  | String c EmptyString => Ascii.eqb c "010"
  | String c r => not_eol c && is_line r
  end.

End StrPred.

(** The gain the scan computes for a node. *)
Definition node_gain (coverage : gmap Z (gset Z)) (st : greedy_state)
    (n : Z) : Z :=
  gain (default ∅ (coverage !! n)) (covered st).

(** The nodes the coverage sets of the nodes of [l] hold together. *)
Definition covered_by (coverage : gmap Z (gset Z)) (l : list Z) : gset Z :=
  ⋃ (map (fun b => default ∅ (coverage !! b)) l).

Section Vocabulary.
Context {float : Type} {F : PyFloat float}.

(** A line that takes the [VEHICLE CAPACITY] branch, and the value the
    branch reads from it. *)
Definition is_capacity_line (raw : string) : bool :=
  PyStr.startswith "VEHICLE CAPACITY" (PyStr.strip raw).

Definition capacity_field (raw : string) : result float :=
  field ← index1 (PyStr.split ":" (PyStr.strip raw));
  py_float (PyStr.strip field).

(** The vertex count a [NUMBER OF VERTICES] line declares. *)
Definition vertices_field (raw : string) : result Z :=
  if PyStr.startswith "NUMBER OF VERTICES" (PyStr.strip raw)
  then field ← index1 (PyStr.split ":" (PyStr.strip raw));
       py_int (PyStr.strip field)
  else Raise ValueError_literal.

(** The endpoints an edge line [(u,v) ...] names. *)
Definition edge_line_endpoints (raw : string) : result (Z * Z) :=
  match PyStr.split_max ") " 1 (PyStr.strip raw) with
  | [u_v; _] =>
      unpack_two_ints (PyStr.split "," (PyStr.strip_char "(" u_v))
  | _ => Raise ValueError_unpack
  end.

(** The text the number is read from: what follows the first occurrence
    of the token, up to its next occurrence when the split is unlimited. *)
Definition upto_next (tok post : string) : string :=
  hd EmptyString (PyStr.split tok post).

(** Two parser states that differ at most in the depot list. *)
Definition same_but_depots (st st' : parse_state float) : Prop :=
  st_G st = st_G st'
  /\ st_battery_capacity st = st_battery_capacity st'
  /\ st_current_section st = st_current_section st'
  /\ st_stdout st = st_stdout st'.

(** [x <= y], as the negation of [y < x] *)
Definition fle (x y : float) : Prop := fltb y x = false.

(** Every neighbour listed in the graph is a node of the graph. *)
Definition closed (G : Graph float) : Prop :=
  forall n nbrs m e, In (n, nbrs) G -> In (m, e) nbrs -> In m (nodes G).

(** No edge has a negative cost. *)
Definition nonneg_costs (G : Graph float) : Prop :=
  forall n nbrs m e, In (n, nbrs) G -> In (m, e) nbrs ->
    fle (float_of_Z 0) (edge_cost e).

(** No edge has a negative weight. *)
Definition nonneg_weights (G : Graph float) : Prop :=
  forall n nbrs m e, In (n, nbrs) G -> In (m, e) nbrs ->
    fle (float_of_Z 0) (weight e).

(** [m] is listed as a neighbour of [n]. *)
Definition has_arc (G : Graph float) (n m : Z) : Prop :=
  exists nbrs e, In (n, nbrs) G /\ In (m, e) nbrs.

Definition entry_dist (e : entry float) : float := fst (fst e).
Definition entry_node (e : entry float) : Z := snd e.

(** The adjacency lists still to be scanned. *)
Fixpoint pending (H : Graph float) (d : gmap Z float) : nat :=
  match H with
  | [] => 0%nat
  | (k, nbrs) :: H' =>
      (match d !! k with
       | None => length nbrs
       | Some _ => 0%nat
       end + pending H' d)%nat
  end.

(** What holds of the search state at every test of [while fringe]. *)
Definition search_inv (G : Graph float) (st : dijkstra_state float) : Prop :=
  (forall e u du, In e (fringe st) -> dist st !! u = Some du ->
     fle du (entry_dist e))
  /\ (forall e, In e (fringe st) -> In (entry_node e) (nodes G))
  /\ (forall u, is_Some (dist st !! u) -> In u (nodes G)).

(** A node the listed neighbours lead to: one in [fr], one with a final
    distance, or a neighbour in some adjacency list. *)
Definition reached_from (G : Graph float) (st : dijkstra_state float)
    (u : Z) : Prop :=
  is_Some (dist st !! u)
  \/ (exists e, In e (fringe st) /\ entry_node e = u)
  \/ (exists n nbrs d, In (n, nbrs) G /\ In (u, d) nbrs).

Definition closedb (G : Graph float) : bool :=
  forallb (fun '(_, nbrs) =>
             forallb (fun '(m, _) => existsb (Z.eqb m) (nodes G))
                     (nbrs : adjacency float)) G.

Definition nonneg_weightsb (G : Graph float) : bool :=
  forallb (fun '(_, nbrs) =>
             forallb (fun '(_, e) => negb (fltb (weight e) (float_of_Z 0)))
                     (nbrs : adjacency float)) G.

Definition nonneg_costsb (G : Graph float) : bool :=
  forallb (fun '(_, nbrs) =>
             forallb (fun '(_, e) => negb (fltb (edge_cost e) (float_of_Z 0)))
                     (nbrs : adjacency float)) G.

(** The search from [b] with cutoff [radius] returns a distance for [n]:
    the distance [0] of [b] itself, or one that is not above [radius]. *)
Definition within_reach (G : Graph float) (radius : float) (b n : Z) : Prop :=
  exists lengths d,
    single_source_dijkstra_path_length G b radius = Return lengths
    /\ lengths !! n = Some d
    /\ ((n = b /\ d = float_of_Z 0) \/ fltb radius d = false).

(** A distance the search from [source] can return for [u]. *)
Definition start_or_within (cutoff : float) (source u : Z) (d : float)
    : Prop :=
  (u = source /\ d = float_of_Z 0) \/ fltb cutoff d = false.

(** A line that takes the [DEPOT:] branch, and the list the branch reads
    from it. *)
Definition is_depot_line (raw : string) : bool :=
  PyStr.startswith "DEPOT:" (PyStr.strip raw).

Definition depot_field (raw : string) : result (list Z) :=
  field ← index1 (PyStr.split_max ":" 1 (PyStr.strip raw));
  mapM (fun x => py_int (PyStr.strip x))
       (PyStr.split "," (PyStr.strip field)).

(** A line the loop passes over whatever the section: blank, or starting
    with [NAME]. *)
Definition is_skipped_line (raw : string) : bool :=
  negb (PyStr.nonempty (PyStr.strip raw))
  || PyStr.startswith "NAME" (PyStr.strip raw).

(** A line one of the tests before the final [else] accepts. *)
Definition is_keyword_line (raw : string) : bool :=
  let line := PyStr.strip raw in
  negb (PyStr.nonempty line)
  || PyStr.startswith "NAME" line
  || PyStr.startswith "NUMBER OF VERTICES" line
  || PyStr.startswith "VEHICLE CAPACITY" line
  || PyStr.startswith "LIST_REQUIRED_EDGES:" line
  || PyStr.startswith "LIST_NON_REQUIRED_EDGES:" line
  || PyStr.startswith "FAILURE_SCENARIO:" line
  || PyStr.startswith "DEPOT:" line.

(** [G[n][m]], where there is such an edge. *)
Definition edge_lookup (G : Graph float) (n m : Z)
    : option (edge_data float) :=
  match assoc_get n G with
  | Some nbrs => assoc_get m nbrs
  | None => None
  end.

(** The annotation of an edge line: what follows the first [") "]. *)
Definition edge_line_annotation (raw : string) : string :=
  nth 1 (PyStr.split_max ") " 1 (PyStr.strip raw)) EmptyString.

(** The attributes [add_edge] stores: the new weight and flag, and the
    travel time the edge had. *)
Definition updated_data (u v : Z) (w : float) (r : bool) (G : Graph float)
    : edge_data float :=
  match edge_lookup G u v with
  | Some d => mk_edge_data w r (travel_time d)
  | None => mk_edge_data w r None
  end.

(** The flag an edge line gets in section [s]. *)
Definition required_in (s : option section_name) : bool :=
  match s with
  | Some required_edges => true
  | _ => false
  end.

(** Every node seen so far has a final distance or waits in the heap. *)
Definition seen_is_pending (st : dijkstra_state float) : Prop :=
  forall u, is_Some (seen st !! u) ->
    is_Some (dist st !! u)
    \/ exists e, In e (fringe st) /\ entry_node e = u.

End Vocabulary.

(** A line that changes the section of the parser. *)
Definition is_section_marker (l : string) : bool :=
  PyStr.startswith "LIST_REQUIRED_EDGES:" (PyStr.strip l)
  || PyStr.startswith "LIST_NON_REQUIRED_EDGES:" (PyStr.strip l)
  || PyStr.startswith "FAILURE_SCENARIO:" (PyStr.strip l).

(** No line that starts with [VEHICLE CAPACITY] comes after a section
    marker. *)
Fixpoint capacity_in_header (lines : list string) : bool :=
  match lines with
  | [] => true
  | l :: rest =>
      if is_section_marker l
      then forallb (fun x => negb (PyStr.startswith "VEHICLE CAPACITY" x))
             rest
      else capacity_in_header rest
  end.

(** The lines [update_gdb_with_third_radius] keeps. *)
Definition keeps_unstripped (l : string) : bool :=
  negb (PyStr.startswith "DEPOT:" l)
  && negb (PyStr.startswith "NUMBER OF VEHICLES:" l).

(** A line step 5 of the rebalancing rewrites. *)
Definition is_count_line (l : string) : bool :=
  PyStr.startswith "NUMBER OF REQUIRED_EDGES:" (PyStr.strip l)
  || PyStr.startswith "NUMBER OF NON_REQUIRED_EDGES:" (PyStr.strip l)
  || PyStr.startswith "NUMBER OF VEHICLES:" (PyStr.strip l).

(** No count line ends, once stripped, with a colon. *)
Definition counts_are_given (lines : list string) : bool :=
  forallb (fun l => negb (PyStr.endswith ":" (PyStr.strip l)
                          && is_count_line l)) lines.

(** ** The inputs the theorems are run on *)

Module Example.
Import PyStr.

Definition line (s : string) : string := (s ++ nl)%string.

(** Four vertices, capacity 10, required edges (1,2) and (3,4),
    non-required edges (1,3) and (2,4), depot 1. *)
Definition scenario : list string :=
  map line
    ["NAME: example";
     "NUMBER OF VERTICES: 4";
     "VEHICLE CAPACITY: 10";
     "NUMBER OF REQUIRED_EDGES: 2";
     "NUMBER OF NON_REQUIRED_EDGES: 2";
     "LIST_REQUIRED_EDGES:";
     "(1,2) edge weight 3.0";
     "(3,4) edge weight 4.0";
     "LIST_NON_REQUIRED_EDGES:";
     "(1,3) edge weight 2.0";
     "(2,4) edge weight 2.0";
     "FAILURE_SCENARIO:";
     "NUMBER OF VEHICLES: 1";
     "DEPOT: 1"].

Definition graph : Graph Q :=
  add_edge 2 4 (inject_Z 2) false
    (add_edge 1 3 (inject_Z 2) false
       (add_edge 3 4 (inject_Z 4) true
          (add_edge 1 2 (inject_Z 3) true
             (add_nodes_from (range 1 5) empty_graph)))).

(** The state of the parser after the last line of [scenario]. *)
Definition scenario_state : parse_state Q :=
  mk_parse_state graph [1] (Some (inject_Z 10)) (Some failure_scenario) [].

(** Nodes 1 and 2 cover each other, node 3 only itself. *)
Definition coverage3 : gmap Z (gset Z) :=
  {[ 1 := {[1; 2]}; 2 := {[1; 2]}; 3 := {[3]} ]}.

Definition start : greedy_state := mk_greedy_state ∅ ∅.

Definition after1 : greedy_state :=
  mk_greedy_state ({[1]} ∪ ∅) (∅ ∪ {[1; 2]}).

(** An input the parser accepts although it declares two vertices and
    its only edge is a loop at node 3. *)
Definition loop_scenario : list string :=
  map line
    ["NUMBER OF VERTICES: 2";
     "VEHICLE CAPACITY: 10";
     "LIST_REQUIRED_EDGES:";
     "(3,3) edge weight 1.0"].

Definition loop_graph : Graph Q :=
  add_edge 3 3 (inject_Z 1) true (add_nodes_from (range 1 3) empty_graph).

(** A file with one depot selected: [update_all_instances] and
    [update_gdb_with_third_radius] both write one vehicle. *)
Definition two_vehicle_scenario : list string :=
  map line
    ["NUMBER OF VERTICES: 4";
     "VEHICLE CAPACITY: 10";
     "NUMBER OF VEHICLES: 2";
     "LIST_REQUIRED_EDGES:";
     "(1,2) edge weight 3.0";
     "(3,4) edge weight 4.0";
     "LIST_NON_REQUIRED_EDGES:";
     "(1,3) edge weight 2.0";
     "(2,4) edge weight 2.0";
     "FAILURE_SCENARIO:";
     "DEPOT: 3"].

(** A file that ends inside the non-required list: it parses, but what
    [update_all_instances] writes from it does not, because the appended
    [NUMBER OF VEHICLES] line is read as an edge line. *)
Definition open_ended_scenario : list string :=
  map line
    ["NUMBER OF VERTICES: 3";
     "VEHICLE CAPACITY: 10";
     "LIST_REQUIRED_EDGES:";
     "(1,2) edge weight 3.0";
     "LIST_NON_REQUIRED_EDGES:";
     "(2,3) edge weight 2.0"].

Definition open_ended_graph : Graph Q :=
  add_edge 2 3 (inject_Z 2) false
    (add_edge 1 2 (inject_Z 3) true
       (add_nodes_from (range 1 4) empty_graph)).

(** Three vertices and the one edge (1,2): node 3 has no incident edge. *)
Definition lonely_graph : Graph Q :=
  add_edge 1 2 (inject_Z 3) true (add_nodes_from (range 1 4) empty_graph).

(** The lines of [scenario] up to the required-list marker. *)
Definition scenario_header : list string :=
  map line
    ["NAME: example";
     "NUMBER OF VERTICES: 4";
     "VEHICLE CAPACITY: 10";
     "NUMBER OF REQUIRED_EDGES: 2";
     "NUMBER OF NON_REQUIRED_EDGES: 2";
     "LIST_REQUIRED_EDGES:"].

(** The lines of [scenario] after its first edge line. *)
Definition scenario_rest : list string :=
  map line
    ["(3,4) edge weight 4.0";
     "LIST_NON_REQUIRED_EDGES:";
     "(1,3) edge weight 2.0";
     "(2,4) edge weight 2.0";
     "FAILURE_SCENARIO:";
     "NUMBER OF VEHICLES: 1";
     "DEPOT: 1"].

(** The texts of the files with these lines. *)
Definition scenario_text : string := writelines scenario.

Definition two_vehicle_text : string := writelines two_vehicle_scenario.

Definition open_ended_text : string := writelines open_ended_scenario.

(** A file whose last line has no newline: what is appended to the file
    continues that line. *)
Definition unterminated_text : string :=
  writelines
    (map line
       ["NUMBER OF VERTICES: 2";
        "LIST_REQUIRED_EDGES:";
        "(1,2) edge weight 3.0";
        "FAILURE_SCENARIO:"]
     ++ ["VEHICLE CAPACITY: 10"]).

Definition unterminated_graph : Graph Q :=
  add_edge 1 2 (inject_Z 3) true (add_nodes_from (range 1 3) empty_graph).

End Example.

(** * Proofs *)

(** ** The result monad *)

Lemma bind_Return {A B : Type} (m : result A) (k : A -> result B) (b : B) :
  (m ≫= k) = Return b <-> exists a, m = Return a /\ k a = Return b.
Proof.
  destruct m; simpl; split; intros H; try discriminate.
  - eauto.
  - destruct H as (a' & [= ->] & H). exact H.
  - destruct H as (a' & [=] & _).
  - destruct H as (a' & [=] & _).
Qed.

Lemma of_option_Return {A : Type} (e : exn) (o : option A) (a : A) :
  of_option e o = Return a <-> o = Some a.
Proof. destruct o; simpl; split; congruence. Qed.

Ltac inv_bind H :=
  repeat match type of H with
  | (_ ≫= _) = Return _ =>
      let a := fresh "a" in
      let Ha := fresh "H" a in
      apply bind_Return in H; destruct H as (a & Ha & H)
  end.

(** ** Rebalancing the two edge lists *)

Module RebalanceFacts.
Import Rebalance.

Lemma target_of_bounds (t : nat) :
  (t <= 2 * target_of t <= t + 1)%nat.
Proof.
  unfold target_of.
  destruct (Nat.even (S t)) eqn:E.
  - apply Nat.even_spec in E. destruct E as [k Hk].
    rewrite Hk, Nat.div2_double. lia.
  - assert (O : Nat.odd (S t) = true)
      by (rewrite <- Nat.negb_even, E; reflexivity).
    apply Nat.odd_spec in O. destruct O as [k Hk].
    replace (S t) with (S (2 * k)) by lia.
    rewrite Nat.div2_succ_double. lia.
Qed.

Lemma move_to_nonreq_lengths (n : nat) :
  forall req nonreq, (n <= length req)%nat ->
  exists req' nonreq',
    move_to_nonreq n req nonreq = Return (req', nonreq')
    /\ length req' = (length req - n)%nat
    /\ length nonreq' = (length nonreq + n)%nat.
Proof.
  induction n as [|n IH]; intros req nonreq Hn; simpl.
  - exists req, nonreq. repeat split; lia.
  - unfold pop_last.
    destruct (rev req) as [|x r] eqn:Hr.
    + apply (f_equal (@length string)) in Hr.
      rewrite length_rev in Hr. simpl in Hr. lia.
    + simpl.
      assert (Hlen : length req = S (length r)).
      { rewrite <- (length_rev req), Hr. reflexivity. }
      destruct (IH (rev r) (x :: nonreq)) as (req' & nonreq' & E & L1 & L2).
      { rewrite length_rev. lia. }
      exists req', nonreq'. rewrite E. rewrite length_rev in L1.
      simpl in L2. repeat split; lia.
Qed.

Lemma move_to_req_lengths (n : nat) :
  forall req nonreq,
  exists req' nonreq',
    move_to_req n req nonreq = Return (req', nonreq')
    /\ length req' = (length req + Nat.min n (length nonreq))%nat
    /\ length nonreq' = (length nonreq - n)%nat.
Proof.
  induction n as [|n IH]; intros req nonreq; simpl.
  - exists req, nonreq. repeat split; lia.
  - destruct nonreq as [|x nonreq].
    + exists req, []. simpl. repeat split; lia.
    + simpl.
      destruct (IH (req ++ [x]) nonreq) as (req' & nonreq' & E & L1 & L2).
      exists req', nonreq'. rewrite E. rewrite length_app in L1. simpl in L1.
      repeat split; lia.
Qed.

Lemma rebalance_lists_lengths (req nonreq : list string) :
  exists req' nonreq',
    rebalance_lists req nonreq = Return (req', nonreq')
    /\ length req' = target_of (length req + length nonreq)
    /\ (length req' + length nonreq' = length req + length nonreq)%nat.
Proof.
  unfold rebalance_lists.
  pose proof (target_of_bounds (length req + length nonreq)) as B.
  destruct (_ <? _)%nat eqn:C.
  - apply Nat.ltb_lt in C.
    destruct (move_to_nonreq_lengths
                (length req - target_of (length req + length nonreq))
                req nonreq) as (req' & nonreq' & E & L1 & L2); [lia|].
    exists req', nonreq'. repeat split; [exact E|lia|lia].
  - apply Nat.ltb_ge in C.
    destruct (move_to_req_lengths
                (target_of (length req + length nonreq) - length req)
                req nonreq) as (req' & nonreq' & E & L1 & L2).
    exists req', nonreq'. repeat split; [exact E|lia|lia].
Qed.

(** C2. For every list of lines: the rebalancing returns, the required
    list it leaves has exactly [ceil(total / 2)] lines, where [total] is
    the number of required plus non-required edge lines of the input, and
    no line is lost; so the first alternative of the claim always holds
    (the non-required list cannot run out before the target is met). The
    function's result is assembled from these two lists. *)
Theorem rebalance_reaches_target (text_lines : list string) :
  let s := split_sections text_lines in
  let total := (length (req_lines s) + length (nonreq_lines s))%nat in
  exists req nonreq,
    rebalanced_lists text_lines = Return (req, nonreq)
    /\ (total <= 2 * target_of total <= total + 1)%nat
    /\ (length req = target_of total
        \/ ((length req <= target_of total)%nat /\ nonreq = []))
    /\ length req = target_of total
    /\ (length req + length nonreq = total)%nat
    /\ rebalance_required_edges text_lines
       = Return
           (map (fix_count (length req) (length nonreq)
                   (vehicles_for
                      (count_depots
                         (rebuild (header s) req nonreq (footer s)))))
              (rebuild (header s) req nonreq (footer s)),
            count_depots (rebuild (header s) req nonreq (footer s)),
            vehicles_for
              (count_depots (rebuild (header s) req nonreq (footer s)))).
Proof.
  intros s total.
  destruct (rebalance_lists_lengths (req_lines s) (nonreq_lines s))
    as (req & nonreq & E & L1 & L2).
  exists req, nonreq.
  split; [exact E|].
  split; [apply target_of_bounds|].
  split; [left; exact L1|].
  split; [exact L1|].
  split; [exact L2|].
  unfold rebalance_required_edges. fold s. rewrite E. reflexivity.
Qed.

End RebalanceFacts.

(** ** One turn of the greedy loop *)

Lemma gain_nonneg (cn cv : gset Z) : 0 <= gain cn cv.
Proof. unfold gain. lia. Qed.

(** The scan keeps a candidate only until a strictly better one comes:
    what it returns is either what it started from, nothing in the list
    beating it, or the first node of the list that reaches the largest
    gain among the unselected ones. *)
Lemma best_candidate_spec (coverage : gmap Z (gset Z)) (st : greedy_state) :
  forall ns bn bg bn' bg',
  best_candidate coverage st ns bn bg = Return (bn', bg') ->
  bg <= bg'
  /\ (forall n, In n ns -> n ∉ selected st -> node_gain coverage st n <= bg')
  /\ ((bn' = bn /\ bg' = bg)
      \/ exists b l1 l2,
           ns = l1 ++ b :: l2 /\ bn' = Some b /\ (b ∉ selected st)
           /\ is_Some (coverage !! b)
           /\ bg' = node_gain coverage st b /\ bg < bg'
           /\ forall n, In n l1 -> n ∉ selected st ->
                        node_gain coverage st n < bg').
Proof.
  induction ns as [|node rest IH]; intros bn bg bn' bg' H; simpl in H.
  - injection H as <- <-. split; [lia|]. split; [intros n []|]. now left.
  - destruct (decide (node ∈ selected st)) as [Hsel|Hsel].
    + apply IH in H. destruct H as (Hle & Hall & Hcase).
      split; [exact Hle|]. split.
      * intros n [<-|Hn] Hns; [contradiction|]. now apply Hall.
      * destruct Hcase as [Hsame|(b & l1 & l2 & -> & Hb & Hbs & Hc & Hg & Hlt & Hl1)];
          [now left|right].
        exists b, (node :: l1), l2. repeat split; try assumption.
        intros n [<-|Hn] Hns; [contradiction|]. now apply Hl1.
    + destruct (coverage !! node) as [cn|] eqn:Hcn; simpl in H; [|discriminate].
      assert (Hng : node_gain coverage st node = gain cn (covered st)).
      { unfold node_gain. rewrite Hcn. reflexivity. }
      destruct (bg <? gain cn (covered st)) eqn:Hcmp.
      * apply Z.ltb_lt in Hcmp. apply IH in H.
        destruct H as (Hle & Hall & Hcase).
        split; [lia|]. split.
        -- intros n [<-|Hn] Hns; [lia|]. now apply Hall.
        -- right.
           destruct Hcase as [[-> ->]|(b & l1 & l2 & -> & Hb & Hbs & Hc & Hg & Hlt & Hl1)].
           ++ exists node, [], rest. repeat split; try assumption.
              ** rewrite Hcn. eauto.
              ** symmetry. exact Hng.
              ** intros n [].
           ++ exists b, (node :: l1), l2. repeat split; try assumption; [lia|].
              intros n [<-|Hn] Hns; [lia|]. now apply Hl1.
      * apply Z.ltb_ge in Hcmp. apply IH in H.
        destruct H as (Hle & Hall & Hcase).
        split; [exact Hle|]. split.
        -- intros n [<-|Hn] Hns; [lia|]. now apply Hall.
        -- destruct Hcase as [Hsame|(b & l1 & l2 & -> & Hb & Hbs & Hc & Hg & Hlt & Hl1)];
             [now left|right].
           exists b, (node :: l1), l2. repeat split; try assumption.
           intros n [<-|Hn] Hns; [lia|]. now apply Hl1.
Qed.

Lemma greedy_step_Picked (coverage : gmap Z (gset Z)) (ns : list Z)
    (all_nodes : gset Z) (st : greedy_state) (b : Z) (st' : greedy_state) :
  greedy_step coverage ns all_nodes st = Return (Picked b st') ->
  covered st <> all_nodes
  /\ (exists g, best_candidate coverage st ns None (-1) = Return (Some b, g))
  /\ exists cb, coverage !! b = Some cb
       /\ st' = mk_greedy_state ({[b]} ∪ selected st) (covered st ∪ cb).
Proof.
  unfold greedy_step. intros H.
  destruct (decide (covered st = all_nodes)) as [|Hne]; [discriminate|].
  split; [exact Hne|].
  destruct (best_candidate coverage st ns None (-1)) as [[bn g]| |] eqn:Hbc;
    simpl in H; try discriminate.
  destruct bn as [b'|]; [|discriminate].
  destruct (coverage !! b') as [cb|] eqn:Hcb; simpl in H; [|discriminate].
  injection H as <- <-.
  split; [eauto|]. exists cb. split; [exact Hcb|reflexivity].
Qed.

(** C3. In a turn of the loop that picks a node [b]: [b] is an unselected
    node of the list the graph iterates over; every unselected node
    before [b] in that order has a strictly smaller gain and every one
    after it has a gain that is not larger, so among the nodes of maximal
    gain [b] is the first; and when the order is that of increasing ids
    (nodes [1..N]), [b] is the lowest id of maximal gain.  The turn is the
    same function of the coverage map, the node list and the two sets in
    [select_depots] and in [select_depots_with_factor]. *)
Theorem greedy_picks_first_of_maximal_gain (coverage : gmap Z (gset Z))
    (ns : list Z) (all_nodes : gset Z) (st : greedy_state)
    (b : Z) (st' : greedy_state) :
  greedy_step coverage ns all_nodes st = Return (Picked b st') ->
  exists l1 l2,
    ns = l1 ++ b :: l2
    /\ (b ∉ selected st)
    /\ (forall n, In n l1 -> n ∉ selected st ->
          node_gain coverage st n < node_gain coverage st b)
    /\ (forall n, In n l2 -> n ∉ selected st ->
          node_gain coverage st n <= node_gain coverage st b)
    /\ (StronglySorted Z.lt ns ->
        forall n, In n ns -> n ∉ selected st ->
          node_gain coverage st n = node_gain coverage st b -> b <= n).
Proof.
  intros H. apply greedy_step_Picked in H.
  destruct H as (_ & (g & Hbc) & _).
  apply best_candidate_spec in Hbc.
  destruct Hbc as (_ & Hall & [[[=] _]|(b' & l1 & l2 & -> & [= <-] & Hbs & _ & -> & _ & Hl1)]).
  exists l1, l2. split; [reflexivity|]. split; [exact Hbs|].
  split; [exact Hl1|]. split.
  - intros n Hn Hns. apply Hall; [|exact Hns].
    apply in_or_app. right. now right.
  - intros Hsorted n Hn Hns Heq.
    apply in_app_or in Hn. destruct Hn as [Hn|[<-|Hn]].
    + specialize (Hl1 n Hn Hns). lia.
    + lia.
    + apply StronglySorted_app_1_r in Hsorted.
      apply StronglySorted_inv in Hsorted. destruct Hsorted as [_ Hb].
      rewrite Forall_forall in Hb.
      assert (b < n) by (apply Hb; apply list_elem_of_In; exact Hn). lia.
Qed.

Lemma greedy_loop_picks (coverage : gmap Z (gset Z)) (ns : list Z)
    (all_nodes : gset Z) :
  forall fuel st picked r,
  greedy_loop fuel coverage ns all_nodes st picked = Return r ->
  NoDup picked -> list_to_set picked = selected st ->
  NoDup (picks r)
  /\ list_to_set (picks r) = selected (final r)
  /\ covered st ⊆ covered (final r)
  /\ (forall n, In n (picks r) -> In n picked \/ In n ns).
Proof.
  induction fuel as [|fuel IH]; intros st picked r H Hnd Hset; simpl in H;
    [discriminate|].
  apply bind_Return in H. destruct H as (o & Ho & H).
  destruct o as [| |b st'].
  - injection H as <-. simpl. repeat split; auto.
  - injection H as <-. simpl. repeat split; auto.
  - pose proof Ho as Hstep. apply greedy_step_Picked in Ho.
    destruct Ho as (_ & (g & Hbc) & cb & Hcb & ->).
    apply best_candidate_spec in Hbc.
    destruct Hbc as (_ & _ & [[[=] _]|(b' & l1 & l2 & Hns & [= <-] & Hbs & _)]).
    apply IH in H.
    + destruct H as (H1 & H2 & H3 & H4). simpl in H3.
      repeat split; try assumption.
      * set_solver.
      * intros n Hn. destruct (H4 n Hn) as [Hp|Hp]; [|now right].
        apply in_app_or in Hp. destruct Hp as [Hp|[<-|[]]]; [now left|].
        right. rewrite Hns. apply in_or_app. right. now left.
    + apply NoDup_app. split; [exact Hnd|]. split.
      * intros x Hx [->|Hx']%list_elem_of_In; [|destruct Hx'].
        apply Hbs. rewrite <- Hset. apply elem_of_list_to_set. exact Hx.
      * apply NoDup_singleton.
    + simpl. rewrite list_to_set_app_L, Hset. simpl. set_solver.
Qed.

(** C4. A turn that picks [b] picks a node that is not in the selection,
    adds exactly that node to it and only enlarges the covered set; over
    a whole run no node is picked twice, the picked nodes are the final
    selection, and the final covered set contains every earlier one. *)
Theorem greedy_never_reselects_and_covered_grows :
  (forall (coverage : gmap Z (gset Z)) (ns : list Z) (all_nodes : gset Z)
          (st : greedy_state) (b : Z) (st' : greedy_state),
     greedy_step coverage ns all_nodes st = Return (Picked b st') ->
     (b ∉ selected st)
     /\ selected st' = {[b]} ∪ selected st
     /\ covered st ⊆ covered st')
  /\ (forall (coverage : gmap Z (gset Z)) (ns : list Z) (r : greedy_run),
        greedy_select coverage ns = Return r ->
        NoDup (picks r) /\ list_to_set (picks r) = selected (final r)).
Proof.
  split.
  - intros coverage ns all_nodes st b st' H.
    apply greedy_step_Picked in H.
    destruct H as (_ & (g & Hbc) & cb & Hcb & ->).
    apply best_candidate_spec in Hbc.
    destruct Hbc as (_ & _ & [[[=] _]|(b' & l1 & l2 & _ & [= <-] & Hbs & _)]).
    simpl. split; [exact Hbs|]. split; [reflexivity|]. set_solver.
  - intros coverage ns r H. unfold greedy_select in H.
    apply greedy_loop_picks in H.
    + tauto.
    + apply NoDup_nil_2.
    + reflexivity.
Qed.

(** ** Prefixes *)

Lemma prefix_inv (p s : string) :
  String.prefix p s = true -> exists t, s = (p ++ t)%string.
Proof.
  revert s. induction p as [|c p IH]; intros s H.
  - exists s. reflexivity.
  - destruct s as [|c' s]; simpl in H; [discriminate|].
    destruct (ascii_dec c c') as [->|]; [|discriminate].
    destruct (IH s H) as [t ->]. exists t. reflexivity.
Qed.

Lemma prefix_app (p t : string) : String.prefix p (p ++ t)%string = true.
Proof.
  induction p as [|c p IH]; simpl.
  - destruct t; reflexivity.
  - destruct (ascii_dec c c); [exact IH|congruence].
Qed.

(** Rewrites a string known to start with a literal as that literal
    followed by a tail, so that tests on its first characters compute. *)
Ltac expose_prefix H :=
  let t := fresh "t" in
  apply prefix_inv in H; destruct H as [t H].

(** ** The capacity check of [parse_text_file] *)

Section ParserCapacity.
Context {float : Type} {F : PyFloat float}.
Variable extract_weight : string -> float * list string.

Lemma mapM_cons {A B : Type} (f : A -> result B) (a : A) (l : list A) :
  mapM f (a :: l) = (y ← f a; k ← mapM f l; mret (y :: k)).
Proof. reflexivity. Qed.

Lemma mapM_not_OutOfFuel {A B : Type} (f : A -> result B) (l : list A) :
  (forall a, f a <> OutOfFuel) -> mapM f l <> OutOfFuel.
Proof.
  intros Hf. induction l as [|a l IH]; [discriminate|].
  specialize (Hf a). rewrite mapM_cons.
  destruct (f a); simpl; try congruence.
  destruct (mapM f l); simpl; unfold mret, result_ret; congruence.
Qed.

Lemma of_option_not_OutOfFuel {A : Type} (e : exn) (o : option A) :
  of_option e o <> OutOfFuel.
Proof. destruct o; discriminate. Qed.

Lemma unpack_two_ints_not_OutOfFuel (parts : list string) :
  unpack_two_ints parts <> OutOfFuel.
Proof.
  unfold unpack_two_ints, py_int.
  destruct parts as [|a [|b [|c parts]]]; simpl; try discriminate.
  - destruct (PyStr.int a); discriminate.
  - destruct (PyStr.int a); simpl; try discriminate.
    destruct (PyStr.int b); discriminate.
  - destruct (PyStr.int a); simpl; try discriminate.
    destruct (PyStr.int b); simpl; try discriminate.
    destruct (PyStr.int c); discriminate.
Qed.

Lemma parse_line_not_OutOfFuel (st : parse_state float) (raw : string) :
  parse_line extract_weight st raw <> OutOfFuel.
Proof.
  unfold parse_line.
  repeat match goal with
  | |- (if ?b then _ else _) <> _ => destruct b
  end; try discriminate.
  - unfold index1. destruct (_ !! 1%nat); simpl; try discriminate.
    unfold py_int. destruct (PyStr.int _); discriminate.
  - unfold index1. destruct (_ !! 1%nat); simpl; try discriminate.
    unfold py_float. destruct (float_of_string _); discriminate.
  - unfold index1. destruct (_ !! 1%nat); simpl; try discriminate.
    match goal with |- (?m ≫= _) <> _ => destruct m eqn:E end;
      simpl; try discriminate.
    exfalso. revert E. apply mapM_not_OutOfFuel.
    intros a. apply of_option_not_OutOfFuel.
  - unfold parse_edge_line.
    destruct (PyStr.split_max ") " 1 (PyStr.strip raw)) as [|u_v [|rest [|? ?]]];
      try discriminate.
    pose proof (unpack_two_ints_not_OutOfFuel
                  (PyStr.split "," (PyStr.strip_char "(" u_v))) as Hu.
    destruct (unpack_two_ints _) as [[u v]| |]; simpl; try congruence.
    destruct (extract_weight rest). discriminate.
Qed.

Lemma parse_lines_not_OutOfFuel (lines : list string) :
  forall st, parse_lines extract_weight st lines <> OutOfFuel.
Proof.
  induction lines as [|raw lines IH]; intros st; simpl; [discriminate|].
  pose proof (parse_line_not_OutOfFuel st raw) as H.
  destruct (parse_line extract_weight st raw); simpl;
    [apply IH|discriminate|congruence].
Qed.

Lemma mapM_py_int_raise (l : list string) (e : exn) :
  mapM (fun x => py_int (PyStr.strip x)) l = Raise e -> e = ValueError_literal.
Proof.
  revert e. induction l as [|x l IHl]; intros e; [discriminate|].
  rewrite mapM_cons.
  destruct (py_int (PyStr.strip x)) as [y|e1|] eqn:Ex; simpl;
    [|intros [= <-]|discriminate].
  - destruct (mapM _ l) eqn:El; simpl; try discriminate.
    intros [= <-]. apply IHl. reflexivity.
  - unfold py_int in Ex. destruct (PyStr.int _); simpl in Ex; congruence.
Qed.

(** The loop over the lines never raises the capacity error. *)
Lemma parse_line_raise (st : parse_state float) (raw : string) (e : exn) :
  parse_line extract_weight st raw = Raise e ->
  e <> ValueError_capacity_not_found.
Proof.
  unfold parse_line.
  repeat match goal with
  | |- (if ?b then _ else _) = _ -> _ => destruct b
  end; try discriminate.
  - unfold index1. destruct (_ !! 1%nat); simpl; try congruence.
    unfold py_int. destruct (PyStr.int _); simpl; congruence.
  - unfold index1. destruct (_ !! 1%nat); simpl; try congruence.
    unfold py_float. destruct (float_of_string _); simpl; congruence.
  - unfold index1. destruct (_ !! 1%nat); simpl; try congruence.
    match goal with |- (?m ≫= _) = _ -> _ => destruct m eqn:Em end;
      simpl; try discriminate.
    intros [= <-]. apply mapM_py_int_raise in Em. congruence.
  - unfold parse_edge_line.
    destruct (PyStr.split_max ") " 1 (PyStr.strip raw))
      as [|u_v [|rest [|? ?]]]; try congruence.
    unfold unpack_two_ints, py_int.
    destruct (PyStr.split "," (PyStr.strip_char "(" u_v))
      as [|a [|b [|c parts]]]; simpl; try congruence.
    + destruct (PyStr.int a); simpl; congruence.
    + destruct (PyStr.int a); simpl; try congruence.
      destruct (PyStr.int b); simpl; try congruence.
      destruct (extract_weight rest). discriminate.
    + destruct (PyStr.int a); simpl; try congruence.
      destruct (PyStr.int b); simpl; try congruence.
      destruct (PyStr.int c); simpl; congruence.
Qed.

Lemma parse_lines_raise (lines : list string) :
  forall st e,
  parse_lines extract_weight st lines = Raise e ->
  e <> ValueError_capacity_not_found.
Proof.
  induction lines as [|raw lines IH]; intros st e H; simpl in H;
    [discriminate|].
  destruct (parse_line extract_weight st raw) as [st1|e1|] eqn:E1;
    simpl in H; [eapply IH; exact H| |discriminate].
  injection H as <-. eapply parse_line_raise. exact E1.
Qed.

(** What one line does to [battery_capacity]. *)
Lemma parse_line_capacity (st st' : parse_state float) (raw : string) :
  parse_line extract_weight st raw = Return st' ->
  if is_capacity_line raw
  then exists c, capacity_field raw = Return c
                 /\ st_battery_capacity st' = Some c
  else st_battery_capacity st' = st_battery_capacity st.
Proof.
  unfold parse_line, is_capacity_line, capacity_field, PyStr.startswith.
  intros H.
  destruct (String.prefix "VEHICLE CAPACITY" (PyStr.strip raw)) eqn:Hcap.
  - pose proof Hcap as Hp. expose_prefix Hp. rewrite Hp in H.
    change (negb (PyStr.nonempty ("VEHICLE CAPACITY" ++ t))) with false in H.
    change (String.prefix "NAME" ("VEHICLE CAPACITY" ++ t)) with false in H.
    change (String.prefix "NUMBER OF VERTICES" ("VEHICLE CAPACITY" ++ t))
      with false in H.
    cbv iota in H. rewrite <- Hp in H.
    inv_bind H. injection H as <-. simpl.
    exists a0. split; [|reflexivity].
    rewrite Ha. simpl. exact Ha0.
  - repeat match type of H with
    | (if ?b then _ else _) = _ => destruct b
    end; try (injection H as <-; reflexivity).
    + inv_bind H. injection H as <-. reflexivity.
    + inv_bind H. injection H as <-. reflexivity.
    + unfold parse_edge_line in H.
      destruct (PyStr.split_max ") " 1 (PyStr.strip raw)) as [|u_v [|rest [|? ?]]];
        try discriminate.
      inv_bind H. destruct a as [u v]. destruct (extract_weight rest).
      injection H as <-. reflexivity.
Qed.

Lemma parse_lines_capacity_absent (lines : list string) :
  forall st st',
  Forall (fun raw => is_capacity_line raw = false) lines ->
  parse_lines extract_weight st lines = Return st' ->
  st_battery_capacity st' = st_battery_capacity st.
Proof.
  induction lines as [|raw lines IH]; intros st st' Habs H; simpl in H.
  - injection H as <-. reflexivity.
  - apply Forall_cons in Habs. destruct Habs as [Hraw Habs].
    inv_bind H. apply parse_line_capacity in Ha. rewrite Hraw in Ha.
    rewrite (IH _ _ Habs H). exact Ha.
Qed.

Lemma parse_lines_capacity_present (lines : list string) :
  forall st st',
  Exists (fun raw => is_capacity_line raw = true) lines ->
  parse_lines extract_weight st lines = Return st' ->
  exists pre raw post c,
    lines = pre ++ raw :: post
    /\ is_capacity_line raw = true
    /\ Forall (fun raw => is_capacity_line raw = false) post
    /\ capacity_field raw = Return c
    /\ st_battery_capacity st' = Some c.
Proof.
  induction lines as [|raw lines IH]; intros st st' Hex H; simpl in H.
  - apply Exists_nil in Hex. destruct Hex.
  - inv_bind H.
    destruct (decide (Exists (fun raw => is_capacity_line raw = true) lines))
      as [Hlater|Hnone].
    + destruct (IH _ _ Hlater H) as (pre & raw' & post & c & -> & H1 & H2 & H3 & H4).
      exists (raw :: pre), raw', post, c. repeat split; assumption.
    + apply Exists_cons in Hex. destruct Hex as [Hraw|Hex]; [|contradiction].
      apply parse_line_capacity in Ha. rewrite Hraw in Ha.
      destruct Ha as (c & Hc & Hst).
      assert (Habs : Forall (fun raw => is_capacity_line raw = false) lines).
      { apply Forall_forall. intros x Hx.
        destruct (is_capacity_line x) eqn:E; [|reflexivity].
        exfalso. apply Hnone. apply Exists_exists. eauto. }
      exists [], raw, lines, c. repeat split; try assumption.
      rewrite (parse_lines_capacity_absent _ _ _ Habs H). exact Hst.
Qed.

(** C6. Without a [VEHICLE CAPACITY] line [parse_text_file] never returns:
    it raises, and what it raises is the capacity error whenever the loop
    over the lines completes.  With such a line the capacity error is
    never raised, and whenever the loop over the lines completes the
    function returns the graph, the depots and the capacity read from the
    last [VEHICLE CAPACITY] line. *)
Theorem parse_text_file_capacity_check (lines : list string) :
  (Forall (fun raw => is_capacity_line raw = false) lines ->
     (exists e, parse_text_file extract_weight lines = Raise e)
     /\ (forall st, parse_lines extract_weight initial_state lines = Return st ->
           parse_text_file extract_weight lines
           = Raise ValueError_capacity_not_found))
  /\ (Exists (fun raw => is_capacity_line raw = true) lines ->
        parse_text_file extract_weight lines
        <> Raise ValueError_capacity_not_found
        /\ (forall st,
              parse_lines extract_weight initial_state lines = Return st ->
              exists pre raw post c,
                lines = pre ++ raw :: post
                /\ is_capacity_line raw = true
                /\ Forall (fun raw => is_capacity_line raw = false) post
                /\ capacity_field raw = Return c
                /\ parse_text_file extract_weight lines
                   = Return (st_G st, st_depots st, c))).
Proof.
  unfold parse_text_file. split.
  - intros Habs.
    assert (Hret : forall st,
              parse_lines extract_weight initial_state lines = Return st ->
              st_battery_capacity st = None).
    { intros st H. apply (parse_lines_capacity_absent _ _ _ Habs H). }
    split.
    + pose proof (parse_lines_not_OutOfFuel lines initial_state) as Hfuel.
      destruct (parse_lines extract_weight initial_state lines) as [st|e|];
        simpl; [|eauto|congruence].
      rewrite (Hret st eq_refl). eauto.
    + intros st H. rewrite H. simpl. rewrite (Hret st H). reflexivity.
  - intros Hex.
    assert (Hret : forall st,
              parse_lines extract_weight initial_state lines = Return st ->
              exists pre raw post c,
                lines = pre ++ raw :: post
                /\ is_capacity_line raw = true
                /\ Forall (fun raw => is_capacity_line raw = false) post
                /\ capacity_field raw = Return c
                /\ st_battery_capacity st = Some c).
    { intros st H. apply (parse_lines_capacity_present _ _ _ Hex H). }
    split.
    + destruct (parse_lines extract_weight initial_state lines) as [st|e|] eqn:E;
        simpl; [| |discriminate].
      * destruct (Hret st eq_refl) as (_ & _ & _ & c & _ & _ & _ & _ & ->).
        discriminate.
      * intros [= ->]. exact (parse_lines_raise _ _ _ E eq_refl).
    + intros st H.
      destruct (Hret st H) as (pre & raw & post & c & H1 & H2 & H3 & H4 & H5).
      exists pre, raw, post, c. repeat split; try assumption.
      rewrite H. simpl. rewrite H5. reflexivity.
Qed.

End ParserCapacity.

(** ** Association lists *)

Lemma assoc_get_In {A : Type} (k : Z) (a : A) (l : list (Z * A)) :
  assoc_get k l = Some a -> In (k, a) l.
Proof.
  induction l as [|[k' a'] l IH]; simpl; [discriminate|].
  destruct (Z.eqb_spec k k') as [->|Hne].
  - intros [= ->]. now left.
  - intros H. right. now apply IH.
Qed.

Lemma assoc_mem_In {A : Type} (k : Z) (l : list (Z * A)) :
  assoc_mem k l = true <-> In k (map fst l).
Proof.
  unfold assoc_mem. induction l as [|[k' a'] l IH]; simpl.
  - split; [discriminate|intros []].
  - destruct (Z.eqb_spec k k') as [->|Hne].
    + split; [now left|reflexivity].
    + rewrite IH. split; [now right|]. intros [H|H]; [congruence|exact H].
Qed.

(** ** The shortest-path search returns, and what it returns *)

Section DijkstraFacts.
Context {float : Type} {F : PyFloat float} {L : PyFloatLaws F}.

Lemma entry_ltb_true (a b : entry float) :
  entry_ltb a b = true -> fle (entry_dist a) (entry_dist b).
Proof.
  destruct a as [[d1 c1] n1], b as [[d2 c2] n2]. unfold entry_ltb, fle. simpl.
  destruct (feqb d1 d2) eqn:E.
  - intros _. apply (feqb_le d1 d2 E).
  - apply fltb_asym.
Qed.

Lemma entry_ltb_false (a b : entry float) :
  entry_ltb a b = false -> fle (entry_dist b) (entry_dist a).
Proof.
  destruct a as [[d1 c1] n1], b as [[d2 c2] n2]. unfold entry_ltb, fle. simpl.
  destruct (feqb d1 d2) eqn:E.
  - intros _. apply (feqb_le d1 d2 E).
  - trivial.
Qed.

(** [heappop] hands out an entry of least distance and keeps the rest. *)
Lemma pop_min_spec (l : list (entry float)) :
  forall best m r,
  pop_min best l = (m, r) ->
  Permutation (best :: l) (m :: r)
  /\ fle (entry_dist m) (entry_dist best)
  /\ forall e, In e r -> fle (entry_dist m) (entry_dist e).
Proof.
  induction l as [|e l IH]; intros best m r H; simpl in H.
  - injection H as <- <-. split; [reflexivity|]. split.
    + apply fltb_irrefl.
    + intros e [].
  - destruct (entry_ltb e best) eqn:C.
    + destruct (pop_min e l) as [m' r'] eqn:P. injection H as <- <-.
      destruct (IH _ _ _ P) as (Hperm & Hm & Hr).
      apply entry_ltb_true in C.
      assert (Hmb : fle (entry_dist m') (entry_dist best)).
      { unfold fle in *. eapply fle_trans; eassumption. }
      split; [|split; [exact Hmb|]].
      * transitivity (best :: m' :: r');
          [apply perm_skip; exact Hperm|apply perm_swap].
      * intros x [<-|Hx]; [exact Hmb|now apply Hr].
    + destruct (pop_min best l) as [m' r'] eqn:P. injection H as <- <-.
      destruct (IH _ _ _ P) as (Hperm & Hm & Hr).
      apply entry_ltb_false in C.
      split; [|split; [exact Hm|]].
      * transitivity (e :: best :: l); [apply perm_swap|].
        transitivity (e :: m' :: r');
          [apply perm_skip; exact Hperm|apply perm_swap].
      * intros x [<-|Hx]; [|now apply Hr].
        unfold fle in *. eapply fle_trans; eassumption.
Qed.

Lemma heappop_spec (fr : list (entry float)) (m : entry float)
    (r : list (entry float)) :
  heappop fr = Some (m, r) ->
  Permutation fr (m :: r)
  /\ forall e, In e r -> fle (entry_dist m) (entry_dist e).
Proof.
  destruct fr as [|e l]; simpl; [discriminate|].
  intros [= H]. apply pop_min_spec in H. tauto.
Qed.

Lemma heappop_None (fr : list (entry float)) : heappop fr = None -> fr = [].
Proof. destruct fr; [reflexivity|discriminate]. Qed.

Section Search.
Variable G : Graph float.
Variable cutoff : float.
Hypothesis G_closed : closed G.
Hypothesis G_nonneg : nonneg_costs G.

(** Scanning the neighbours of a node whose distance bounds every
    distance already final: nothing is raised, the final distances stay,
    the heap gains at most one entry per neighbour, none of them nearer
    than the node itself. *)
Lemma relax_spec (d_v : float) (nbrs : adjacency float) :
  forall st,
  (forall u du, dist st !! u = Some du -> fle du d_v) ->
  (forall m e, In (m, e) nbrs ->
     fle (float_of_Z 0) (edge_cost e) /\ In m (nodes G)) ->
  exists st' new,
    relax cutoff d_v nbrs st = Return st'
    /\ dist st' = dist st
    /\ fringe st' = new ++ fringe st
    /\ (length new <= length nbrs)%nat
    /\ forall e, In e new ->
         fle d_v (entry_dist e) /\ In (entry_node e) (nodes G).
Proof.
  induction nbrs as [|[u e] nbrs IH]; intros st Hdist Hnbrs; simpl.
  - exists st, []. do 3 (split; [reflexivity|]). split; [simpl; lia|].
    intros x [].
  - assert (Hrest : forall m e0, In (m, e0) nbrs ->
              fle (float_of_Z 0) (edge_cost e0) /\ In m (nodes G)).
    { intros m e0 Hm. apply Hnbrs. now right. }
    destruct (Hnbrs u e (or_introl eq_refl)) as [Hcost Hu].
    assert (Hvu : fle d_v (fadd d_v (edge_cost e))).
    { apply fadd_nonneg. exact Hcost. }
    assert (Hskip : exists st' new,
              relax cutoff d_v nbrs st = Return st'
              /\ dist st' = dist st
              /\ fringe st' = new ++ fringe st
              /\ (length new <= S (length nbrs))%nat
              /\ forall e, In e new ->
                   fle d_v (entry_dist e) /\ In (entry_node e) (nodes G)).
    { destruct (IH st Hdist Hrest) as (st' & new & E & D & Fr & Len & Hnew).
      exists st', new. repeat split; auto; apply Hnew; assumption. }
    destruct (fltb cutoff (fadd d_v (edge_cost e))); [exact Hskip|].
    destruct (dist st !! u) as [u_dist|] eqn:Hdu.
    + assert (Hno : fltb (fadd d_v (edge_cost e)) u_dist = false).
      { pose proof (Hdist u u_dist Hdu) as Hle. unfold fle in *.
        eapply fle_trans; eassumption. }
      rewrite Hno. exact Hskip.
    + match goal with |- context [if ?c then _ else _] => destruct c end;
        [|exact Hskip].
      edestruct (IH (mk_dijkstra_state (dist st)
                       (<[u := fadd d_v (edge_cost e)]> (seen st))
                       (S (counter st))
                       ((fadd d_v (edge_cost e), counter st, u) :: fringe st)))
        as (st' & new & E & D & Fr & Len & Hnew); [exact Hdist|exact Hrest|].
      simpl in D, Fr.
      exists st', (new ++ [(fadd d_v (edge_cost e), counter st, u)]).
      split; [exact E|]. split; [exact D|]. split.
      * rewrite Fr, <- app_assoc. reflexivity.
      * split; [rewrite length_app; simpl; lia|].
        intros x Hx. apply in_app_or in Hx.
        destruct Hx as [Hx|[<-|[]]]; [now apply Hnew|].
        split; [exact Hvu|exact Hu].
Qed.

Lemma pending_empty (H : Graph float) : pending H ∅ = total_degree H.
Proof.
  induction H as [|[k nbrs] H IH]; simpl; [reflexivity|].
  rewrite lookup_empty, IH. reflexivity.
Qed.

Lemma pending_insert_le (H : Graph float) (d : gmap Z float) (v : Z) (x : float) :
  (pending H (<[v := x]> d) <= pending H d)%nat.
Proof.
  induction H as [|[k nbrs] H IH]; simpl; [lia|].
  destruct (decide (v = k)) as [->|Hne].
  - rewrite lookup_insert_eq. destruct (d !! k); lia.
  - rewrite lookup_insert_ne by exact Hne. lia.
Qed.

Lemma pending_insert (H : Graph float) (d : gmap Z float) (v : Z) (x : float)
    (nbrs : adjacency float) :
  assoc_get v H = Some nbrs -> d !! v = None ->
  (pending H (<[v := x]> d) + length nbrs <= pending H d)%nat.
Proof.
  induction H as [|[k nb] H IH]; simpl; [discriminate|].
  destruct (Z.eqb_spec v k) as [->|Hne].
  - intros [= ->] Hd. rewrite lookup_insert_eq, Hd.
    pose proof (pending_insert_le H d k x). lia.
  - intros Hget Hd. rewrite lookup_insert_ne by exact Hne.
    specialize (IH Hget Hd). lia.
Qed.

Lemma dijkstra_loop_returns (fuel : nat) :
  forall st,
  search_inv G st ->
  (length (fringe st) + pending G (dist st) <= fuel)%nat ->
  exists res,
    dijkstra_loop fuel G cutoff st = Return res
    /\ (forall u, is_Some (dist st !! u) -> is_Some (res !! u))
    /\ (forall e, In e (fringe st) -> is_Some (res !! entry_node e))
    /\ (forall u, is_Some (res !! u) -> In u (nodes G)).
Proof.
  induction fuel as [|fuel IH]; intros st (I1 & I2 & I3) Hfuel.
  - assert (Hfr : fringe st = []).
    { destruct (fringe st); [reflexivity|simpl in Hfuel; lia]. }
    simpl. rewrite Hfr. simpl. exists (dist st).
    repeat split; auto. intros e [].
  - simpl. destruct (heappop (fringe st)) as [[[[d c] v] fr']|] eqn:Hpop.
    + apply heappop_spec in Hpop. destruct Hpop as [Hperm Hmin].
      assert (Hin : forall e, In e (fringe st) <-> e = (d, c, v) \/ In e fr').
      { intros e. rewrite <- !list_elem_of_In, Hperm, elem_of_cons.
        reflexivity. }
      assert (Hlen : length (fringe st) = S (length fr')).
      { rewrite Hperm. reflexivity. }
      assert (Hv : In v (nodes G)).
      { apply (I2 (d, c, v)). apply Hin. now left. }
      destruct (dist st !! v) as [dv|] eqn:Hdv.
      * destruct (IH (mk_dijkstra_state (dist st) (seen st) (counter st) fr'))
          as (res & E & R1 & R2 & R3).
        { repeat split; simpl.
          - intros e u du He. apply I1. apply Hin. now right.
          - intros e He. apply I2. apply Hin. now right.
          - exact I3. }
        { simpl. lia. }
        exists res. split; [exact E|]. simpl in R1, R2.
        repeat split; auto.
        intros e He. apply Hin in He. destruct He as [->|He]; [|now apply R2].
        apply R1. simpl. rewrite Hdv. eauto.
      * destruct (assoc_get v G) as [nbrs|] eqn:Hget.
        2:{ apply assoc_mem_In in Hv. unfold assoc_mem in Hv.
            rewrite Hget in Hv. discriminate. }
        simpl.
        pose proof (assoc_get_In _ _ _ Hget) as HinG.
        assert (Hbound : forall u du,
                  <[v := d]> (dist st) !! u = Some du -> fle du d).
        { intros u du. destruct (decide (v = u)) as [->|Hne].
          - rewrite lookup_insert_eq. intros [= <-]. apply fltb_irrefl.
          - rewrite lookup_insert_ne by exact Hne. intros Hu.
            apply (I1 (d, c, v) u du); [apply Hin; now left|exact Hu]. }
        destruct (relax_spec d nbrs
                    (mk_dijkstra_state (<[v := d]> (dist st)) (seen st)
                       (counter st) fr'))
          as (st' & new & E & D & Fr & Len & Hnew).
        { exact Hbound. }
        { intros m e Hm. split.
          - eapply G_nonneg; eassumption.
          - eapply G_closed; eassumption. }
        rewrite E. simpl. simpl in D, Fr.
        destruct (IH st') as (res & E' & R1 & R2 & R3).
        { repeat split.
          - intros e u du He Hu. rewrite Fr in He. rewrite D in Hu.
            apply in_app_or in He. destruct He as [He|He].
            + pose proof (Hbound u du Hu) as H1.
              destruct (Hnew e He) as [H2 _]. unfold fle in *.
              eapply fle_trans; eassumption.
            + destruct (decide (v = u)) as [->|Hne].
              * rewrite lookup_insert_eq in Hu. injection Hu as <-.
                now apply Hmin.
              * rewrite lookup_insert_ne in Hu by exact Hne.
                apply (I1 e u du); [apply Hin; now right|exact Hu].
          - intros e He. rewrite Fr in He. apply in_app_or in He.
            destruct He as [He|He]; [now apply Hnew|].
            apply I2. apply Hin. now right.
          - intros u. rewrite D. destruct (decide (v = u)) as [->|Hne].
            + intros _. exact Hv.
            + rewrite lookup_insert_ne by exact Hne. apply I3. }
        { rewrite Fr, D, length_app.
          pose proof (pending_insert G (dist st) v d nbrs Hget Hdv). lia. }
        exists res. split; [exact E'|].
        assert (Hvres : is_Some (res !! v)).
        { apply R1. rewrite D, lookup_insert_eq. eauto. }
        repeat split; auto.
        -- intros u Hu. apply R1. rewrite D.
           destruct (decide (v = u)) as [->|Hne].
           ++ rewrite lookup_insert_eq. eauto.
           ++ rewrite lookup_insert_ne by exact Hne. exact Hu.
        -- intros e He. apply Hin in He. destruct He as [->|He]; [exact Hvres|].
           apply R2. rewrite Fr. apply in_or_app. now right.
    + apply heappop_None in Hpop. exists (dist st).
      repeat split; auto. rewrite Hpop. intros e [].
Qed.

(** From a node of the graph the search returns distances for nodes of
    the graph only, the source among them, whatever the cutoff. *)
Lemma dijkstra_returns (source : Z) :
  In source (nodes G) ->
  exists lengths,
    single_source_dijkstra_path_length G source cutoff = Return lengths
    /\ source ∈ dom lengths
    /\ forall u, u ∈ dom lengths -> In u (nodes G).
Proof.
  intros Hs. unfold single_source_dijkstra_path_length.
  pose proof Hs as Hmem. apply assoc_mem_In in Hmem. rewrite Hmem.
  destruct (dijkstra_loop_returns (dijkstra_fuel G)
              (mk_dijkstra_state ∅ {[source := float_of_Z 0]} 1
                 [(float_of_Z 0, 0%nat, source)]))
    as (res & E & R1 & R2 & R3).
  - repeat split; simpl.
    + intros e u du _ Hu. rewrite lookup_empty in Hu. discriminate.
    + intros e [<-|[]]. exact Hs.
    + intros u [x Hu]. rewrite lookup_empty in Hu. discriminate.
  - simpl. rewrite pending_empty. unfold dijkstra_fuel. lia.
  - exists res. split; [exact E|]. split.
    + apply elem_of_dom. apply (R2 (float_of_Z 0, 0%nat, source)). now left.
    + intros u Hu. apply R3. apply elem_of_dom. exact Hu.
Qed.

Lemma compute_coverage_from_returns (ns : list Z) :
  forall acc,
  (forall n, In n ns -> In n (nodes G)) ->
  (forall n s, acc !! n = Some s ->
     n ∈ s /\ forall m, m ∈ s -> In m (nodes G)) ->
  exists coverage,
    compute_coverage_from G cutoff ns acc = Return coverage
    /\ (forall n, In n ns -> is_Some (coverage !! n))
    /\ (forall n, is_Some (acc !! n) -> is_Some (coverage !! n))
    /\ (forall n s, coverage !! n = Some s ->
          n ∈ s /\ forall m, m ∈ s -> In m (nodes G)).
Proof.
  induction ns as [|node ns IH]; intros acc Hns Hacc; simpl.
  - exists acc. repeat split; auto; try (intros n []); apply (Hacc n s H).
  - destruct (dijkstra_returns node) as (lengths & E & Hself & Hsub).
    { apply Hns. now left. }
    rewrite E. simpl.
    destruct (IH (<[node := dom lengths]> acc)) as (cov & E' & C1 & C2 & C3).
    { intros n Hn. apply Hns. now right. }
    { intros n s. destruct (decide (node = n)) as [->|Hne].
      - rewrite lookup_insert_eq. intros [= <-]. split; assumption.
      - rewrite lookup_insert_ne by exact Hne. apply Hacc. }
    exists cov. split; [exact E'|]. repeat split.
    + intros n [<-|Hn]; [|now apply C1].
      apply C2. rewrite lookup_insert_eq. eauto.
    + intros n Hn. apply C2. destruct (decide (node = n)) as [->|Hne].
      * rewrite lookup_insert_eq. eauto.
      * rewrite lookup_insert_ne by exact Hne. exact Hn.
    + apply (C3 n s H).
    + apply (C3 n s H).
Qed.

End Search.

(** On a graph whose adjacency lists name nodes of the graph and whose
    edge costs are not negative, [compute_coverage] returns. *)
Lemma compute_coverage_returns (G : Graph float) (radius : float) :
  closed G -> nonneg_costs G ->
  exists coverage,
    compute_coverage G radius = Return coverage
    /\ forall node, In node (nodes G) ->
         exists s, coverage !! node = Some s /\ node ∈ s.
Proof.
  intros Hc Hn. unfold compute_coverage.
  destruct (compute_coverage_from_returns G radius Hc Hn (nodes G) ∅)
    as (cov & E & C1 & _ & C3).
  - auto.
  - intros n s H. rewrite lookup_empty in H. discriminate.
  - exists cov. split; [exact E|].
    intros node Hnode. destruct (C1 node Hnode) as [s Hs].
    exists s. split; [exact Hs|]. apply (C3 node s Hs).
Qed.

End DijkstraFacts.

(** ** The search on any graph: what a returned result contains *)

Section SearchAnyGraph.
Context {float : Type} {F : PyFloat float}.
Variable G : Graph float.
Variable cutoff : float.

Lemma pop_min_perm (l : list (entry float)) :
  forall best m r,
  pop_min best l = (m, r) -> Permutation (best :: l) (m :: r).
Proof.
  induction l as [|e l IH]; intros best m r H; simpl in H.
  - injection H as <- <-. reflexivity.
  - destruct (entry_ltb e best).
    + destruct (pop_min e l) as [m' r'] eqn:P. injection H as <- <-.
      transitivity (best :: m' :: r');
        [apply perm_skip; exact (IH _ _ _ P)|apply perm_swap].
    + destruct (pop_min best l) as [m' r'] eqn:P. injection H as <- <-.
      transitivity (e :: best :: l); [apply perm_swap|].
      transitivity (e :: m' :: r');
        [apply perm_skip; exact (IH _ _ _ P)|apply perm_swap].
Qed.

Lemma heappop_In (fr : list (entry float)) (m : entry float)
    (r : list (entry float)) :
  heappop fr = Some (m, r) ->
  length fr = S (length r) /\ forall e, In e fr <-> e = m \/ In e r.
Proof.
  destruct fr as [|e l]; simpl; [discriminate|].
  intros [= H]. apply pop_min_perm in H. split.
  - apply Permutation_length in H. exact H.
  - intros x. change (In x (e :: l) <-> x = m \/ In x r).
    rewrite <- !list_elem_of_In, H, elem_of_cons. reflexivity.
Qed.

(** Scanning an adjacency list leaves the final distances alone and
    pushes at most one entry per neighbour, each for a listed neighbour. *)
Lemma relax_shape (d_v : float) (nbrs : adjacency float) :
  forall st,
  relax cutoff d_v nbrs st <> OutOfFuel
  /\ forall st',
       relax cutoff d_v nbrs st = Return st' ->
       dist st' = dist st
       /\ exists new,
            fringe st' = new ++ fringe st
            /\ (length new <= length nbrs)%nat
            /\ forall e, In e new -> exists d, In (entry_node e, d) nbrs.
Proof.
  induction nbrs as [|[u e] nbrs IH]; intros st; simpl.
  - split; [discriminate|]. intros st' [= <-]. split; [reflexivity|].
    exists []. split; [reflexivity|]. split; [simpl; lia|]. intros x [].
  - assert (Hskip : relax cutoff d_v nbrs st <> OutOfFuel
              /\ forall st',
                   relax cutoff d_v nbrs st = Return st' ->
                   dist st' = dist st
                   /\ exists new,
                        fringe st' = new ++ fringe st
                        /\ (length new <= S (length nbrs))%nat
                        /\ forall x, In x new ->
                             exists d, In (entry_node x, d) ((u, e) :: nbrs)).
    { destruct (IH st) as [H1 H2]. split; [exact H1|].
      intros st' E. destruct (H2 st' E) as (D & new & Fr & Len & Hnew).
      split; [exact D|]. exists new. split; [exact Fr|]. split; [lia|].
      intros x Hx. destruct (Hnew x Hx) as [d Hd]. exists d. now right. }
    destruct (fltb cutoff (fadd d_v (edge_cost e))); [exact Hskip|].
    destruct (dist st !! u) as [u_dist|].
    + destruct (fltb (fadd d_v (edge_cost e)) u_dist); [|exact Hskip].
      split; discriminate.
    + match goal with |- context [if ?c then _ else _] => destruct c end;
        [|exact Hskip].
      destruct (IH (mk_dijkstra_state (dist st)
                      (<[u := fadd d_v (edge_cost e)]> (seen st))
                      (S (counter st))
                      ((fadd d_v (edge_cost e), counter st, u) :: fringe st)))
        as [H1 H2].
      split; [exact H1|].
      intros st' E. destruct (H2 st' E) as (D & new & Fr & Len & Hnew).
      simpl in D, Fr. split; [exact D|].
      exists (new ++ [(fadd d_v (edge_cost e), counter st, u)]).
      split; [rewrite Fr, <- app_assoc; reflexivity|].
      split; [rewrite length_app; simpl; lia|].
      intros x Hx. apply in_app_or in Hx.
      destruct Hx as [Hx|[<-|[]]].
      * destruct (Hnew x Hx) as [d Hd]. exists d. now right.
      * exists e. now left.
Qed.

(** The fuel [single_source_dijkstra_path_length] starts with is enough,
    on every graph. *)
Lemma dijkstra_loop_fuel (fuel : nat) :
  forall st,
  (length (fringe st) + pending G (dist st) <= fuel)%nat ->
  dijkstra_loop fuel G cutoff st <> OutOfFuel.
Proof.
  induction fuel as [|fuel IH]; intros st Hfuel.
  - assert (Hfr : fringe st = []).
    { destruct (fringe st); [reflexivity|simpl in Hfuel; lia]. }
    simpl. rewrite Hfr. discriminate.
  - simpl. destruct (heappop (fringe st)) as [[[[d c] v] fr']|] eqn:Hpop;
      [|discriminate].
    apply heappop_In in Hpop. destruct Hpop as [Hlen _].
    destruct (dist st !! v) as [dv|] eqn:Hdv.
    + apply IH. simpl. lia.
    + destruct (assoc_get v G) as [nbrs|] eqn:Hget; [|discriminate].
      simpl.
      destruct (relax_shape d nbrs
                  (mk_dijkstra_state (<[v := d]> (dist st)) (seen st)
                     (counter st) fr')) as [Hno Hsh].
      destruct (relax cutoff d nbrs _) as [st'| |] eqn:E;
        [|discriminate|congruence].
      simpl. apply IH.
      destruct (Hsh st' eq_refl) as (D & new & Fr & Len & _).
      simpl in D, Fr. rewrite Fr, D, length_app.
      pose proof (pending_insert G (dist st) v d nbrs Hget Hdv). lia.
Qed.

Lemma dijkstra_loop_keeps (fuel : nat) :
  forall st res,
  dijkstra_loop fuel G cutoff st = Return res ->
  (forall u, is_Some (dist st !! u) -> is_Some (res !! u))
  /\ (forall e, In e (fringe st) -> is_Some (res !! entry_node e))
  /\ (forall u, is_Some (res !! u) -> reached_from G st u).
Proof.
  induction fuel as [|fuel IH]; intros st res H; simpl in H.
  - destruct (heappop (fringe st)) as [[[[d c] v] fr']|] eqn:Hpop;
      [discriminate|].
    injection H as <-. apply heappop_None in Hpop.
    split; [auto|]. split; [rewrite Hpop; intros e []|].
    intros u Hu. now left.
  - destruct (heappop (fringe st)) as [[[[d c] v] fr']|] eqn:Hpop.
    + apply heappop_In in Hpop. destruct Hpop as [_ Hin].
      destruct (dist st !! v) as [dv|] eqn:Hdv.
      * apply IH in H. destruct H as (R1 & R2 & R3). simpl in R1, R2.
        split; [exact R1|]. split.
        -- intros e He. apply Hin in He.
           destruct He as [->|He]; [|now apply R2].
           apply R1. simpl. rewrite Hdv. eauto.
        -- intros u Hu. destruct (R3 u Hu) as [K|[(e & He & Hn)|K]].
           ++ now left.
           ++ right. left. exists e. split; [|exact Hn].
              apply Hin. now right.
           ++ right. now right.
      * destruct (assoc_get v G) as [nbrs|] eqn:Hget; [|discriminate].
        simpl in H. apply bind_Return in H. destruct H as (st' & E & H).
        destruct (relax_shape d nbrs
                    (mk_dijkstra_state (<[v := d]> (dist st)) (seen st)
                       (counter st) fr')) as [_ Hsh].
        destruct (Hsh st' E) as (D & new & Fr & _ & Hnew).
        simpl in D, Fr.
        apply IH in H. destruct H as (R1 & R2 & R3).
        assert (Hvres : is_Some (res !! v)).
        { apply R1. rewrite D, lookup_insert_eq. eauto. }
        split; [|split].
        -- intros u Hu. apply R1. rewrite D.
           destruct (decide (v = u)) as [->|Hne].
           ++ rewrite lookup_insert_eq. eauto.
           ++ rewrite lookup_insert_ne by exact Hne. exact Hu.
        -- intros e He. apply Hin in He.
           destruct He as [->|He]; [exact Hvres|].
           apply R2. rewrite Fr. apply in_or_app. now right.
        -- intros u Hu. destruct (R3 u Hu) as [K|[(e & He & Hn)|K]].
           ++ rewrite D in K. destruct (decide (v = u)) as [->|Hne].
              ** right. left. exists (d, c, u). split; [|reflexivity].
                 apply Hin. now left.
              ** rewrite lookup_insert_ne in K by exact Hne. now left.
           ++ rewrite Fr in He. apply in_app_or in He.
              destruct He as [He|He].
              ** destruct (Hnew e He) as [d' Hd']. rewrite Hn in Hd'.
                 right. right. exists v, nbrs, d'.
                 split; [apply assoc_get_In; exact Hget|exact Hd'].
              ** right. left. exists e. split; [|exact Hn].
                 apply Hin. now right.
           ++ right. now right.
    + injection H as <-. apply heappop_None in Hpop.
      split; [auto|]. split; [rewrite Hpop; intros e []|].
      intros u Hu. now left.
Qed.

(** Whatever the weights and the cutoff: the search never runs out of
    fuel, and distances it returns are for the source and for listed
    neighbours only. *)
Lemma dijkstra_result (source : Z) :
  single_source_dijkstra_path_length G source cutoff <> OutOfFuel
  /\ forall lengths,
       single_source_dijkstra_path_length G source cutoff = Return lengths ->
       source ∈ dom lengths
       /\ forall u, u ∈ dom lengths ->
            u = source \/ exists n nbrs d, In (n, nbrs) G /\ In (u, d) nbrs.
Proof.
  unfold single_source_dijkstra_path_length.
  destruct (assoc_mem source G); [|split; discriminate].
  split.
  - apply dijkstra_loop_fuel. simpl. rewrite pending_empty.
    unfold dijkstra_fuel. lia.
  - intros lengths H. apply dijkstra_loop_keeps in H.
    destruct H as (_ & R2 & R3). split.
    + apply elem_of_dom. apply (R2 (float_of_Z 0, 0%nat, source)). now left.
    + intros u Hu. apply elem_of_dom in Hu.
      destruct (R3 u Hu) as [K|[(e & [<-|[]] & Hn)|K]].
      * simpl in K. rewrite lookup_empty in K. destruct K as [? K].
        discriminate.
      * left. symmetry. exact Hn.
      * now right.
Qed.

Lemma compute_coverage_from_result (radius : float) (ns : list Z) :
  forall acc,
  compute_coverage_from G cutoff ns acc <> OutOfFuel
  /\ forall coverage,
       compute_coverage_from G cutoff ns acc = Return coverage ->
       (forall n s, acc !! n = Some s ->
          n ∈ s /\ forall m, m ∈ s -> In m (nodes G) \/
                     exists k nbrs d, In (k, nbrs) G /\ In (m, d) nbrs) ->
       (forall n, In n ns -> In n (nodes G)) ->
       (forall n, In n ns -> is_Some (coverage !! n))
       /\ (forall n, is_Some (acc !! n) -> is_Some (coverage !! n))
       /\ (forall n s, coverage !! n = Some s ->
             n ∈ s /\ forall m, m ∈ s -> In m (nodes G) \/
                        exists k nbrs d, In (k, nbrs) G /\ In (m, d) nbrs).
Proof.
  induction ns as [|node ns IH]; intros acc; simpl.
  - split; [discriminate|]. intros coverage [= <-] Hacc _.
    split; [intros n []|]. split; [auto|exact Hacc].
  - destruct (dijkstra_result node) as [Hno Hres].
    destruct (single_source_dijkstra_path_length G node cutoff)
      as [lengths|e|] eqn:E; simpl; [|split; discriminate|congruence].
    destruct (IH (<[node := dom lengths]> acc)) as [H1 H2].
    split; [exact H1|].
    intros coverage Hc Hacc Hns.
    destruct (Hres lengths eq_refl) as [Hself Hsub].
    destruct (H2 coverage Hc) as (C1 & C2 & C3).
    { intros n s. destruct (decide (node = n)) as [->|Hne].
      - rewrite lookup_insert_eq. intros [= <-]. split; [exact Hself|].
        intros m Hm. destruct (Hsub m Hm) as [->|K]; [|now right].
        left. apply Hns. now left.
      - rewrite lookup_insert_ne by exact Hne. apply Hacc. }
    { intros n Hn. apply Hns. now right. }
    split; [|split; [|exact C3]].
    + intros n [<-|Hn]; [|now apply C1].
      apply C2. rewrite lookup_insert_eq. eauto.
    + intros n Hn. apply C2. destruct (decide (node = n)) as [->|Hne].
      * rewrite lookup_insert_eq. eauto.
      * rewrite lookup_insert_ne by exact Hne. exact Hn.
Qed.

End SearchAnyGraph.

Section CoverageTheorem.
Context {float : Type} {F : PyFloat float} {L : PyFloatLaws F}.

(** C5. For every graph and every radius (so for every radius [>= 0]):
    a coverage map that [compute_coverage] returns has, for each node of
    the graph, a set that contains the node itself.  The computation
    never runs out of the fuel of the model, and it does return whenever
    the adjacency lists name nodes of the graph and no edge cost is
    negative; with a negative cost networkx may raise instead. *)
Theorem compute_coverage_contains_self (G : Graph float) (radius : float) :
  (forall coverage,
     compute_coverage G radius = Return coverage ->
     forall node, In node (nodes G) ->
       exists s, coverage !! node = Some s /\ node ∈ s)
  /\ compute_coverage G radius <> OutOfFuel
  /\ (closed G -> nonneg_costs G ->
      exists coverage, compute_coverage G radius = Return coverage).
Proof.
  unfold compute_coverage.
  destruct (compute_coverage_from_result G radius radius (nodes G) ∅)
    as [Hno Hres].
  split; [|split; [exact Hno|]].
  - intros coverage Hc node Hnode.
    destruct (Hres coverage Hc) as (C1 & _ & C3).
    + intros n s H. rewrite lookup_empty in H. discriminate.
    + auto.
    + destruct (C1 node Hnode) as [s Hs]. exists s.
      split; [exact Hs|]. apply (C3 node s Hs).
  - intros Hc Hn.
    destruct (compute_coverage_returns G radius Hc Hn) as (cov & E & _).
    exists cov. exact E.
Qed.

End CoverageTheorem.

(** ** The greedy loop ends with everything covered *)

Lemma best_candidate_returns (coverage : gmap Z (gset Z))
    (st : greedy_state) :
  forall ns bn bg,
  (forall n, In n ns -> is_Some (coverage !! n)) ->
  exists bn' bg', best_candidate coverage st ns bn bg = Return (bn', bg').
Proof.
  induction ns as [|node ns IH]; intros bn bg Hcov; simpl; [eauto|].
  assert (Hrest : forall n, In n ns -> is_Some (coverage !! n)).
  { intros n Hn. apply Hcov. now right. }
  destruct (decide (node ∈ selected st)); [now apply IH|].
  destruct (Hcov node (or_introl eq_refl)) as [cn ->]. simpl.
  destruct (bg <? gain cn (covered st)); now apply IH.
Qed.

Section GreedyCovers.
Variable coverage : gmap Z (gset Z).
Variable ns : list Z.

(** Every node has a coverage set, which contains the node and only
    nodes. *)
Hypothesis coverage_ok :
  forall n, In n ns ->
    exists s, coverage !! n = Some s /\ n ∈ s
              /\ s ⊆ (list_to_set ns : gset Z).

Lemma greedy_step_picks_while_uncovered (st : greedy_state) :
  selected st ⊆ covered st ->
  covered st ⊆ list_to_set ns ->
  covered st <> list_to_set ns ->
  exists b cb,
    greedy_step coverage ns (list_to_set ns) st
    = Return (Picked b (mk_greedy_state ({[b]} ∪ selected st)
                          (covered st ∪ cb)))
    /\ In b ns /\ (b ∉ selected st) /\ coverage !! b = Some cb /\ b ∈ cb
    /\ cb ⊆ (list_to_set ns : gset Z).
Proof.
  intros Hsc Hcn Hne. unfold greedy_step.
  destruct (decide (covered st = list_to_set ns)) as [|_]; [contradiction|].
  assert (Hu : exists u, In u ns /\ u ∉ covered st).
  { destruct (decide ((list_to_set ns : gset Z) ∖ covered st = ∅)) as [He|He].
    - exfalso. apply Hne. apply set_eq. intros x. split; [apply Hcn|].
      intros Hx. destruct (decide (x ∈ covered st)) as [|Hn]; [assumption|].
      exfalso. apply (not_elem_of_empty (C := gset Z) x). rewrite <- He.
      apply elem_of_difference. split; assumption.
    - apply set_choose_L in He. destruct He as [u Hu].
      apply elem_of_difference in Hu. destruct Hu as [Hu1 Hu2].
      exists u. split; [|exact Hu2].
      apply list_elem_of_In. apply elem_of_list_to_set in Hu1. exact Hu1. }
  destruct Hu as (u & Hu & Hunc).
  destruct (best_candidate_returns coverage st ns None (-1)) as (bn & bg & E).
  { intros n Hn. destruct (coverage_ok n Hn) as (s & -> & _). eauto. }
  rewrite E. simpl.
  apply best_candidate_spec in E.
  destruct E as (_ & Hall & [[-> ->]|(b & l1 & l2 & Hns & -> & Hbs & _)]).
  - exfalso.
    assert (Hus : u ∉ selected st) by (intros Hx; apply Hunc, Hsc, Hx).
    specialize (Hall u Hu Hus).
    pose proof (gain_nonneg (default ∅ (coverage !! u)) (covered st)).
    unfold node_gain in Hall. lia.
  - assert (Hb : In b ns).
    { rewrite Hns. apply in_or_app. right. now left. }
    destruct (coverage_ok b Hb) as (cb & Hcb & Hself & Hsub).
    rewrite Hcb. simpl. exists b, cb. repeat split; assumption.
Qed.

Lemma greedy_loop_covers (fuel : nat) :
  forall st picked,
  selected st ⊆ covered st ->
  covered st ⊆ list_to_set ns ->
  selected st ⊆ list_to_set ns ->
  (size ((list_to_set ns : gset Z) ∖ selected st) < fuel)%nat ->
  exists r,
    greedy_loop fuel coverage ns (list_to_set ns) st picked = Return r
    /\ how r = AllCovered
    /\ covered (final r) = list_to_set ns.
Proof.
  induction fuel as [|fuel IH]; intros st picked Hsc Hcn Hsn Hfuel; [lia|].
  simpl.
  destruct (decide (covered st = list_to_set ns)) as [Heq|Hne].
  - unfold greedy_step.
    destruct (decide (covered st = list_to_set ns)); [|contradiction].
    simpl. eexists. repeat split. exact Heq.
  - destruct (greedy_step_picks_while_uncovered st Hsc Hcn Hne)
      as (b & cb & E & Hb & Hbs & Hcb & Hself & Hsub).
    rewrite E. simpl.
    apply IH; simpl.
    + set_solver.
    + set_solver.
    + assert (b ∈ (list_to_set ns : gset Z)).
      { apply elem_of_list_to_set, list_elem_of_In, Hb. }
      set_solver.
    + assert (Hlt : (list_to_set ns : gset Z) ∖ ({[b]} ∪ selected st)
                    ⊂ (list_to_set ns : gset Z) ∖ selected st).
      { split; [set_solver|].
        intros Hsub'. specialize (Hsub' b).
        assert (b ∈ (list_to_set ns : gset Z)).
        { apply elem_of_list_to_set, list_elem_of_In, Hb. }
        set_solver. }
      apply subset_size in Hlt. lia.
Qed.

Lemma greedy_select_covers :
  exists r,
    greedy_select coverage ns = Return r
    /\ (length (picks r) <= length ns)%nat
    /\ how r = AllCovered
    /\ covered (final r) = list_to_set ns.
Proof.
  unfold greedy_select.
  destruct (greedy_loop_covers (S (length ns)) (mk_greedy_state ∅ ∅) [])
    as (r & E & Hhow & Hcov); simpl.
  - set_solver.
  - set_solver.
  - set_solver.
  - assert (size ((list_to_set ns : gset Z) ∖ ∅) <= length ns)%nat; [|lia].
    rewrite difference_empty_L.
    change (size (list_to_set ns : gset Z))
      with (length (elements (list_to_set ns : gset Z))).
    apply NoDup_incl_length.
    + apply NoDup_ListNoDup, NoDup_elements.
    + intros x Hx. apply list_elem_of_In in Hx. apply elem_of_elements in Hx.
      apply elem_of_list_to_set in Hx. apply list_elem_of_In. exact Hx.
  - exists r. split; [exact E|]. split; [|split; assumption].
    apply greedy_loop_picks in E; [|apply NoDup_nil_2|reflexivity].
    destruct E as (Hnd & _ & _ & Hin).
    apply NoDup_incl_length.
    + apply NoDup_ListNoDup. exact Hnd.
    + intros x Hx. destruct (Hin x Hx) as [[]|H]. exact H.
Qed.

End GreedyCovers.

Section SelectionFacts.
Context {float : Type} {F : PyFloat float} {L : PyFloatLaws F}.

Lemma nodes_annotate (G : Graph float) : nodes (annotate_travel_time G) = nodes G.
Proof.
  unfold nodes, annotate_travel_time. rewrite map_map.
  apply map_ext. intros [n nbrs]. reflexivity.
Qed.

Lemma In_annotate (G : Graph float) (n : Z) (nbrs : adjacency float) (m : Z)
    (e : edge_data float) :
  In (n, nbrs) (annotate_travel_time G) -> In (m, e) nbrs ->
  exists nbrs0 e0,
    In (n, nbrs0) G /\ In (m, e0) nbrs0
    /\ e = mk_edge_data (weight e0) (required e0) (Some (weight e0)).
Proof.
  unfold annotate_travel_time. intros H1 H2.
  apply in_map_iff in H1. destruct H1 as ([n0 nbrs0] & [= -> <-] & H1).
  apply in_map_iff in H2. destruct H2 as ([m0 e0] & [= -> <-] & H2).
  exists nbrs0, e0. repeat split; assumption.
Qed.

Lemma closed_annotate (G : Graph float) : closed G -> closed (annotate_travel_time G).
Proof.
  intros Hc n nbrs m e H1 H2. rewrite nodes_annotate.
  destruct (In_annotate _ _ _ _ _ H1 H2) as (nbrs0 & e0 & H3 & H4 & _).
  eapply Hc; eassumption.
Qed.

Lemma nonneg_annotate (G : Graph float) :
  nonneg_weights G -> nonneg_costs (annotate_travel_time G).
Proof.
  intros Hw n nbrs m e H1 H2.
  destruct (In_annotate _ _ _ _ _ H1 H2) as (nbrs0 & e0 & H3 & H4 & ->).
  unfold edge_cost. simpl. eapply Hw; eassumption.
Qed.

(** The body the two selection functions share, after the radius is
    computed. *)
Lemma selection_outcome (G : Graph float) (radius : float) :
  closed G ->
  (forall r,
     (coverage ← compute_coverage (annotate_travel_time G) radius;
      greedy_select coverage (nodes (annotate_travel_time G))) = Return r ->
     (length (picks r) <= number_of_nodes G)%nat
     /\ how r = AllCovered
     /\ covered (final r) = list_to_set (nodes G))
  /\ (coverage ← compute_coverage (annotate_travel_time G) radius;
      greedy_select coverage (nodes (annotate_travel_time G))) <> OutOfFuel
  /\ (nonneg_weights G ->
      exists r,
        (coverage ← compute_coverage (annotate_travel_time G) radius;
         greedy_select coverage (nodes (annotate_travel_time G)))
        = Return r).
Proof.
  intros Hc. pose proof (closed_annotate G Hc) as Hc'.
  unfold compute_coverage.
  destruct (compute_coverage_from_result (annotate_travel_time G) radius
              radius (nodes (annotate_travel_time G)) ∅) as [Hno Hres].
  destruct (compute_coverage_from (annotate_travel_time G) radius
              (nodes (annotate_travel_time G)) ∅) as [cov|e|] eqn:E;
    [|simpl|congruence].
  - destruct (Hres cov eq_refl) as (C1 & _ & C3).
    { intros n s H. rewrite lookup_empty in H. discriminate. }
    { auto. }
    destruct (greedy_select_covers cov (nodes (annotate_travel_time G)))
      as (r' & Er & Hlen & Hhow & Hcov).
    { intros n Hn. destruct (C1 n Hn) as [s Hs].
      destruct (C3 n s Hs) as [Hself Hsub].
      exists s. repeat split; try assumption.
      intros m Hm. apply elem_of_list_to_set, list_elem_of_In.
      destruct (Hsub m Hm) as [K|(k & nbrs & d & K1 & K2)]; [exact K|].
      eapply Hc'; eassumption. }
    simpl. rewrite Er. rewrite nodes_annotate in Hlen, Hcov.
    unfold number_of_nodes. unfold nodes in Hlen.
    rewrite length_map in Hlen.
    split; [|split; [discriminate|eauto]].
    intros r [= <-]. repeat split; assumption.
  - split; [discriminate|]. split; [discriminate|].
    intros Hw. exfalso.
    destruct (compute_coverage_returns (annotate_travel_time G) radius
                Hc' (nonneg_annotate G Hw)) as (cov & E' & _).
    unfold compute_coverage in E'. congruence.
Qed.

(** [select_depots_with_factor] divides before it selects: the division
    raises, or the function goes on as [select_depots] does with the
    radius [battery_capacity / factor]. *)
Lemma select_depots_with_factor_run_cases (G : Graph float)
    (battery_capacity : float) (factor : Z) :
  (int_fits_float factor = false
   /\ select_depots_with_factor_run G battery_capacity factor
      = Raise OverflowError)
  \/ (factor = 0
      /\ select_depots_with_factor_run G battery_capacity factor
         = Raise ZeroDivisionError)
  \/ (int_fits_float factor = true /\ factor <> 0
      /\ select_depots_with_factor_run G battery_capacity factor
         = (coverage ← compute_coverage (annotate_travel_time G)
                         (fdiv battery_capacity (float_of_Z factor));
            greedy_select coverage (nodes (annotate_travel_time G)))).
Proof.
  unfold select_depots_with_factor_run, truediv_int.
  destruct (int_fits_float factor) eqn:Ef; simpl.
  - destruct (Z.eqb_spec factor 0) as [->|Hne]; simpl.
    + right. left. split; reflexivity.
    + right. right. repeat split; assumption.
  - left. split; reflexivity.
Qed.

Lemma select_depots_with_factor_run_Return (G : Graph float)
    (battery_capacity : float) (factor : Z) (r : greedy_run) :
  select_depots_with_factor_run G battery_capacity factor = Return r ->
  (coverage ← compute_coverage (annotate_travel_time G)
                (fdiv battery_capacity (float_of_Z factor));
   greedy_select coverage (nodes (annotate_travel_time G))) = Return r.
Proof.
  intros H.
  destruct (select_depots_with_factor_run_cases G battery_capacity factor)
    as [[_ E]|[[_ E]|(_ & _ & E)]]; rewrite E in H;
    [discriminate H|discriminate H|exact H].
Qed.

(** C10. For every graph whose adjacency lists name nodes of the graph
    and for every battery capacity (hence every radius, negative ones
    included), in [select_depots] and in [select_depots_with_factor]:
    whenever the selection returns, its loop has ended after at most as
    many turns as the graph has nodes, it has ended because the covered
    set equals the node set, and it has not left through the
    [best_node is None] branch; the selection never runs out of the fuel
    of the model; and it does return whenever no weight is negative
    (with a negative weight networkx may raise before the loop starts)
    and, in [select_depots_with_factor], the factor is an integer other
    than 0 that converts to a float: at factor 0 the division
    [battery_capacity / factor] raises ZeroDivisionError before the loop
    is reached. *)
Theorem greedy_selection_terminates_covering (G : Graph float)
    (battery_capacity : float) (factor : Z) :
  closed G ->
  ((forall r,
      select_depots_run G battery_capacity = Return r ->
      (length (picks r) <= number_of_nodes G)%nat
      /\ how r = AllCovered
      /\ covered (final r) = list_to_set (nodes G))
   /\ select_depots_run G battery_capacity <> OutOfFuel
   /\ (nonneg_weights G ->
       exists r, select_depots_run G battery_capacity = Return r))
  /\ ((forall r,
         select_depots_with_factor_run G battery_capacity factor = Return r ->
         (length (picks r) <= number_of_nodes G)%nat
         /\ how r = AllCovered
         /\ covered (final r) = list_to_set (nodes G))
      /\ select_depots_with_factor_run G battery_capacity factor <> OutOfFuel
      /\ (nonneg_weights G ->
          factor <> 0 ->
          int_fits_float factor = true ->
          exists r,
            select_depots_with_factor_run G battery_capacity factor
            = Return r)
      /\ (factor = 0 ->
          select_depots_with_factor_run G battery_capacity factor
          = Raise ZeroDivisionError)).
Proof.
  intros Hc. split.
  - apply (selection_outcome G _ Hc).
  - destruct (selection_outcome G
                (fdiv battery_capacity (float_of_Z factor)) Hc)
      as (H1 & H2 & H3).
    destruct (select_depots_with_factor_run_cases G battery_capacity factor)
      as [[Ef E]|[[E0 E]|(Ef & Hne & E)]]; rewrite E.
    + repeat split; try discriminate.
      * intros _ _ Ef'. congruence.
      * intros ->. vm_compute in Ef. discriminate Ef.
    + repeat split; try discriminate. intros _ Hne. contradiction.
    + split; [exact H1|]. split; [exact H2|]. split.
      * intros Hw _ _. exact (H3 Hw).
      * intros E0. contradiction.
Qed.

End SelectionFacts.

(** ** What [add_node] and [add_edge] put into a graph *)

Section GraphFacts.
Context {float : Type} {F : PyFloat float}.

Lemma In_assoc_set {A : Type} (k : Z) (a : A) (l : list (Z * A))
    (k' : Z) (a' : A) :
  In (k', a') (assoc_set k a l) -> (k' = k /\ a' = a) \/ In (k', a') l.
Proof.
  induction l as [|[k0 a0] l IH]; simpl.
  - intros [[= <- <-]|[]]. now left.
  - destruct (Z.eqb_spec k k0) as [->|Hne]; simpl.
    + intros [[= <- <-]|H]; [now left|right; now right].
    + intros [H|H]; [right; now left|].
      destruct (IH H) as [H'|H']; [now left|right; now right].
Qed.

Lemma keys_assoc_set {A : Type} (k : Z) (a : A) (l : list (Z * A)) (x : Z) :
  In x (map fst (assoc_set k a l)) <-> x = k \/ In x (map fst l).
Proof.
  induction l as [|[k0 a0] l IH]; simpl.
  - intuition.
  - destruct (Z.eqb_spec k k0) as [->|Hne]; simpl.
    + intuition.
    + rewrite IH. intuition.
Qed.

Lemma nodes_add_node (n : Z) (G : Graph float) (x : Z) :
  In x (nodes (add_node n G)) <-> x = n \/ In x (nodes G).
Proof.
  unfold add_node, nodes.
  destruct (assoc_mem n G) eqn:E.
  - apply assoc_mem_In in E. split; [now right|].
    intros [->|H]; assumption.
  - rewrite map_app, in_app_iff. simpl. intuition.
Qed.

Lemma arc_add_node (n : Z) (G : Graph float) (x y : Z) :
  has_arc (add_node n G) x y -> has_arc G x y.
Proof.
  unfold add_node. destruct (assoc_mem n G); [trivial|].
  intros (nbrs & e & H1 & H2). apply in_app_or in H1.
  destruct H1 as [H1|[[= <- <-]|[]]]; [|destruct H2].
  exists nbrs, e. split; assumption.
Qed.

Lemma nodes_add_nodes_from (ns : list Z) :
  forall (G : Graph float) (x : Z),
  In x (nodes (add_nodes_from ns G)) <-> In x ns \/ In x (nodes G).
Proof.
  unfold add_nodes_from.
  induction ns as [|n ns IH]; intros G x; simpl; [intuition|].
  rewrite IH, nodes_add_node. intuition.
Qed.

Lemma arc_add_nodes_from (ns : list Z) :
  forall (G : Graph float) (x y : Z),
  has_arc (add_nodes_from ns G) x y -> has_arc G x y.
Proof.
  unfold add_nodes_from.
  induction ns as [|n ns IH]; intros G x y; simpl; [trivial|].
  intros H. apply IH in H. now apply arc_add_node in H.
Qed.

Lemma arc_set_adjacency (G : Graph float) (k k2 : Z) (d : edge_data float) (x y : Z) :
  has_arc (assoc_set k (assoc_set k2 d (default [] (assoc_get k G))) G) x y ->
  (x = k /\ y = k2) \/ has_arc G x y.
Proof.
  intros (nbrs & e & H1 & H2). apply In_assoc_set in H1.
  destruct H1 as [[-> ->]|H1].
  - apply In_assoc_set in H2. destruct H2 as [[-> _]|H2]; [now left|].
    right. destruct (assoc_get k G) as [adj|] eqn:Hget; [|destruct H2].
    apply assoc_get_In in Hget. exists adj, e. split; assumption.
  - right. exists nbrs, e. split; assumption.
Qed.

Lemma arc_add_edge (u v : Z) (w : float) (r : bool) (G : Graph float) (x y : Z) :
  has_arc (add_edge u v w r G) x y ->
  (x = u /\ y = v) \/ (x = v /\ y = u) \/ has_arc G x y.
Proof.
  unfold add_edge. intros H.
  apply arc_set_adjacency in H. destruct H as [H|H]; [right; now left|].
  apply arc_set_adjacency in H. destruct H as [H|H]; [now left|].
  right. right. now apply arc_add_node, arc_add_node in H.
Qed.

Lemma nodes_add_edge (u v : Z) (w : float) (r : bool) (G : Graph float) (x : Z) :
  In x (nodes (add_edge u v w r G)) <-> x = u \/ x = v \/ In x (nodes G).
Proof.
  unfold add_edge, nodes.
  rewrite !keys_assoc_set.
  fold (nodes (add_node v (add_node u G))).
  rewrite !nodes_add_node. unfold nodes. intuition.
Qed.

End GraphFacts.

(** ** What one line does to the graph *)

Section ParserGraph.
Context {float : Type} {F : PyFloat float}.
Variable extract_weight : string -> float * list string.

Lemma parse_line_graph (st st' : parse_state float) (raw : string) :
  parse_line extract_weight st raw = Return st' ->
  st_G st' = st_G st
  \/ (exists n, vertices_field raw = Return n
                /\ st_G st' = add_nodes_from (range 1 (n + 1)) (st_G st))
  \/ (exists u v w r,
        edge_line_endpoints raw = Return (u, v)
        /\ in_edge_section (st_current_section st) = true
        /\ st_G st' = add_edge u v w r (st_G st)).
Proof.
  unfold parse_line, vertices_field, edge_line_endpoints. intros H.
  repeat match type of H with
  | (if ?b then _ else _) = _ => destruct b eqn:?
  end; try (injection H as <-; now left).
  - inv_bind H. injection H as <-. right. left. exists a0. simpl.
    split; [|reflexivity]. rewrite Ha. simpl. exact Ha0.
  - inv_bind H. injection H as <-. now left.
  - inv_bind H. injection H as <-. now left.
  - unfold parse_edge_line in H.
    destruct (PyStr.split_max ") " 1 (PyStr.strip raw)) as [|u_v [|rest [|? ?]]];
      try discriminate.
    inv_bind H. destruct a as [u v]. destruct (extract_weight rest) as [w pr].
    injection H as <-. right. right. simpl.
    exists u, v, w. eexists. split; [exact Ha|]. split; reflexivity.
Qed.

Lemma range_bounds (lo hi x : Z) : In x (range lo hi) -> lo <= x < hi.
Proof.
  unfold range. intros H. apply in_map_iff in H.
  destruct H as (i & <- & Hi). apply in_seq in Hi. lia.
Qed.

(** Every graph built by the loop over the lines names only its own nodes
    in its adjacency lists. *)
Lemma parse_lines_closed (lines : list string) :
  forall st st',
  parse_lines extract_weight st lines = Return st' ->
  (forall x y, has_arc (st_G st) x y -> In y (nodes (st_G st))) ->
  forall x y, has_arc (st_G st') x y -> In y (nodes (st_G st')).
Proof.
  induction lines as [|raw lines IH]; intros st st' H Hc; simpl in H.
  - injection H as <-. exact Hc.
  - inv_bind H. apply (IH _ _ H). clear IH H.
    apply parse_line_graph in Ha.
    destruct Ha as [->|[(n & _ & ->)|(u & v & w & r & _ & _ & ->)]].
    + exact Hc.
    + intros x y Hxy. apply arc_add_nodes_from in Hxy.
      apply nodes_add_nodes_from. right. eapply Hc, Hxy.
    + intros x y Hxy. apply nodes_add_edge. apply arc_add_edge in Hxy.
      destruct Hxy as [[_ ->]|[[_ ->]|Hxy]]; [tauto|tauto|].
      right. right. eapply Hc, Hxy.
Qed.

Lemma parse_text_file_closed (lines : list string) (G : Graph float)
    (ds : list Z) (c : float) :
  parse_text_file extract_weight lines = Return (G, ds, c) -> closed G.
Proof.
  unfold parse_text_file. intros H. inv_bind H.
  destruct (st_battery_capacity a); [|discriminate].
  injection H as <- <- <-.
  intros n nbrs m e H1 H2.
  apply (parse_lines_closed _ _ _ Ha) with (x := n).
  - intros x y (? & ? & [] & _).
  - exists nbrs, e. split; assumption.
Qed.

Lemma parse_lines_range (N : Z) (lines : list string) :
  (forall raw n, In raw lines -> vertices_field raw = Return n -> n <= N) ->
  (forall raw u v, In raw lines -> edge_line_endpoints raw = Return (u, v) ->
     1 <= u <= N /\ 1 <= v <= N /\ u <> v) ->
  forall st st',
  parse_lines extract_weight st lines = Return st' ->
  (forall x, In x (nodes (st_G st)) -> 1 <= x <= N) ->
  (forall x y, has_arc (st_G st) x y -> x <> y) ->
  (forall x, In x (nodes (st_G st')) -> 1 <= x <= N)
  /\ (forall x y, has_arc (st_G st') x y -> x <> y).
Proof.
  induction lines as [|raw lines IH]; intros Hv He st st' H Hn Ha; simpl in H.
  - injection H as <-. split; assumption.
  - inv_bind H.
    apply (IH (fun r n Hr => Hv r n (or_intror Hr))
              (fun r u v Hr => He r u v (or_intror Hr)) _ _ H); clear IH H.
    + apply parse_line_graph in Ha0.
      destruct Ha0 as [->|[(n & Hf & ->)|(u & v & w & r & Hf & _ & ->)]].
      * exact Hn.
      * intros x Hx. apply nodes_add_nodes_from in Hx.
        destruct Hx as [Hx|Hx]; [|now apply Hn].
        apply range_bounds in Hx.
        specialize (Hv raw n (or_introl eq_refl) Hf). lia.
      * intros x Hx. apply nodes_add_edge in Hx.
        specialize (He raw u v (or_introl eq_refl) Hf).
        destruct Hx as [->|[->|Hx]]; [tauto|tauto|now apply Hn].
    + apply parse_line_graph in Ha0.
      destruct Ha0 as [->|[(n & Hf & ->)|(u & v & w & r & Hf & _ & ->)]].
      * exact Ha.
      * intros x y Hxy. apply arc_add_nodes_from in Hxy. now apply Ha.
      * intros x y Hxy. apply arc_add_edge in Hxy.
        specialize (He raw u v (or_introl eq_refl) Hf).
        destruct Hxy as [[-> ->]|[[-> ->]|Hxy]]; [tauto| |now apply Ha].
        intros ->. tauto.
Qed.

(** C9 (as amended). The parser checks neither endpoints nor loops: the
    nodes of the graph are the declared ranges [1..n] and the endpoints
    written on the edge lines.  So when every [NUMBER OF VERTICES] line
    declares at most [N] and every line that reads as an edge line
    [(u,v) ...] has [1 <= u, v <= N] and [u <> v], an accepted input
    gives a graph whose nodes and edge endpoints all lie in [1..N] and
    that has no self-loop. *)
Theorem parsed_graph_in_range_when_lines_are (lines : list string) (N : Z)
    (G : Graph float) (ds : list Z) (c : float) :
  (forall raw n, In raw lines -> vertices_field raw = Return n -> n <= N) ->
  (forall raw u v, In raw lines -> edge_line_endpoints raw = Return (u, v) ->
     1 <= u <= N /\ 1 <= v <= N /\ u <> v) ->
  parse_text_file extract_weight lines = Return (G, ds, c) ->
  (forall x, In x (nodes G) -> 1 <= x <= N)
  /\ (forall u v d, In (u, v, d) (edges G) ->
        1 <= u <= N /\ 1 <= v <= N /\ u <> v)
  /\ (forall n nbrs m e, In (n, nbrs) G -> In (m, e) nbrs ->
        1 <= n <= N /\ 1 <= m <= N /\ n <> m).
Proof.
  intros Hv He H. unfold parse_text_file in H. inv_bind H.
  destruct (st_battery_capacity a); [|discriminate].
  injection H as <- <- <-.
  destruct (parse_lines_range N lines Hv He _ _ Ha) as [Hn Hl].
  - intros x [].
  - intros x y (? & ? & [] & _).
  - assert (Hc : forall x y, has_arc (st_G a) x y -> In y (nodes (st_G a))).
    { apply (parse_lines_closed _ _ _ Ha). intros x y (? & ? & [] & _). }
    assert (Harcs : forall n nbrs m e,
              In (n, nbrs) (st_G a) -> In (m, e) nbrs ->
              1 <= n <= N /\ 1 <= m <= N /\ n <> m).
    { intros n nbrs m e H1 H2.
      assert (Harc : has_arc (st_G a) n m) by (exists nbrs, e; tauto).
      split; [|split].
      - apply Hn. unfold nodes. apply in_map_iff. exists (n, nbrs). tauto.
      - apply Hn. apply (Hc n m Harc).
      - apply Hl. exact Harc. }
    split; [exact Hn|]. split; [|exact Harcs].
    intros u v d Hin. unfold edges in Hin.
    assert (Hgo : forall seen H,
              In (u, v, d) (edges_go seen H) ->
              exists nbrs, In (u, nbrs) H /\ In (v, d) nbrs).
    { intros seen H. revert seen.
      induction H as [|[n nbrs] H IH]; intros seen Hx; simpl in Hx;
        [destruct Hx|].
      apply in_app_or in Hx. destruct Hx as [Hx|Hx].
      - apply in_map_iff in Hx. destruct Hx as ([m d'] & [= -> -> ->] & Hx).
        apply filter_In in Hx. exists nbrs. split; [now left|tauto].
      - destruct (IH _ Hx) as (nb & H1 & H2). exists nb. split; [now right|assumption]. }
    destruct (Hgo _ _ Hin) as (nbrs & H1 & H2).
    eapply Harcs; eassumption.
Qed.

End ParserGraph.

(** ** Splitting at the first occurrence of a token *)

Module SplitFacts.
Import PyStr.

Lemma append_String (c : ascii) (s t : string) :
  (String c s ++ t)%string = String c (s ++ t)%string.
Proof. reflexivity. Qed.

Lemma append_empty (t : string) : (EmptyString ++ t)%string = t.
Proof. reflexivity. Qed.

Lemma split_go_skip (sep : string) (limit : option nat) (t post : string) :
  split_go sep limit (String.length t) (t ++ post)%string
  = split_go sep limit 0 post.
Proof.
  induction t as [|c t IH].
  - rewrite append_empty. reflexivity.
  - rewrite append_String. exact IH.
Qed.

Lemma split_go_limit_0 (sep s : string) : split_go sep (Some 0%nat) 0 s = [s].
Proof. destruct s; reflexivity. Qed.

Lemma prefix_empty (tok : string) :
  tok <> EmptyString -> String.prefix tok EmptyString = false.
Proof. destruct tok; [congruence|reflexivity]. Qed.

(** When [tok] occurs in [s]: [s] is [pre ++ tok ++ post] with [pre] the
    shortest possible, [split] starts with [pre] and goes on splitting
    [post], and [split] with [maxsplit = 1] is [[pre; post]]. *)
Lemma split_first (c0 : ascii) (tok' : string) (s : string) :
  let tok := String c0 tok' in
  contains tok s = true ->
  exists pre post,
    s = (pre ++ tok ++ post)%string
    /\ (forall pre' post', s = (pre' ++ tok ++ post')%string ->
          (String.length pre <= String.length pre')%nat)
    /\ split tok s = pre :: split tok post
    /\ split_max tok 1 s = [pre; post].
Proof.
  intros tok. unfold split, split_max.
  induction s as [|c s IH]; intros H.
  - simpl in H. discriminate.
  - destruct (String.prefix tok (String c s)) eqn:P.
    + pose proof P as P'. apply prefix_inv in P'. destruct P' as [post Hpost].
      exists EmptyString, post. split; [exact Hpost|]. split; [simpl; lia|].
      assert (Hs : s = (tok' ++ post)%string).
      { unfold tok in Hpost.
        change (String c s = String c0 (tok' ++ post)%string) in Hpost.
        congruence. }
      split.
      * cbn [split_go]. rewrite P.
        replace (String.length tok - 1)%nat with (String.length tok')
          by (unfold tok; simpl; lia).
        rewrite Hs, split_go_skip. reflexivity.
      * cbn [split_go]. rewrite P. cbn [option_map Nat.pred].
        replace (String.length tok - 1)%nat with (String.length tok')
          by (unfold tok; simpl; lia).
        rewrite Hs, split_go_skip, split_go_limit_0. reflexivity.
    + assert (Hc : contains tok s = true).
      { simpl in H. unfold tok in P. simpl in P. rewrite P in H.
        exact H. }
      destruct (IH Hc) as (pre & post & Hs & Hmin & E1 & E2).
      exists (String c pre), post.
      split; [rewrite append_String; congruence|]. split.
      * intros pre' post' Heq. destruct pre' as [|c' pre'].
        -- exfalso. rewrite append_empty in Heq. rewrite Heq in P.
           rewrite prefix_app in P. discriminate.
        -- rewrite append_String in Heq. injection Heq as _ Heq.
           specialize (Hmin pre' post' Heq). simpl. lia.
      * split.
        -- cbn [split_go]. rewrite P, E1. reflexivity.
        -- cbn [split_go]. rewrite P, E2. reflexivity.
Qed.

End SplitFacts.

(** ** Weight extraction *)

Section ExtractWeightFacts.
Context {float : Type} {F : PyFloat float} {L : PyFloatLaws F}.

Lemma float_or_one_Some (s : string) (x : float) :
  float_of_string s = Some x -> float_or_one s = x.
Proof. unfold float_or_one. now intros ->. Qed.

Lemma float_or_one_None (s : string) :
  float_of_string s = None -> float_or_one s = float_of_Z 1.
Proof. unfold float_or_one. now intros ->. Qed.

Lemma float_or_one_default : float_or_one "1.0" = float_of_Z 1.
Proof. apply float_or_one_Some. apply float_one_literal. Qed.

(** C7 (as amended). The token looked for first is ["edge weight"] (a
    bare ["weight"] is not recognised), then ["cost"].  With [text] split
    at the first occurrence of the token found, the weight is read from
    the stripped text after it -- up to the next occurrence of the token
    in balanced_failure_scenarios.py and
    visualize_with_depot_placement.py, up to the end of the stripped
    annotation in updated_failure_scenarios.py -- and is [1.0], with nothing
    printed, when that text is not a number.  When neither token occurs
    the weight is [1.0]; only balanced_failure_scenarios.py prints a
    warning then, the other two print nothing. *)
Theorem extract_weight_tokens (text : string) :
  (forall s x, float_of_string s = Some x -> float_or_one s = x)
  /\ (forall s, float_of_string s = None -> float_or_one s = float_of_Z 1)
  /\ (PyStr.contains "edge weight" text = true ->
      exists pre post,
        text = (pre ++ "edge weight" ++ post)%string
        /\ (forall pre' post',
              text = (pre' ++ "edge weight" ++ post')%string ->
              (String.length pre <= String.length pre')%nat)
        /\ extract_weight_balanced text
           = (float_or_one (PyStr.strip (upto_next "edge weight" post)), [])
        /\ extract_weight_visualize text
           = (float_or_one (PyStr.strip (upto_next "edge weight" post)), []))
  /\ (PyStr.contains "edge weight" text = false ->
      PyStr.contains "cost" text = true ->
      exists pre post,
        text = (pre ++ "cost" ++ post)%string
        /\ (forall pre' post',
              text = (pre' ++ "cost" ++ post')%string ->
              (String.length pre <= String.length pre')%nat)
        /\ extract_weight_balanced text
           = (float_or_one (PyStr.strip (upto_next "cost" post)), [])
        /\ extract_weight_visualize text
           = (float_or_one (PyStr.strip (upto_next "cost" post)), []))
  /\ (PyStr.contains "edge weight" (PyStr.strip text) = true ->
      exists pre post,
        PyStr.strip text = (pre ++ "edge weight" ++ post)%string
        /\ (forall pre' post',
              PyStr.strip text = (pre' ++ "edge weight" ++ post')%string ->
              (String.length pre <= String.length pre')%nat)
        /\ extract_weight_updated text
           = (float_or_one (PyStr.strip post), []))
  /\ (PyStr.contains "edge weight" (PyStr.strip text) = false ->
      PyStr.contains "cost" (PyStr.strip text) = true ->
      exists pre post,
        PyStr.strip text = (pre ++ "cost" ++ post)%string
        /\ (forall pre' post',
              PyStr.strip text = (pre' ++ "cost" ++ post')%string ->
              (String.length pre <= String.length pre')%nat)
        /\ extract_weight_updated text
           = (float_or_one (PyStr.strip post), []))
  /\ (PyStr.contains "edge weight" text = false ->
      PyStr.contains "cost" text = false ->
      extract_weight_balanced text = (float_of_Z 1, [warning_no_weight])
      /\ extract_weight_visualize text = (float_of_Z 1, []))
  /\ (PyStr.contains "edge weight" (PyStr.strip text) = false ->
      PyStr.contains "cost" (PyStr.strip text) = false ->
      extract_weight_updated text = (float_of_Z 1, [])).
Proof.
  split; [exact float_or_one_Some|]. split; [exact float_or_one_None|].
  repeat apply conj.
  - intros Hc.
    destruct (SplitFacts.split_first _ _ text Hc)
      as (pre & post & Hs & Hmin & E1 & _).
    exists pre, post. split; [exact Hs|]. split; [exact Hmin|].
    unfold extract_weight_balanced, extract_weight_visualize, upto_next.
    rewrite Hc, E1. simpl nth.
    destruct (PyStr.split "edge weight" post); split; reflexivity.
  - intros Hew Hc.
    destruct (SplitFacts.split_first _ _ text Hc)
      as (pre & post & Hs & Hmin & E1 & _).
    exists pre, post. split; [exact Hs|]. split; [exact Hmin|].
    unfold extract_weight_balanced, extract_weight_visualize, upto_next.
    rewrite Hew, Hc, E1. simpl nth.
    destruct (PyStr.split "cost" post); split; reflexivity.
  - intros Hc.
    destruct (SplitFacts.split_first _ _ _ Hc)
      as (pre & post & Hs & Hmin & _ & E2).
    exists pre, post. split; [exact Hs|]. split; [exact Hmin|].
    unfold extract_weight_updated. rewrite Hc, E2. reflexivity.
  - intros Hew Hc.
    destruct (SplitFacts.split_first _ _ _ Hc)
      as (pre & post & Hs & Hmin & _ & E2).
    exists pre, post. split; [exact Hs|]. split; [exact Hmin|].
    unfold extract_weight_updated. rewrite Hew, Hc, E2. reflexivity.
  - intros H1 H2. unfold extract_weight_balanced, extract_weight_visualize.
    rewrite H1, H2, float_or_one_default. split; reflexivity.
  - intros H1 H2. unfold extract_weight_updated. rewrite H1, H2.
    reflexivity.
Qed.

End ExtractWeightFacts.

(** ** Stripping, printing and reading back *)

Module StringFacts.
Import PyStr SplitFacts StrPred.

Lemma all_chars_app (p : ascii -> bool) (a b : string) :
  all_chars p (a ++ b)%string = all_chars p a && all_chars p b.
Proof.
  induction a as [|c a IH]; [reflexivity|].
  rewrite append_String. simpl. rewrite IH. apply andb_assoc.
Qed.

Lemma all_chars_impl (p q : ascii -> bool) (s : string) :
  (forall c, p c = true -> q c = true) ->
  all_chars p s = true -> all_chars q s = true.
Proof.
  intros Hpq. induction s as [|c s IH]; simpl; [trivial|].
  intros H. apply andb_true_iff in H. destruct H as [H1 H2].
  rewrite (Hpq c H1), (IH H2). reflexivity.
Qed.

Lemma lstrip_with_head (p : ascii -> bool) (c : ascii) (s : string) :
  p c = false -> lstrip_with p (String c s) = String c s.
Proof. intros H. simpl. rewrite H. reflexivity. Qed.

Lemma rstrip_with_head (p : ascii -> bool) (c : ascii) (s : string) :
  p c = false -> rstrip_with p (String c s) = String c (rstrip_with p s).
Proof. intros H. simpl. rewrite H. destruct (rstrip_with p s); reflexivity. Qed.

(** [rstrip] drops a suffix. *)
Lemma rstrip_with_prefix (p : ascii -> bool) (s : string) :
  exists t, s = (rstrip_with p s ++ t)%string.
Proof.
  induction s as [|c s [t IH]]; [exists EmptyString; reflexivity|].
  simpl. destruct (rstrip_with p s) as [|c' r] eqn:E.
  - destruct (p c).
    + exists (String c s). reflexivity.
    + exists s. reflexivity.
  - exists t. rewrite append_String. congruence.
Qed.

Lemma rstrip_with_app (p : ascii -> bool) (a b : string) :
  rstrip_with p b <> EmptyString ->
  rstrip_with p (a ++ b)%string = (a ++ rstrip_with p b)%string.
Proof.
  intros Hb. induction a as [|c a IH]; [reflexivity|].
  rewrite !append_String. simpl. rewrite IH.
  destruct (a ++ rstrip_with p b)%string eqn:E; [|reflexivity].
  exfalso. destruct a; [|discriminate]. rewrite append_empty in E.
  contradiction.
Qed.

Lemma rstrip_with_all (p : ascii -> bool) (s : string) :
  all_chars (fun c => negb (p c)) s = true -> rstrip_with p s = s.
Proof.
  induction s as [|c s IH]; simpl; [reflexivity|].
  intros H. apply andb_true_iff in H. destruct H as [H1 H2].
  apply negb_true_iff in H1. rewrite (IH H2), H1. destruct s; reflexivity.
Qed.

Lemma lstrip_with_all (p : ascii -> bool) (s : string) :
  all_chars (fun c => negb (p c)) s = true -> lstrip_with p s = s.
Proof.
  destruct s as [|c s]; simpl; [reflexivity|].
  intros H. apply andb_true_iff in H. destruct H as [H1 _].
  apply negb_true_iff in H1. rewrite H1. reflexivity.
Qed.

Lemma strip_with_all (p : ascii -> bool) (s : string) :
  all_chars (fun c => negb (p c)) s = true -> strip_with p s = s.
Proof.
  intros H. unfold strip_with. rewrite (lstrip_with_all p s H).
  apply rstrip_with_all. exact H.
Qed.

(** A string that starts with a character that is kept: stripping keeps
    that character, and whatever the stripped string starts with, the
    string started with. *)
Lemma strip_with_head (p : ascii -> bool) (c : ascii) (s : string) :
  p c = false -> exists r, strip_with p (String c s) = String c r.
Proof.
  intros H. unfold strip_with.
  rewrite (lstrip_with_head p c s H), (rstrip_with_head p c s H). eauto.
Qed.

Lemma prefix_trans_app (P a t : string) :
  String.prefix P a = true -> String.prefix P (a ++ t)%string = true.
Proof.
  intros H. apply prefix_inv in H. destruct H as [u ->].
  revert u t. induction P as [|c P IH]; intros u t.
  - rewrite append_empty. destruct (u ++ t)%string; reflexivity.
  - rewrite !append_String. simpl.
    destruct (ascii_dec c c); [apply IH|congruence].
Qed.

Lemma startswith_strip (P : string) (c : ascii) (s : string) :
  is_space c = false ->
  startswith P (strip (String c s)) = true ->
  startswith P (String c s) = true.
Proof.
  unfold startswith, strip, strip_with. intros Hc H.
  rewrite (lstrip_with_head _ c s Hc) in H.
  destruct (rstrip_with_prefix is_space (String c s)) as [t Ht].
  rewrite Ht at 1. apply prefix_trans_app. exact H.
Qed.

(** *** Decimal numerals *)

Lemma digits_of_uint (d : Decimal.uint) :
  all_chars is_digit (NilEmpty.string_of_uint d) = true.
Proof. induction d; simpl; trivial. Qed.

Lemma digits_of_uint_nonnil (d : Decimal.uint) :
  d <> Decimal.Nil ->
  NilZero.string_of_uint d = NilEmpty.string_of_uint d
  /\ NilEmpty.string_of_uint d <> EmptyString.
Proof. destruct d; simpl; intros H; split; congruence. Qed.

Lemma drop_underscores_digits (s : string) :
  all_chars is_digit s = true ->
  drop_underscores true s = Some s
  /\ (s <> EmptyString -> drop_underscores false s = Some s).
Proof.
  induction s as [|c s IH]; simpl.
  - intros _. split; [reflexivity|congruence].
  - intros H. apply andb_true_iff in H. destruct H as [Hc Hs].
    destruct (IH Hs) as [IH1 _].
    assert (Hu : Ascii.eqb c "_" = false).
    { destruct (Ascii.eqb_spec c "_") as [->|]; [discriminate|reflexivity]. }
    rewrite Hu, IH1. split; reflexivity.
Qed.

Lemma int_digits_of_uint (d : Decimal.uint) :
  d <> Decimal.Nil ->
  int_digits (NilEmpty.string_of_uint d) = Some (Z.of_uint d).
Proof.
  intros Hd. unfold int_digits.
  destruct (digits_of_uint_nonnil d Hd) as [Heq Hne].
  destruct (drop_underscores_digits _ (digits_of_uint d)) as [_ H].
  rewrite (H Hne), <- Heq, (NilZero.usu d Hd). reflexivity.
Qed.

Lemma str_numeric (z : Z) : all_chars is_numeric (str z) = true.
Proof.
  assert (Hd : forall d, all_chars is_numeric (NilZero.string_of_uint d) = true).
  { intros d. apply (all_chars_impl is_digit).
    - intros c Hc. unfold is_numeric. rewrite Hc. reflexivity.
    - destruct d; try reflexivity; apply (digits_of_uint (_ d)). }
  unfold str. destruct z as [|p|p]; simpl; [reflexivity|apply Hd|apply Hd].
Qed.

Lemma str_nonempty (z : Z) : str z <> EmptyString.
Proof.
  unfold str. destruct z as [|p|p]; simpl; try discriminate.
  pose proof (DecimalPos.Unsigned.to_uint_nonnil p) as Hp.
  destruct (Pos.to_uint p); simpl; congruence.
Qed.

Lemma numeric_not_space (c : ascii) :
  is_numeric c = true -> negb (is_space c) = true.
Proof.
  destruct c as [[|] [|] [|] [|] [|] [|] [|] [|]]; vm_compute; congruence.
Qed.

Lemma numeric_not_comma (c : ascii) :
  is_numeric c = true -> negb (Ascii.eqb c ",") = true.
Proof.
  destruct c as [[|] [|] [|] [|] [|] [|] [|] [|]]; vm_compute; congruence.
Qed.

Lemma strip_str (z : Z) : strip (str z) = str z.
Proof.
  apply strip_with_all.
  apply (all_chars_impl is_numeric); [apply numeric_not_space|].
  apply str_numeric.
Qed.

(** [int(str(z)) == z] *)
Lemma int_str (z : Z) : int (str z) = Some z.
Proof.
  unfold int. rewrite strip_str. unfold str.
  destruct z as [|p|p]; [reflexivity| |].
  - pose proof (DecimalPos.Unsigned.to_uint_nonnil p) as Hp.
    pose proof (DecimalZ.of_to (Zpos p)) as Hz. simpl in Hz.
    pose proof (int_digits_of_uint _ Hp) as Hi.
    cbn [Z.to_int NilZero.string_of_int].
    destruct (digits_of_uint_nonnil _ Hp) as [-> _].
    rewrite <- Hz, <- Hi.
    destruct (Pos.to_uint p); try congruence; reflexivity.
  - pose proof (DecimalPos.Unsigned.to_uint_nonnil p) as Hp.
    pose proof (DecimalZ.of_to (Zneg p)) as Hz. simpl in Hz.
    pose proof (int_digits_of_uint _ Hp) as Hi.
    cbn [Z.to_int NilZero.string_of_int].
    destruct (digits_of_uint_nonnil _ Hp) as [-> _].
    rewrite Hi. simpl. congruence.
Qed.

(** *** Joining with commas and splitting again *)

Lemma prefix_String (c0 c : ascii) (p s : string) :
  String.prefix (String c0 p) (String c s)
  = if Ascii.eqb c0 c then String.prefix p s else false.
Proof.
  simpl. destruct (ascii_dec c0 c) as [->|H].
  - rewrite Ascii.eqb_refl. reflexivity.
  - destruct (Ascii.eqb_spec c0 c); [contradiction|reflexivity].
Qed.

Lemma prefix_nil (s : string) : String.prefix EmptyString s = true.
Proof. destruct s; reflexivity. Qed.

Lemma split_no_comma (x : string) :
  all_chars no_comma x = true -> split "," x = [x].
Proof.
  unfold split. induction x as [|c x IH]; [reflexivity|].
  simpl all_chars. intros H. apply andb_true_iff in H. destruct H as [Hc Hx].
  cbn [split_go]. unfold no_comma in Hc. apply negb_true_iff in Hc.
  assert (P : String.prefix "," (String c x) = false).
  { rewrite prefix_String, Ascii.eqb_sym, Hc. reflexivity. }
  rewrite P, (IH Hx). reflexivity.
Qed.

Lemma split_app_comma (x rest : string) :
  all_chars no_comma x = true ->
  split "," (x ++ String "," rest)%string = x :: split "," rest.
Proof.
  unfold split. induction x as [|c x IH].
  - intros _. rewrite append_empty. cbn [split_go].
    assert (P : String.prefix "," (String "," rest) = true).
    { rewrite prefix_String, prefix_nil. reflexivity. }
    rewrite P. reflexivity.
  - simpl all_chars. intros H. apply andb_true_iff in H.
    destruct H as [Hc Hx].
    rewrite append_String. cbn [split_go].
    unfold no_comma in Hc. apply negb_true_iff in Hc.
    assert (P : String.prefix "," (String c (x ++ String "," rest)) = false).
    { rewrite prefix_String, Ascii.eqb_sym, Hc. reflexivity. }
    rewrite P, (IH Hx). reflexivity.
Qed.

Lemma split_join (l : list string) :
  l <> [] -> Forall (fun x => all_chars no_comma x = true) l ->
  split "," (join "," l) = l.
Proof.
  unfold join. induction l as [|x l IH]; [congruence|].
  intros _ H. apply Forall_cons in H. destruct H as [Hx Hl].
  destruct l as [|y l].
  - simpl. apply split_no_comma. exact Hx.
  - change (String.concat "," (x :: y :: l))
      with (x ++ String "," (String.concat "," (y :: l)))%string.
    rewrite (split_app_comma _ _ Hx), IH; [reflexivity|discriminate|exact Hl].
Qed.

Lemma all_chars_join (p : ascii -> bool) (l : list string) :
  p ","%char = true -> Forall (fun x => all_chars p x = true) l ->
  all_chars p (join "," l) = true.
Proof.
  intros Hp. unfold join. induction l as [|x l IH]; [reflexivity|].
  intros H. apply Forall_cons in H. destruct H as [Hx Hl].
  destruct l as [|y l]; [exact Hx|].
  change (String.concat "," (x :: y :: l))
    with (x ++ String "," (String.concat "," (y :: l)))%string.
  rewrite all_chars_app, Hx. cbn [all_chars]. rewrite Hp, (IH Hl).
  reflexivity.
Qed.

End StringFacts.

(** ** Writing the updated file and parsing it again *)

Module LineFacts.
Import PyStr SplitFacts StrPred StringFacts.

Lemma startswith_strip_false (P : string) (c : ascii) (s : string) :
  is_space c = false ->
  startswith P (String c s) = false ->
  startswith P (strip (String c s)) = false.
Proof.
  intros Hc H. destruct (startswith P (strip (String c s))) eqn:E;
    [|reflexivity].
  apply (startswith_strip P c s Hc) in E. congruence.
Qed.

Lemma startswith_strip_unspaced (P s : string) :
  starts_unspaced s = true ->
  startswith P s = false ->
  startswith P (strip s) = false.
Proof.
  destruct s as [|c s]; [discriminate|]. simpl. intros Hc.
  apply negb_true_iff in Hc. apply startswith_strip_false. exact Hc.
Qed.

Lemma split_go_head (sep : string) (limit : option nat) (c : ascii)
    (s : string) :
  String.prefix sep (String c s) = false ->
  exists p ps, split_go sep limit 0 (String c s) = String c p :: ps.
Proof.
  intros P. cbn [split_go]. rewrite P.
  destruct limit as [[|n]|].
  - eauto.
  - destruct (split_go sep (Some (S n)) 0 s); eauto.
  - destruct (split_go sep None 0 s); eauto.
Qed.

(** [int] refuses a string that starts with a letter. *)
Lemma int_letter_N (s : string) : int (String "N" s) = None.
Proof.
  unfold int, strip.
  destruct (strip_with_head is_space "N" s eq_refl) as [r ->].
  unfold int_digits. cbn [drop_underscores].
  change (Ascii.eqb "N" "_") with false. cbv iota.
  destruct (drop_underscores true r) as [ds|]; [|reflexivity].
  cbn [option_map]. unfold NilZero.uint_of_string.
  cbn [NilEmpty.uint_of_string].
  destruct (NilEmpty.uint_of_string ds); reflexivity.
Qed.

Lemma rstrip_app_nl (J : string) :
  all_chars (fun c => negb (is_space c)) J = true ->
  rstrip_with is_space (J ++ nl)%string = J.
Proof.
  induction J as [|c J IH]; [reflexivity|].
  simpl all_chars. intros H. apply andb_true_iff in H. destruct H as [Hc HJ].
  apply negb_true_iff in Hc.
  rewrite append_String, (rstrip_with_head _ _ _ Hc), (IH HJ). reflexivity.
Qed.

Lemma strip_space_then (J : string) :
  all_chars (fun c => negb (is_space c)) J = true ->
  strip (String " " J) = J.
Proof.
  intros H. unfold strip, strip_with. cbn [lstrip_with].
  change (is_space " ") with true. cbv iota.
  rewrite (lstrip_with_all _ _ H). apply rstrip_with_all. exact H.
Qed.

End LineFacts.

Section RoundTrip.
Context {float : Type} {F : PyFloat float}.
Variable extract_weight : string -> float * list string.

Lemma same_but_depots_refl (st : parse_state float) : same_but_depots st st.
Proof. repeat split. Qed.

Lemma same_but_depots_trans (a b c : parse_state float) :
  same_but_depots a b -> same_but_depots b c -> same_but_depots a c.
Proof.
  unfold same_but_depots. intros (H1 & H2 & H3 & H4) (K1 & K2 & K3 & K4).
  repeat split; congruence.
Qed.

(** A line does the same to two such states. *)
Lemma parse_line_same (st st' st1 : parse_state float) (raw : string) :
  same_but_depots st st' ->
  parse_line extract_weight st raw = Return st1 ->
  exists st1',
    parse_line extract_weight st' raw = Return st1'
    /\ same_but_depots st1 st1'.
Proof.
  destruct st as [G ds c sec out], st' as [G' ds' c' sec' out'].
  unfold same_but_depots. simpl. intros (<- & <- & <- & <-).
  unfold parse_line. cbn [st_G st_depots st_battery_capacity
                          st_current_section st_stdout set_section].
  repeat match goal with
  | |- (if ?b then _ else _) = _ -> _ => destruct b
  end;
    try (intros [= <-]; eexists; split; [reflexivity|]; repeat split).
  - intros H. inv_bind H. injection H as <-. rewrite Ha. simpl.
    rewrite Ha0. simpl. eexists. split; [reflexivity|]. repeat split.
  - intros H. inv_bind H. injection H as <-. rewrite Ha. simpl.
    rewrite Ha0. simpl. eexists. split; [reflexivity|]. repeat split.
  - intros H. inv_bind H. injection H as <-. rewrite Ha. simpl.
    rewrite Ha0. simpl. eexists. split; [reflexivity|]. repeat split.
  - unfold parse_edge_line.
    cbn [st_G st_depots st_battery_capacity st_current_section st_stdout].
    destruct (PyStr.split_max ") " 1 (PyStr.strip raw))
      as [|u_v [|rest [|? ?]]]; try discriminate.
    destruct (unpack_two_ints _) as [[u v]| |]; simpl; try discriminate.
    destruct (extract_weight rest) as [w pr].
    intros [= <-]. eexists. split; [reflexivity|]. repeat split.
Qed.

Lemma parse_edge_line_letter_N (st st1 : parse_state float) (s : string) :
  parse_edge_line extract_weight st (String "N" s) = Return st1 -> False.
Proof.
  unfold parse_edge_line.
  destruct (LineFacts.split_go_head ") " (Some 1%nat) "N" s eq_refl)
    as (p & ps & E).
  unfold PyStr.split_max. rewrite E.
  destruct ps as [|rest [|? ?]]; try discriminate.
  destruct (StringFacts.strip_with_head (Ascii.eqb "(") "N" p eq_refl)
    as [r Hr].
  unfold PyStr.strip_char. rewrite Hr.
  destruct (LineFacts.split_go_head "," None "N" r eq_refl) as (a & parts & E2).
  unfold PyStr.split. rewrite E2.
  unfold unpack_two_ints, py_int. rewrite LineFacts.int_letter_N.
  destruct parts as [|b [|c parts]]; discriminate.
Qed.

(** A line [update_all_instances] drops changed nothing but the depot
    list when the file was parsed. *)
Lemma dropped_line_same (st st1 : parse_state float) (raw : string) :
  keeps raw = false ->
  parse_line extract_weight st raw = Return st1 ->
  same_but_depots st st1.
Proof.
  unfold keeps. intros Hk H.
  apply andb_false_iff in Hk. rewrite !negb_false_iff in Hk.
  unfold parse_line in H. unfold PyStr.startswith in *.
  destruct Hk as [Hd|Hv].
  - expose_prefix Hd. rewrite Hd in H.
    change (negb (PyStr.nonempty ("DEPOT:" ++ t))) with false in H.
    change (String.prefix "NAME" ("DEPOT:" ++ t)) with false in H.
    change (String.prefix "NUMBER OF VERTICES" ("DEPOT:" ++ t))
      with false in H.
    change (String.prefix "VEHICLE CAPACITY" ("DEPOT:" ++ t))
      with false in H.
    change (String.prefix "LIST_REQUIRED_EDGES:" ("DEPOT:" ++ t))
      with false in H.
    change (String.prefix "LIST_NON_REQUIRED_EDGES:" ("DEPOT:" ++ t))
      with false in H.
    change (String.prefix "FAILURE_SCENARIO:" ("DEPOT:" ++ t))
      with false in H.
    rewrite prefix_app in H. cbv iota in H.
    inv_bind H. injection H as <-. repeat split.
  - expose_prefix Hv. rewrite Hv in H.
    change (negb (PyStr.nonempty ("NUMBER OF VEHICLES" ++ t)))
      with false in H.
    change (String.prefix "NAME" ("NUMBER OF VEHICLES" ++ t)) with false in H.
    change (String.prefix "NUMBER OF VERTICES" ("NUMBER OF VEHICLES" ++ t))
      with false in H.
    change (String.prefix "VEHICLE CAPACITY" ("NUMBER OF VEHICLES" ++ t))
      with false in H.
    change (String.prefix "LIST_REQUIRED_EDGES:" ("NUMBER OF VEHICLES" ++ t))
      with false in H.
    change (String.prefix "LIST_NON_REQUIRED_EDGES:"
              ("NUMBER OF VEHICLES" ++ t)) with false in H.
    change (String.prefix "FAILURE_SCENARIO:" ("NUMBER OF VEHICLES" ++ t))
      with false in H.
    change (String.prefix "DEPOT:" ("NUMBER OF VEHICLES" ++ t))
      with false in H.
    cbv iota in H.
    destruct (in_edge_section (st_current_section st)).
    + exfalso. exact (parse_edge_line_letter_N _ _ _ H).
    + injection H as <-. apply same_but_depots_refl.
Qed.

Lemma parse_lines_app (l1 l2 : list string) :
  forall st,
  parse_lines extract_weight st (l1 ++ l2)
  = (st' ← parse_lines extract_weight st l1;
     parse_lines extract_weight st' l2).
Proof.
  induction l1 as [|raw l1 IH]; intros st; simpl; [reflexivity|].
  destruct (parse_line extract_weight st raw); simpl; [apply IH| |];
    reflexivity.
Qed.

(** Parsing the kept lines gives the state parsing all lines gave, up to
    the depot list. *)
Lemma parse_kept_lines (lines : list string) :
  forall st st' st1,
  same_but_depots st st' ->
  parse_lines extract_weight st lines = Return st1 ->
  exists st1',
    parse_lines extract_weight st' (List.filter keeps lines) = Return st1'
    /\ same_but_depots st1 st1'.
Proof.
  induction lines as [|raw lines IH]; intros st st' st1 Hs H; simpl in H.
  - injection H as <-. exists st'. split; [reflexivity|exact Hs].
  - inv_bind H. simpl. destruct (keeps raw) eqn:Hk.
    + destruct (parse_line_same _ _ _ _ Hs Ha) as (a' & Ea & Hs').
      simpl. rewrite Ea. simpl. apply (IH _ _ _ Hs' H).
    + apply (IH a st' st1); [|exact H].
      apply dropped_line_same in Ha; [|exact Hk].
      destruct Ha as (H1 & H2 & H3 & H4), Hs as (K1 & K2 & K3 & K4).
      repeat split; congruence.
Qed.

Lemma vehicle_line_parses (st : parse_state float) (n : nat) :
  in_edge_section (st_current_section st) = false ->
  parse_line extract_weight st (vehicle_line n) = Return st.
Proof.
  intros Hsec. unfold parse_line.
  change (vehicle_line n)
    with (String "N" ("UMBER OF VEHICLES: " ++ PyStr.str (Z.of_nat n)
                      ++ PyStr.nl)%string).
  set (rest := ("UMBER OF VEHICLES: " ++ PyStr.str (Z.of_nat n)
                ++ PyStr.nl)%string).
  rewrite (LineFacts.startswith_strip_false "NAME" "N" rest eq_refl eq_refl).
  rewrite (LineFacts.startswith_strip_false "NUMBER OF VERTICES" "N" rest
             eq_refl eq_refl).
  rewrite (LineFacts.startswith_strip_false "VEHICLE CAPACITY" "N" rest
             eq_refl eq_refl).
  rewrite (LineFacts.startswith_strip_false "LIST_REQUIRED_EDGES:" "N" rest
             eq_refl eq_refl).
  rewrite (LineFacts.startswith_strip_false "LIST_NON_REQUIRED_EDGES:" "N"
             rest eq_refl eq_refl).
  rewrite (LineFacts.startswith_strip_false "FAILURE_SCENARIO:" "N" rest
             eq_refl eq_refl).
  rewrite (LineFacts.startswith_strip_false "DEPOT:" "N" rest
             eq_refl eq_refl).
  rewrite Hsec.
  destruct (StringFacts.strip_with_head PyStr.is_space "N" rest eq_refl)
    as [r Hr].
  unfold PyStr.strip. rewrite Hr. reflexivity.
Qed.

Lemma sorted_nonempty (ds : gset Z) : ds <> ∅ -> sorted ds <> [].
Proof.
  intros Hne Hs. apply Hne. apply leibniz_equiv, elements_empty_iff.
  unfold sorted in Hs.
  pose proof (merge_sort_Permutation Z.le (elements ds)) as P.
  rewrite Hs in P. apply Permutation_nil_l in P. rewrite P. reflexivity.
Qed.

Lemma mapM_int_str (l : list Z) :
  mapM (fun x => py_int (PyStr.strip x)) (map PyStr.str l) = Return l.
Proof.
  induction l as [|z l IH]; [reflexivity|].
  assert (Hz : py_int (PyStr.strip (PyStr.str z)) = Return z).
  { unfold py_int. rewrite StringFacts.strip_str, StringFacts.int_str.
    reflexivity. }
  simpl map. rewrite mapM_cons, Hz. simpl. rewrite IH. reflexivity.
Qed.

Lemma strip_depot_line (ds : gset Z) :
  ds <> ∅ ->
  PyStr.strip (depot_line ds)
  = ("DEPOT: " ++ PyStr.join "," (map PyStr.str (sorted ds)))%string
  /\ PyStr.strip
       (String " " (PyStr.join "," (map PyStr.str (sorted ds))))
     = PyStr.join "," (map PyStr.str (sorted ds))
  /\ PyStr.split "," (PyStr.join "," (map PyStr.str (sorted ds)))
     = map PyStr.str (sorted ds).
Proof.
  intros Hne. pose proof (sorted_nonempty ds Hne) as Hs.
  set (l := sorted ds) in *. set (J := PyStr.join "," (map PyStr.str l)).
  assert (Hnum : Forall (fun x => StrPred.all_chars
                                    StrPred.is_numeric x = true)
                        (map PyStr.str l)).
  { apply Forall_forall. intros x Hx. apply list_elem_of_In in Hx.
    apply in_map_iff in Hx. destruct Hx as (z & <- & _).
    apply StringFacts.str_numeric. }
  assert (Hsp : StrPred.all_chars (fun c => negb (PyStr.is_space c)) J
                = true).
  { apply StringFacts.all_chars_join; [reflexivity|].
    eapply Forall_impl; [exact Hnum|]. intros x Hx.
    eapply StringFacts.all_chars_impl; [|exact Hx].
    apply StringFacts.numeric_not_space. }
  assert (HJ : J <> EmptyString).
  { unfold J. destruct l as [|z l']; [congruence|].
    pose proof (StringFacts.str_nonempty z) as Hz.
    simpl. unfold PyStr.join. simpl.
    destruct (PyStr.str z) eqn:Ez; [congruence|].
    destruct (map PyStr.str l'); discriminate. }
  split; [|split].
  - unfold depot_line. fold l. fold J.
    unfold PyStr.strip, PyStr.strip_with.
    change ("DEPOT: " ++ J ++ PyStr.nl)%string
      with (String "D" ("EPOT: " ++ J ++ PyStr.nl)%string).
    rewrite (StringFacts.lstrip_with_head _ "D" _ eq_refl).
    change (String "D" ("EPOT: " ++ J ++ PyStr.nl)%string)
      with ("DEPOT: " ++ (J ++ PyStr.nl))%string.
    rewrite StringFacts.rstrip_with_app;
      rewrite (LineFacts.rstrip_app_nl J Hsp); [reflexivity|exact HJ].
  - apply LineFacts.strip_space_then. exact Hsp.
  - apply StringFacts.split_join.
    + destruct l; [congruence|discriminate].
    + eapply Forall_impl; [exact Hnum|]. intros x Hx.
      eapply StringFacts.all_chars_impl; [|exact Hx].
      apply StringFacts.numeric_not_comma.
Qed.

Lemma depot_line_parses (st : parse_state float) (ds : gset Z) :
  ds <> ∅ ->
  parse_line extract_weight st (depot_line ds)
  = Return (mk_parse_state (st_G st) (sorted ds) (st_battery_capacity st)
              (st_current_section st) (st_stdout st)).
Proof.
  intros Hne. destruct (strip_depot_line ds Hne) as (E1 & E2 & E3).
  unfold parse_line. rewrite E1.
  set (J := PyStr.join "," (map PyStr.str (sorted ds))) in *.
  change (negb (PyStr.nonempty ("DEPOT: " ++ J))) with false.
  change (PyStr.startswith "NAME" ("DEPOT: " ++ J)) with false.
  change (PyStr.startswith "NUMBER OF VERTICES" ("DEPOT: " ++ J)) with false.
  change (PyStr.startswith "VEHICLE CAPACITY" ("DEPOT: " ++ J)) with false.
  change (PyStr.startswith "LIST_REQUIRED_EDGES:" ("DEPOT: " ++ J))
    with false.
  change (PyStr.startswith "LIST_NON_REQUIRED_EDGES:" ("DEPOT: " ++ J))
    with false.
  change (PyStr.startswith "FAILURE_SCENARIO:" ("DEPOT: " ++ J)) with false.
  change (PyStr.startswith "DEPOT:" ("DEPOT: " ++ J)) with true.
  cbv iota.
  change (PyStr.split_max ":" 1 ("DEPOT: " ++ J))
    with ["DEPOT"; String " " J].
  cbn [index1 of_option lookup list_lookup]. simpl mbind.
  rewrite E2, E3, mapM_int_str. reflexivity.
Qed.

(** Parsing what [update_all_instances] writes: when the text ends
    outside the two edge lists and at least one depot was selected, the
    second parse succeeds with the graph and capacity of the first. *)
Lemma parse_serialized (lines : list string) (ds : gset Z)
    (st : parse_state float) (c : float) :
  parse_lines extract_weight initial_state lines = Return st ->
  st_battery_capacity st = Some c ->
  in_edge_section (st_current_section st) = false ->
  ds <> ∅ ->
  parse_text_file extract_weight (serialize lines ds)
  = Return (st_G st, sorted ds, c).
Proof.
  intros Hp Hc Hsec Hne.
  destruct (parse_kept_lines lines _ _ _
              (same_but_depots_refl initial_state) Hp)
    as (st1 & E & (H1 & H2 & H3 & H4)).
  unfold parse_text_file, serialize.
  rewrite parse_lines_app, E. simpl.
  rewrite vehicle_line_parses by (rewrite <- H3; exact Hsec). simpl.
  rewrite (depot_line_parses st1 ds Hne). simpl.
  rewrite <- H2, Hc, <- H1. reflexivity.
Qed.

End RoundTrip.

(** ** The selection is not empty when the graph has a node *)

Lemma greedy_loop_picks_extend (coverage : gmap Z (gset Z)) (ns : list Z)
    (all_nodes : gset Z) :
  forall fuel st picked r,
  greedy_loop fuel coverage ns all_nodes st picked = Return r ->
  exists more, picks r = picked ++ more.
Proof.
  induction fuel as [|fuel IH]; intros st picked r H; simpl in H;
    [discriminate|].
  apply bind_Return in H. destruct H as (o & Ho & H).
  destruct o as [| |b st'].
  - injection H as <-. exists []. simpl. rewrite app_nil_r. reflexivity.
  - injection H as <-. exists []. simpl. rewrite app_nil_r. reflexivity.
  - apply IH in H. destruct H as [more ->].
    exists (b :: more). rewrite <- app_assoc. reflexivity.
Qed.

Lemma greedy_select_nonempty (coverage : gmap Z (gset Z)) (ns : list Z)
    (r : greedy_run) :
  greedy_select coverage ns = Return r -> ns <> [] ->
  selected (final r) <> ∅.
Proof.
  unfold greedy_select. intros H Hns. simpl in H.
  apply bind_Return in H. destruct H as (o & Ho & H).
  destruct ns as [|n0 ns']; [congruence|].
  unfold greedy_step in Ho.
  destruct (decide (covered (mk_greedy_state ∅ ∅) = list_to_set (n0 :: ns')))
    as [He|_].
  { exfalso. simpl in He.
    assert (Hin : n0 ∈ (∅ : gset Z)) by (rewrite He; set_solver).
    revert Hin. apply not_elem_of_empty. }
  apply bind_Return in Ho. destruct Ho as ([bn g] & Hbc & Ho).
  apply best_candidate_spec in Hbc.
  destruct Hbc as (_ & Hall & Hcase).
  destruct bn as [b|].
  - destruct (coverage !! b) as [cb|]; simpl in Ho; [|discriminate].
    injection Ho as <-.
    pose proof (greedy_loop_picks_extend _ _ _ _ _ _ _ H) as [more Hm].
    apply greedy_loop_picks in H.
    + destruct H as (_ & Hset & _). rewrite <- Hset, Hm. simpl.
      intros Hempty.
      assert (Hin : b ∈ (∅ : gset Z)) by (rewrite <- Hempty; set_solver).
      revert Hin. apply not_elem_of_empty.
    + apply NoDup_singleton.
    + simpl. set_solver.
  - exfalso.
    assert (Hg : node_gain coverage (mk_greedy_state ∅ ∅) n0 <= g).
    { apply Hall; [now left|]. simpl. apply not_elem_of_empty. }
    destruct Hcase as [[_ ->]|(b & ? & ? & _ & [=] & _)].
    pose proof (gain_nonneg
                  (default ∅ (coverage !! n0))
                  (covered (mk_greedy_state ∅ ∅))).
    unfold node_gain in Hg. lia.
Qed.

(** ** Writing a file and reading it again *)

Module TextFacts.
Import PyStr StrPred StringFacts.

Lemma is_line_String (c : ascii) (r : string) :
  is_line (String c r)
  = match r with
    | EmptyString => Ascii.eqb c "010"
    | _ => not_eol c && is_line r
    end.
Proof. destruct r; reflexivity. Qed.

Lemma is_line_body (b : string) :
  all_chars not_eol b = true -> is_line (b ++ nl)%string = true.
Proof.
  induction b as [|c b IH]; [reflexivity|].
  simpl all_chars. intros H. apply andb_true_iff in H. destruct H as [H1 H2].
  change (String c b ++ nl)%string with (String c (b ++ nl)%string).
  rewrite is_line_String, (IH H2), H1.
  destruct b; reflexivity.
Qed.

Lemma keepends_String (c : ascii) (s : string) :
  keepends (String c s)
  = if Ascii.eqb c "010"
    then String c EmptyString :: keepends s
    else match keepends s with
         | [] => [String c EmptyString]
         | l :: ls => String c l :: ls
         end.
Proof. reflexivity. Qed.

Lemma universal_newlines_other (c : ascii) (s : string) :
  Ascii.eqb c "013" = false ->
  universal_newlines (String c s) = String c (universal_newlines s).
Proof. intros H. simpl. rewrite H. reflexivity. Qed.

Lemma keepends_line (l rest : string) :
  is_line l = true -> keepends (l ++ rest)%string = l :: keepends rest.
Proof.
  induction l as [|c l IH]; [discriminate|].
  rewrite is_line_String. change (String c l ++ rest)%string with (String c (l ++ rest)%string).
  destruct l as [|c' l'].
  - intros H. apply Ascii.eqb_eq in H. subst c. reflexivity.
  - intros H. apply andb_true_iff in H. destruct H as [H1 H2].
    unfold not_eol in H1. apply andb_true_iff in H1. destruct H1 as [H1 _].
    apply negb_true_iff in H1.
    rewrite keepends_String, H1, (IH H2). reflexivity.
Qed.

Lemma universal_newlines_line (l rest : string) :
  is_line l = true ->
  universal_newlines (l ++ rest)%string = (l ++ universal_newlines rest)%string.
Proof.
  induction l as [|c l IH]; [discriminate|].
  rewrite is_line_String. change (String c l ++ rest)%string with (String c (l ++ rest)%string).
  destruct l as [|c' l'].
  - intros H. apply Ascii.eqb_eq in H. subst c. reflexivity.
  - intros H. apply andb_true_iff in H. destruct H as [H1 H2].
    unfold not_eol in H1. apply andb_true_iff in H1. destruct H1 as [_ H1].
    apply negb_true_iff in H1.
    rewrite (universal_newlines_other c _ H1), (IH H2). reflexivity.
Qed.

(** Whole lines come back from the file as they were written. *)
Lemma readlines_writelines (ls : list string) :
  Forall (fun l => is_line l = true) ls -> readlines (writelines ls) = ls.
Proof.
  unfold readlines, read. induction 1 as [|l ls Hl Hls IH]; [reflexivity|].
  simpl writelines. rewrite (universal_newlines_line l _ Hl).
  rewrite (keepends_line l _ Hl), IH. reflexivity.
Qed.

Lemma universal_newlines_no_cr (s : string) :
  all_chars (fun c => negb (Ascii.eqb c "013")) (universal_newlines s) = true.
Proof.
  assert (H : forall n s, (String.length s <= n)%nat ->
            all_chars (fun c => negb (Ascii.eqb c "013"))
              (universal_newlines s) = true).
  { clear s. induction n as [|n IH]; intros [|c s] Hlen;
      try reflexivity; simpl in Hlen; [lia|].
    simpl universal_newlines.
    destruct (Ascii.eqb c "013") eqn:Ec.
    - assert (Hs : all_chars (fun c => negb (Ascii.eqb c "013"))
                     (universal_newlines s) = true) by (apply IH; lia).
      destruct s as [|c' s']; [reflexivity|].
      destruct (Ascii.eqb_spec c' "010") as [->|Hne].
      + simpl. apply IH. simpl in Hlen. lia.
      + assert (E : match c' with
                    | "010"%char => String "010" (universal_newlines s')
                    | _ => String "010" (universal_newlines (String c' s'))
                    end = String "010" (universal_newlines (String c' s'))).
        { destruct c' as [[|] [|] [|] [|] [|] [|] [|] [|]];
            try reflexivity. contradiction Hne. reflexivity. }
        rewrite E. simpl all_chars. exact Hs.
    - simpl. rewrite Ec. simpl. apply IH. lia. }
  apply (H (String.length s)). lia.
Qed.

Lemma keepends_nil (s : string) : keepends s = [] -> s = EmptyString.
Proof.
  destruct s as [|c s]; [reflexivity|]. simpl.
  destruct (Ascii.eqb c "010"); [discriminate|].
  destruct (keepends s); discriminate.
Qed.

Lemma endswith_String (p : string) (c : ascii) (s : string) :
  endswith p (String c s) = String.eqb (String c s) p || endswith p s.
Proof. reflexivity. Qed.

Lemma keepends_lines (t : string) :
  all_chars (fun c => negb (Ascii.eqb c "013")) t = true ->
  endswith nl t = true ->
  Forall (fun l => is_line l = true) (keepends t).
Proof.
  induction t as [|c t IH]; [constructor|].
  simpl all_chars. intros H. apply andb_true_iff in H. destruct H as [H1 H2].
  rewrite endswith_String. intros He.
  simpl keepends. destruct (Ascii.eqb c "010") eqn:Ec.
  - apply Ascii.eqb_eq in Ec. subst c. constructor; [reflexivity|].
    destruct t as [|c' t']; [constructor|].
    apply (IH H2). simpl in He. exact He.
  - assert (Ht : endswith nl t = true).
    { apply orb_true_iff in He. destruct He as [He|He]; [|exact He].
      unfold nl in He. simpl in He. rewrite Ec in He. discriminate He. }
    pose proof (IH H2 Ht) as Hl.
    destruct (keepends t) as [|l ls] eqn:Ek.
    + apply keepends_nil in Ek. subst t. discriminate Ht.
    + apply Forall_cons in Hl. destruct Hl as [Hl Hls].
      constructor; [|exact Hls].
      rewrite is_line_String. destruct l as [|c' l']; [discriminate Hl|].
      rewrite Hl. unfold not_eol. rewrite Ec, H1. reflexivity.
Qed.

(** A text that ends with a newline is read as whole lines. *)
Lemma readlines_lines (text : string) :
  endswith nl (read text) = true ->
  Forall (fun l => is_line l = true) (readlines text).
Proof.
  intros H. apply keepends_lines; [|exact H].
  apply universal_newlines_no_cr.
Qed.

Lemma is_line_app (a b : string) :
  all_chars not_eol a = true -> is_line b = true ->
  is_line (a ++ b)%string = true.
Proof.
  intros Ha Hb. induction a as [|c a IH]; [exact Hb|].
  simpl in Ha. apply andb_true_iff in Ha. destruct Ha as [H1 H2].
  change (String c a ++ b)%string with (String c (a ++ b)%string).
  rewrite is_line_String. pose proof (IH H2) as Hab.
  destruct (a ++ b)%string; [discriminate Hab|].
  rewrite Hab, H1. reflexivity.
Qed.

Lemma numeric_not_eol (c : ascii) : is_numeric c = true -> not_eol c = true.
Proof.
  destruct c as [[|] [|] [|] [|] [|] [|] [|] [|]]; vm_compute; congruence.
Qed.

Lemma vehicle_line_is_line (n : nat) : is_line (vehicle_line n) = true.
Proof.
  unfold vehicle_line. apply is_line_app; [reflexivity|].
  apply is_line_body. apply (all_chars_impl is_numeric).
  - exact numeric_not_eol.
  - apply str_numeric.
Qed.

Lemma depot_line_is_line (ds : gset Z) : is_line (depot_line ds) = true.
Proof.
  unfold depot_line. apply is_line_app; [reflexivity|].
  apply is_line_body. apply all_chars_join; [reflexivity|].
  apply Forall_map, Forall_forall. intros z _. simpl.
  apply (all_chars_impl is_numeric).
  - exact numeric_not_eol.
  - apply str_numeric.
Qed.

(** What [update_all_instances] writes for a text read as whole lines is
    read back line by line as it was written. *)
Lemma reread_serialized (lines : list string) (ds : gset Z) :
  Forall (fun l => is_line l = true) lines ->
  readlines (writelines (serialize lines ds)) = serialize lines ds.
Proof.
  intros H. apply readlines_writelines. unfold serialize.
  apply Forall_app. split.
  - apply List.Forall_forall. intros x Hx. apply filter_In in Hx.
    rewrite List.Forall_forall in H. apply H, Hx.
  - constructor; [apply vehicle_line_is_line|].
    constructor; [apply depot_line_is_line|constructor].
Qed.

End TextFacts.

Section Serialization.
Context {float : Type} {F : PyFloat float}.

Lemma select_depots_nonempty (G : Graph float) (battery_capacity : float)
    (ds : gset Z) :
  select_depots G battery_capacity = Return ds -> G <> [] -> ds <> ∅.
Proof.
  unfold select_depots, select_depots_run. intros H HG.
  inv_bind H. injection H as <-. inv_bind Ha.
  apply greedy_select_nonempty in Ha; [exact Ha|].
  destruct G; [congruence|discriminate].
Qed.

(** C8 (as amended). [update_all_instances] appends the two new lines at
    the end of the file, so they are read in whatever section the text
    ends in, and they are written right behind the last character of the
    text.  When the text read ends with a newline, ends outside the two
    edge lists (a [FAILURE_SCENARIO:] marker follows them) and the graph
    has at least one node, reading the file that was written and parsing
    it succeeds and gives the same graph -- the same nodes, the same
    edges with the same weights and the same required flags -- and the
    same capacity; the depots read back are the selected ones, in
    increasing order. *)
Theorem parse_written_gives_same_graph (text : string)
    (lines : list string) (st : parse_state float) (p : placement) :
  readlines text = lines ->
  PyStr.endswith PyStr.nl (read text) = true ->
  parse_lines extract_weight_updated initial_state lines = Return st ->
  in_edge_section (st_current_section st) = false ->
  st_G st <> [] ->
  update_instance lines = Return p ->
  exists G' ds' c',
    parse_text_file extract_weight_updated
      (readlines (writelines (written p)))
    = Return (G', ds', c')
    /\ G' = st_G st
    /\ st_battery_capacity st = Some c'
    /\ ds' = sorted (new_depots p)
    /\ number_of_nodes G' = number_of_nodes (st_G st)
    /\ number_of_edges G' = number_of_edges (st_G st)
    /\ edges G' = edges (st_G st).
Proof.
  intros Hr Hnl Hp Hsec HG Hu. unfold update_instance, parse_text_file in Hu.
  rewrite Hp in Hu. simpl in Hu.
  destruct (st_battery_capacity st) as [c|] eqn:Hc; [|discriminate].
  simpl in Hu. inv_bind Hu. injection Hu as <-. simpl.
  pose proof (select_depots_nonempty _ _ _ Ha HG) as Hne.
  exists (st_G st), (sorted a), c.
  rewrite TextFacts.reread_serialized
    by (rewrite <- Hr; apply TextFacts.readlines_lines, Hnl).
  rewrite (parse_serialized extract_weight_updated lines a st c
             Hp Hc Hsec Hne).
  repeat split.
Qed.

(** C1 (as amended). The rebalancing path returns 2 vehicles for one
    depot and as many vehicles as depots otherwise, and every
    [NUMBER OF VEHICLES:] line it returns carries that count.  The two
    depot-selection paths set the number of vehicles to the number of
    selected depots, one depot included, and [update_all_instances]
    writes that number on the only [NUMBER OF VEHICLES] line of its
    output. *)
Theorem vehicle_count_of_each_path :
  (forall text_lines fixed depot_count vehicle_count,
     Rebalance.rebalance_required_edges text_lines
     = Return (fixed, depot_count, vehicle_count) ->
     (depot_count = 1%nat -> vehicle_count = 2%nat)
     /\ (depot_count <> 1%nat -> vehicle_count = depot_count)
     /\ (forall l, In l fixed ->
           PyStr.startswith "NUMBER OF VEHICLES:" (PyStr.strip l) = true ->
           l = Rebalance.count_line "NUMBER OF VEHICLES:" vehicle_count))
  /\ (forall lines (p : placement),
        update_instance lines = Return p ->
        num_vehicles p = size (new_depots p)
        /\ written p = serialize lines (new_depots p)
        /\ (forall l, In l (written p) ->
              PyStr.startswith "NUMBER OF VEHICLES" (PyStr.strip l) = true ->
              l = vehicle_line (size (new_depots p))))
  /\ (forall lines (p : placement),
        update_gdb_instance lines = Return p ->
        num_vehicles p = size (new_depots p)).
Proof.
  split; [|split].
  - intros text_lines fixed dc vc H.
    unfold Rebalance.rebalance_required_edges in H. inv_bind H.
    destruct a as [req nonreq]. injection H as <- <- <-.
    unfold Rebalance.vehicles_for.
    split; [intros ->; reflexivity|]. split.
    + intros Hne. apply Nat.eqb_neq in Hne. rewrite Hne. reflexivity.
    + intros l Hl Hs. apply in_map_iff in Hl. destruct Hl as (l0 & <- & _).
      revert Hs. unfold Rebalance.fix_count.
      destruct (PyStr.startswith "NUMBER OF REQUIRED_EDGES:" (PyStr.strip l0)).
      { rewrite (LineFacts.startswith_strip_unspaced "NUMBER OF VEHICLES:"
                   (Rebalance.count_line "NUMBER OF REQUIRED_EDGES:"
                      (length req)) eq_refl eq_refl).
        discriminate. }
      destruct (PyStr.startswith "NUMBER OF NON_REQUIRED_EDGES:"
                  (PyStr.strip l0)).
      { rewrite (LineFacts.startswith_strip_unspaced "NUMBER OF VEHICLES:"
                   (Rebalance.count_line "NUMBER OF NON_REQUIRED_EDGES:"
                      (length nonreq)) eq_refl eq_refl).
        discriminate. }
      destruct (PyStr.startswith "NUMBER OF VEHICLES:" (PyStr.strip l0))
        eqn:E; [intros _; reflexivity|intros Hf; congruence].
  - intros lines p H. unfold update_instance in H. inv_bind H.
    destruct a as [[G ds] c]. inv_bind H. injection H as <-. simpl.
    split; [reflexivity|]. split; [reflexivity|].
    intros l Hl Hs. unfold serialize in Hl. apply in_app_or in Hl.
    destruct Hl as [Hl|[<-|[<-|[]]]].
    + apply filter_In in Hl. destruct Hl as [_ Hk]. unfold keeps in Hk.
      rewrite Hs in Hk. rewrite andb_false_r in Hk. discriminate.
    + reflexivity.
    + exfalso. revert Hs.
      rewrite (LineFacts.startswith_strip_unspaced "NUMBER OF VEHICLES"
                 (depot_line a) eq_refl eq_refl).
      discriminate.
  - intros lines p H. unfold update_gdb_instance in H. inv_bind H.
    destruct a as [[G ds] c]. inv_bind H. injection H as <-. reflexivity.
Qed.

End Serialization.

(** ** The rationals satisfy the float laws *)

Lemma QFloat_ltb_false (x y : Q) : QFloat.ltb x y = false <-> (y <= x)%Q.
Proof.
  unfold QFloat.ltb. rewrite negb_false_iff. apply Qle_bool_iff.
Qed.

Lemma QFloat_ltb_true (x y : Q) : QFloat.ltb x y = true <-> (x < y)%Q.
Proof.
  unfold QFloat.ltb. rewrite negb_true_iff.
  split.
  - intros H. apply Qnot_le_lt. intros Hle.
    apply Qle_bool_iff in Hle. congruence.
  - intros H. destruct (Qle_bool y x) eqn:E; [|reflexivity].
    apply Qle_bool_iff in E. exfalso. revert E. apply Qlt_not_le. exact H.
Qed.

#[global] Instance QFloat_laws : PyFloatLaws QFloat_PyFloat.
Proof.
  split; simpl.
  - reflexivity.
  - intros x. apply QFloat_ltb_false. apply Qle_refl.
  - intros x y z H1 H2. apply QFloat_ltb_false.
    apply QFloat_ltb_false in H1, H2. eapply Qle_trans; eassumption.
  - intros x y H. apply QFloat_ltb_false. apply QFloat_ltb_true in H.
    apply Qlt_le_weak. exact H.
  - intros x y H. apply Qeq_bool_iff in H.
    split; apply QFloat_ltb_false; rewrite H; apply Qle_refl.
  - intros d c H. apply QFloat_ltb_false in H. apply QFloat_ltb_false.
    rewrite Qred_correct.
    rewrite <- (Qplus_0_r d) at 1. apply Qplus_le_r. exact H.
  - reflexivity.
Qed.

(** ** Checking a given graph *)

Section Checkers.
Context {float : Type} {F : PyFloat float}.

Lemma closedb_sound (G : Graph float) : closedb G = true -> closed G.
Proof.
  unfold closedb, closed. intros H n nbrs m e H1 H2.
  rewrite forallb_forall in H. specialize (H _ H1). simpl in H.
  rewrite forallb_forall in H. specialize (H _ H2). simpl in H.
  apply existsb_exists in H. destruct H as (x & Hx & Heq).
  apply Z.eqb_eq in Heq. now subst.
Qed.

Lemma nonneg_weightsb_sound (G : Graph float) :
  nonneg_weightsb G = true -> nonneg_weights G.
Proof.
  unfold nonneg_weightsb, nonneg_weights, fle. intros H n nbrs m e H1 H2.
  rewrite forallb_forall in H. specialize (H _ H1). simpl in H.
  rewrite forallb_forall in H. specialize (H _ H2). simpl in H.
  now apply negb_true_iff in H.
Qed.

Lemma nonneg_costsb_sound (G : Graph float) :
  nonneg_costsb G = true -> nonneg_costs G.
Proof.
  unfold nonneg_costsb, nonneg_costs, fle. intros H n nbrs m e H1 H2.
  rewrite forallb_forall in H. specialize (H _ H1). simpl in H.
  rewrite forallb_forall in H. specialize (H _ H2). simpl in H.
  now apply negb_true_iff in H.
Qed.

End Checkers.

(** * Further properties of the code *)

(** ** The greedy selection and the search behind it *)

Lemma covered_by_snoc (coverage : gmap Z (gset Z)) (l : list Z) (b : Z) :
  covered_by coverage (l ++ [b])
  = covered_by coverage l ∪ default ∅ (coverage !! b).
Proof.
  unfold covered_by. rewrite map_app, union_list_app_L. simpl.
  set_solver.
Qed.

Lemma elem_of_covered_by (coverage : gmap Z (gset Z)) (l : list Z) (n : Z) :
  n ∈ covered_by coverage l
  <-> exists b s, In b l /\ coverage !! b = Some s /\ n ∈ s.
Proof.
  unfold covered_by. rewrite elem_of_union_list. split.
  - intros (X & HX & Hn). apply list_elem_of_In, in_map_iff in HX.
    destruct HX as (b & <- & Hb).
    destruct (coverage !! b) as [s|] eqn:E; simpl in Hn; [|set_solver].
    eauto.
  - intros (b & s & Hb & Hs & Hn). exists s. split; [|exact Hn].
    apply list_elem_of_In, in_map_iff. exists b. rewrite Hs. auto.
Qed.

(** The covered set is, at every test of the loop, what the picked nodes
    cover. *)
Lemma greedy_loop_covered_by (coverage : gmap Z (gset Z)) (ns : list Z)
    (all_nodes : gset Z) :
  forall fuel st picked r,
  greedy_loop fuel coverage ns all_nodes st picked = Return r ->
  covered st = covered_by coverage picked ->
  covered (final r) = covered_by coverage (picks r).
Proof.
  induction fuel as [|fuel IH]; intros st picked r H Hinv; [discriminate|].
  simpl in H.
  destruct (greedy_step coverage ns all_nodes st) as [o|e|] eqn:Ho;
    simpl in H; try discriminate.
  destruct o as [| |b st'].
  - injection H as <-. exact Hinv.
  - injection H as <-. exact Hinv.
  - apply greedy_step_Picked in Ho.
    destruct Ho as (_ & _ & cb & Hcb & ->).
    apply IH in H; [exact H|]. simpl.
    rewrite covered_by_snoc, Hcb, Hinv. reflexivity.
Qed.

Lemma snoc_split (A : Type) (l1 l2 picked : list A) (b b' : A) :
  l1 ++ b' :: l2 = picked ++ [b] ->
  (l2 = [] /\ l1 = picked /\ b' = b)
  \/ exists l2', l2 = l2' ++ [b] /\ picked = l1 ++ b' :: l2'.
Proof.
  destruct l2 as [|x l2 _] using rev_ind; intros H.
  - apply app_inj_tail in H. left. tauto.
  - right. exists l2.
    change (l1 ++ b' :: l2 ++ [x]) with (l1 ++ (b' :: l2) ++ [x]) in H.
    rewrite app_assoc in H. apply app_inj_tail in H.
    destruct H as [H ->]. split; [reflexivity|]. symmetry. exact H.
Qed.

Section GreedyGains.
Variable coverage : gmap Z (gset Z).
Variable ns : list Z.

Hypothesis coverage_ok :
  forall n, In n ns ->
    exists s, coverage !! n = Some s /\ n ∈ s
              /\ s ⊆ (list_to_set ns : gset Z).

(** While a node is uncovered, the node picked covers one more. *)
Lemma greedy_step_gains (st : greedy_state) (b : Z) (st' : greedy_state) :
  selected st ⊆ covered st ->
  covered st ⊆ list_to_set ns ->
  greedy_step coverage ns (list_to_set ns) st = Return (Picked b st') ->
  exists cb n, coverage !! b = Some cb /\ n ∈ cb /\ n ∉ covered st.
Proof.
  intros Hsel Hcov H.
  apply greedy_step_Picked in H.
  destruct H as (Hne & (g & Hbc) & cb & Hcb & ->).
  apply best_candidate_spec in Hbc.
  destruct Hbc as (_ & Hmax & [[[=] _]|(b' & l1 & l2 & Hns & [= <-] & Hb & _ & Hg & _)]).
  assert (Hu : exists u, u ∈ (list_to_set ns : gset Z) /\ u ∉ covered st).
  { destruct (decide ((list_to_set ns : gset Z) ∖ covered st = ∅)) as [E|E].
    - exfalso. apply Hne. apply set_eq. intros x. split; [apply Hcov|].
      intros Hx. destruct (decide (x ∈ covered st)) as [K|K]; [exact K|].
      exfalso. assert (x ∈ (list_to_set ns : gset Z) ∖ covered st) as K'
        by (apply elem_of_difference; auto).
      rewrite E in K'. set_solver.
    - apply set_choose_L in E. destruct E as [u Hu].
      apply elem_of_difference in Hu. eauto. }
  destruct Hu as (u & Hu & Hnu).
  apply elem_of_list_to_set, list_elem_of_In in Hu.
  destruct (coverage_ok u Hu) as (s & Hs & Hself & _).
  assert (Hgu : 1 <= node_gain coverage st u).
  { unfold node_gain, gain. rewrite Hs. simpl.
    assert (size (s ∖ covered st) <> 0)%nat; [|lia].
    apply size_non_empty_iff. intros E.
    assert (u ∈ s ∖ covered st) as K by (apply elem_of_difference; auto).
    apply E in K. set_solver. }
  assert (Hgb : 1 <= node_gain coverage st b).
  { specialize (Hmax u Hu). rewrite <- Hg.
    assert (u ∉ selected st) by (intros K; apply Hnu, Hsel, K).
    specialize (Hmax H). lia. }
  exists cb. unfold node_gain, gain in Hgb. rewrite Hcb in Hgb. simpl in Hgb.
  destruct (decide (cb ∖ covered st = ∅)) as [E|E].
  - rewrite E, size_empty in Hgb. lia.
  - apply set_choose_L in E. destruct E as [n Hn].
    apply elem_of_difference in Hn. exists n. tauto.
Qed.

Lemma greedy_loop_gains :
  forall fuel st picked r,
  greedy_loop fuel coverage ns (list_to_set ns) st picked = Return r ->
  selected st ⊆ covered st ->
  covered st ⊆ list_to_set ns ->
  covered st = covered_by coverage picked ->
  (forall l1 b l2, picked = l1 ++ b :: l2 ->
     exists cb n, coverage !! b = Some cb /\ n ∈ cb
                  /\ n ∉ covered_by coverage l1) ->
  forall l1 b l2, picks r = l1 ++ b :: l2 ->
    exists cb n, coverage !! b = Some cb /\ n ∈ cb
                 /\ n ∉ covered_by coverage l1.
Proof.
  induction fuel as [|fuel IH]; intros st picked r H Hsel Hcov Hinv HP;
    [discriminate|].
  simpl in H.
  destruct (greedy_step coverage ns (list_to_set ns) st) as [o|e|] eqn:Ho;
    simpl in H; try discriminate.
  destruct o as [| |b st'].
  - injection H as <-. exact HP.
  - injection H as <-. exact HP.
  - pose proof (greedy_step_gains st b st' Hsel Hcov Ho) as Hgain.
    apply greedy_step_Picked in Ho.
    destruct Ho as (_ & (g & Hbc) & cb & Hcb & ->).
    apply best_candidate_spec in Hbc.
    destruct Hbc as (_ & _ & [[[=] _]|(b' & k1 & k2 & Hns & [= <-] & _)]).
    assert (Hb : In b ns) by (rewrite Hns; apply in_or_app; right; now left).
    destruct (coverage_ok b Hb) as (s & Hs & Hself & Hsub).
    assert (s = cb) by congruence. subst s.
    apply (IH _ _ _ H); simpl.
    + set_solver.
    + set_solver.
    + rewrite covered_by_snoc, Hcb, Hinv. reflexivity.
    + intros l1 b0 l2 E. symmetry in E. apply snoc_split in E.
      destruct E as [(-> & -> & ->)|(l2' & -> & E)].
      * rewrite <- Hinv. exact Hgain.
      * eapply HP. exact E.
Qed.

End GreedyGains.

Section Reach.
Context {float : Type} {F : PyFloat float}.

Variable G : Graph float.
Variable cutoff : float.
Variable source : Z.

Lemma relax_within (d_v : float) (nbrs : adjacency float) :
  forall st st',
  relax cutoff d_v nbrs st = Return st' ->
  dist st' = dist st
  /\ forall e, In e (fringe st') ->
       In e (fringe st) \/ fltb cutoff (entry_dist e) = false.
Proof.
  induction nbrs as [|[u e] rest IH]; intros st st' H; simpl in H.
  - injection H as <-. auto.
  - destruct (fltb cutoff (fadd d_v (edge_cost e))) eqn:Ecut;
      [apply IH; exact H|].
    destruct (dist st !! u) as [ud|] eqn:Ed.
    + destruct (fltb (fadd d_v (edge_cost e)) ud); [discriminate|].
      apply IH; exact H.
    + match type of H with
      | (if ?c then _ else _) = _ => destruct c
      end; [|apply IH; exact H].
      apply IH in H. simpl in H. destruct H as [H1 H2].
      split; [exact H1|]. intros x Hx.
      destruct (H2 x Hx) as [[<-|K]|K]; auto.
Qed.

Lemma dijkstra_loop_within (fuel : nat) :
  forall st res,
  dijkstra_loop fuel G cutoff st = Return res ->
  (forall e, In e (fringe st) ->
     start_or_within cutoff source (entry_node e) (entry_dist e)) ->
  (forall u d, dist st !! u = Some d -> start_or_within cutoff source u d) ->
  forall u d, res !! u = Some d -> start_or_within cutoff source u d.
Proof.
  induction fuel as [|fuel IH]; intros st res H Hfr Hd.
  - simpl in H. destruct (heappop (fringe st)) as [[[[d c] v] fr']|];
      [discriminate|]. injection H as <-. exact Hd.
  - simpl in H.
    destruct (heappop (fringe st)) as [[[[d c] v] fr']|] eqn:Ep;
      [|injection H as <-; exact Hd].
    apply heappop_In in Ep. destruct Ep as [_ Ep].
    destruct (dist st !! v) as [dv|] eqn:Edv.
    + apply (IH _ _ H); simpl; [|exact Hd].
      intros e He. apply Hfr, Ep. now right.
    + destruct (assoc_get v G) as [nbrs|]; simpl in H; [|discriminate].
      destruct (relax cutoff d nbrs _) as [st1|e|] eqn:Er; simpl in H;
        try discriminate.
      apply relax_within in Er. simpl in Er. destruct Er as [E1 E2].
      apply (IH _ _ H).
      * intros e He. destruct (E2 e He) as [K|K]; [|now right].
        apply Hfr, Ep. now right.
      * intros u du. rewrite E1. intros Hu.
        destruct (decide (u = v)) as [->|Hne].
        -- rewrite lookup_insert_eq in Hu. injection Hu as <-.
           apply (Hfr (d, c, v)), Ep. now left.
        -- rewrite lookup_insert_ne in Hu by congruence. eauto.
Qed.

Lemma dijkstra_within (lengths : gmap Z float) :
  single_source_dijkstra_path_length G source cutoff = Return lengths ->
  forall u d, lengths !! u = Some d -> start_or_within cutoff source u d.
Proof.
  unfold single_source_dijkstra_path_length.
  destruct (assoc_mem source G); [|discriminate].
  intros H. apply (dijkstra_loop_within _ _ _ H); simpl.
  - intros e [<-|[]]. left. split; reflexivity.
  - intros u d Hu. rewrite lookup_empty in Hu. discriminate.
Qed.

End Reach.

Section CoverageEntries.
Context {float : Type} {F : PyFloat float}.
Variable G : Graph float.
Variable radius : float.

Lemma compute_coverage_from_entries (ns : list Z) :
  forall acc coverage,
  compute_coverage_from G radius ns acc = Return coverage ->
  forall n s, coverage !! n = Some s ->
    acc !! n = Some s
    \/ (In n ns /\ exists lengths,
          single_source_dijkstra_path_length G n radius = Return lengths
          /\ s = dom lengths).
Proof.
  induction ns as [|node rest IH]; intros acc coverage H n s Hn; simpl in H.
  - injection H as <-. now left.
  - destruct (single_source_dijkstra_path_length G node radius)
      as [lengths|e|] eqn:E; simpl in H; try discriminate.
    destruct (IH _ _ H n s Hn) as [K|(K1 & K2)].
    + destruct (decide (n = node)) as [->|Hne].
      * rewrite lookup_insert_eq in K. injection K as <-.
        right. split; [now left|]. eauto.
      * rewrite lookup_insert_ne in K by congruence. now left.
    + right. split; [now right|exact K2].
Qed.

Lemma compute_coverage_entries (coverage : gmap Z (gset Z)) (n : Z)
    (s : gset Z) :
  compute_coverage G radius = Return coverage ->
  coverage !! n = Some s ->
  In n (nodes G)
  /\ exists lengths,
       single_source_dijkstra_path_length G n radius = Return lengths
       /\ s = dom lengths.
Proof.
  intros H Hn.
  destruct (compute_coverage_from_entries _ _ _ H n s Hn) as [K|K];
    [rewrite lookup_empty in K; discriminate|exact K].
Qed.

End CoverageEntries.

Section SelectionReach.
Context {float : Type} {F : PyFloat float} {L : PyFloatLaws F}.

(** What the computed coverage map gives the loop. *)
Lemma computed_coverage_ok (G : Graph float) (radius : float)
    (coverage : gmap Z (gset Z)) :
  closed G ->
  compute_coverage G radius = Return coverage ->
  forall n, In n (nodes G) ->
    exists s, coverage !! n = Some s /\ n ∈ s
              /\ s ⊆ (list_to_set (nodes G) : gset Z).
Proof.
  intros Hc E n Hn. unfold compute_coverage in E.
  destruct (compute_coverage_from_result G radius radius (nodes G) ∅)
    as [_ Hres].
  destruct (Hres coverage E) as (C1 & _ & C3).
  { intros k s H. rewrite lookup_empty in H. discriminate. }
  { auto. }
  destruct (C1 n Hn) as [s Hs]. destruct (C3 n s Hs) as [Hself Hsub].
  exists s. repeat split; try assumption.
  intros m Hm. apply elem_of_list_to_set, list_elem_of_In.
  destruct (Hsub m Hm) as [K|(k & nbrs & d & K1 & K2)]; [exact K|].
  eapply Hc; eassumption.
Qed.

Lemma coverage_reach (G : Graph float) (radius : float)
    (coverage : gmap Z (gset Z)) (b n : Z) (s : gset Z) :
  compute_coverage G radius = Return coverage ->
  coverage !! b = Some s ->
  n ∈ s <-> within_reach G radius b n.
Proof.
  intros E Hb.
  destruct (compute_coverage_entries G radius coverage b s E Hb)
    as (_ & lengths & El & ->).
  split.
  - intros Hn. apply elem_of_dom in Hn. destruct Hn as [d Hd].
    exists lengths, d. repeat split; try assumption.
    destruct (dijkstra_within G radius b lengths El n d Hd) as [K|K]; auto.
  - intros (lengths' & d & El' & Hd & _).
    assert (lengths' = lengths) by congruence. subst.
    apply elem_of_dom. eauto.
Qed.

Lemma selection_reach (G : Graph float) (radius : float) (r : greedy_run) :
  closed G ->
  (coverage ← compute_coverage (annotate_travel_time G) radius;
   greedy_select coverage (nodes (annotate_travel_time G))) = Return r ->
  (forall n, In n (nodes G) ->
     exists b, b ∈ selected (final r)
               /\ within_reach (annotate_travel_time G) radius b n)
  /\ (forall l1 b l2, picks r = l1 ++ b :: l2 ->
        exists n, within_reach (annotate_travel_time G) radius b n
                  /\ forall b', In b' l1 ->
                       ~ within_reach (annotate_travel_time G) radius b' n).
Proof.
  intros Hc H.
  destruct (selection_outcome G radius Hc) as (Hout & _ & _).
  destruct (Hout r H) as (_ & _ & Hall).
  pose proof (closed_annotate G Hc) as Hc'.
  destruct (compute_coverage (annotate_travel_time G) radius)
    as [cov|e|] eqn:E; simpl in H; try discriminate.
  pose proof (computed_coverage_ok _ _ _ Hc' E) as Hok.
  pose proof (greedy_loop_picks _ _ _ _ _ _ _ H (NoDup_nil_2) eq_refl)
    as (_ & Hsel & _ & Hin).
  pose proof (greedy_loop_covered_by _ _ _ _ _ _ _ H eq_refl) as Hcb.
  split.
  - intros n Hn.
    assert (K : n ∈ covered (final r)).
    { rewrite Hall. apply elem_of_list_to_set, list_elem_of_In. exact Hn. }
    rewrite Hcb in K. apply elem_of_covered_by in K.
    destruct K as (b & s & Hb & Hs & Hns).
    exists b. split.
    + rewrite <- Hsel. apply elem_of_list_to_set, list_elem_of_In. exact Hb.
    + apply (coverage_reach _ _ _ b n s E Hs). exact Hns.
  - intros l1 b l2 Hp.
    assert (Hg : exists cb n, cov !! b = Some cb /\ n ∈ cb
                              /\ n ∉ covered_by cov l1).
    { apply (greedy_loop_gains cov _ Hok _ _ _ _ H) with (l2 := l2);
        simpl; [set_solver|set_solver|reflexivity| |exact Hp].
      intros k1 k k2 K. destruct k1; discriminate K. }
    destruct Hg as (cb & n & Hb & Hn & Hnot).
    exists n. split; [apply (coverage_reach _ _ _ b n cb E Hb); exact Hn|].
    intros b' Hb' Hr. apply Hnot. apply elem_of_covered_by.
      assert (Hnode : In b' (nodes (annotate_travel_time G))).
      { destruct (Hin b') as [[]|K]; [|exact K].
        rewrite Hp. apply in_or_app. now left. }
      destruct (Hok b' Hnode) as (s & Hs & _).
      exists b', s. repeat split; try assumption.
      apply (coverage_reach _ _ _ b' n s E Hs). exact Hr.
Qed.

End SelectionReach.

Section SelectionTheorems.
Context {float : Type} {F : PyFloat float} {L : PyFloatLaws F}.

(** X8. The depots [select_depots] and [select_depots_with_factor]
    return cover the graph: for every node the search from one of the
    selected depots, with the radius the function uses, returns a
    distance, which is [0] for the depot itself and not above the radius
    otherwise. *)
Theorem every_node_is_within_reach_of_a_depot (G : Graph float)
    (battery_capacity : float) (factor : Z) :
  closed G ->
  (forall ds,
     select_depots G battery_capacity = Return ds ->
     forall n, In n (nodes G) ->
       exists b, b ∈ ds
         /\ within_reach (annotate_travel_time G)
              (fdiv battery_capacity (float_of_Z 2)) b n)
  /\ (forall ds,
        select_depots_with_factor G battery_capacity factor = Return ds ->
        forall n, In n (nodes G) ->
          exists b, b ∈ ds
            /\ within_reach (annotate_travel_time G)
                 (fdiv battery_capacity (float_of_Z factor)) b n).
Proof.
  intros Hc. split; intros ds H n Hn.
  - unfold select_depots in H.
    destruct (select_depots_run G battery_capacity) as [r|e|] eqn:E;
      simpl in H; try discriminate.
    injection H as <-.
    apply (selection_reach G _ r Hc E). exact Hn.
  - unfold select_depots_with_factor in H.
    destruct (select_depots_with_factor_run G battery_capacity factor)
      as [r|e|] eqn:E; simpl in H; try discriminate.
    injection H as <-.
    apply select_depots_with_factor_run_Return in E.
    apply (selection_reach G _ r Hc E). exact Hn.
Qed.

(** X9. No depot is picked in vain: each depot the loop picks reaches,
    within the radius, a node that none of the depots picked before it
    reaches. *)
Theorem every_depot_reaches_a_node_no_earlier_depot_reaches
    (G : Graph float) (battery_capacity : float) (factor : Z) :
  closed G ->
  (forall r l1 b l2,
     select_depots_run G battery_capacity = Return r ->
     picks r = l1 ++ b :: l2 ->
     exists n,
       within_reach (annotate_travel_time G)
         (fdiv battery_capacity (float_of_Z 2)) b n
       /\ forall b', In b' l1 ->
            ~ within_reach (annotate_travel_time G)
                (fdiv battery_capacity (float_of_Z 2)) b' n)
  /\ (forall r l1 b l2,
        select_depots_with_factor_run G battery_capacity factor = Return r ->
        picks r = l1 ++ b :: l2 ->
        exists n,
          within_reach (annotate_travel_time G)
            (fdiv battery_capacity (float_of_Z factor)) b n
          /\ forall b', In b' l1 ->
               ~ within_reach (annotate_travel_time G)
                   (fdiv battery_capacity (float_of_Z factor)) b' n).
Proof.
  intros Hc. split; intros r l1 b l2 E Hp.
  - apply (selection_reach G _ r Hc E) with (l2 := l2). exact Hp.
  - apply select_depots_with_factor_run_Return in E.
    apply (selection_reach G _ r Hc E) with (l2 := l2). exact Hp.
Qed.

End SelectionTheorems.

Section SelectionTheorems2.
Context {float : Type} {F : PyFloat float} {L : PyFloatLaws F}.

Lemma reach_unlisted (G : Graph float) (radius : float) (b n : Z) :
  (forall k nbrs d, In (k, nbrs) G -> ~ In (n, d) nbrs) ->
  within_reach (annotate_travel_time G) radius b n -> b = n.
Proof.
  intros Hiso (lengths & d & El & Hd & _).
  destruct (dijkstra_result (annotate_travel_time G) radius b) as [_ Hres].
  destruct (Hres lengths El) as [_ Hdom].
  destruct (Hdom n) as [->|(k & nbrs & e & K1 & K2)].
  - apply elem_of_dom. eauto.
  - reflexivity.
  - exfalso.
    destruct (In_annotate _ _ _ _ _ K1 K2) as (nbrs0 & e0 & H3 & H4 & _).
    exact (Hiso _ _ _ H3 H4).
Qed.

(** X10. A node that no adjacency list names -- a node without an
    incident edge -- is among the depots returned. *)
Theorem a_node_without_incident_edge_is_a_depot (G : Graph float)
    (battery_capacity : float) (factor : Z) (n : Z) :
  closed G ->
  In n (nodes G) ->
  (forall k nbrs d, In (k, nbrs) G -> ~ In (n, d) nbrs) ->
  (forall ds, select_depots G battery_capacity = Return ds -> n ∈ ds)
  /\ (forall ds,
        select_depots_with_factor G battery_capacity factor = Return ds ->
        n ∈ ds).
Proof.
  intros Hc Hn Hiso. split; intros ds H.
  - unfold select_depots in H.
    destruct (select_depots_run G battery_capacity) as [r|e|] eqn:E;
      simpl in H; try discriminate.
    injection H as <-.
    destruct (selection_reach G _ r Hc E) as [Hreach _].
    destruct (Hreach n Hn) as (b & Hb & Hr).
    apply reach_unlisted in Hr; [|exact Hiso]. subst b. exact Hb.
  - unfold select_depots_with_factor in H.
    destruct (select_depots_with_factor_run G battery_capacity factor)
      as [r|e|] eqn:E; simpl in H; try discriminate.
    injection H as <-.
    apply select_depots_with_factor_run_Return in E.
    destruct (selection_reach G _ r Hc E) as [Hreach _].
    destruct (Hreach n Hn) as (b & Hb & Hr).
    apply reach_unlisted in Hr; [|exact Hiso]. subst b. exact Hb.
Qed.

End SelectionTheorems2.

Section SelectionShape.
Context {float : Type} {F : PyFloat float}.

Lemma greedy_select_shape (coverage : gmap Z (gset Z)) (ns : list Z)
    (r : greedy_run) :
  greedy_select coverage ns = Return r ->
  (forall b, b ∈ selected (final r) -> In b ns)
  /\ (selected (final r) = ∅ <-> ns = []).
Proof.
  intros H. split.
  - intros b Hb.
    destruct (greedy_loop_picks _ _ _ _ _ _ _ H NoDup_nil_2 eq_refl)
      as (_ & Hsel & _ & Hin).
    rewrite <- Hsel in Hb. apply elem_of_list_to_set, list_elem_of_In in Hb.
    destruct (Hin b Hb) as [[]|K]. exact K.
  - split.
    + intros Hs. destruct ns as [|x ns']; [reflexivity|]. exfalso.
      exact (greedy_select_nonempty coverage (x :: ns') r H
               ltac:(discriminate) Hs).
    + intros ->. unfold greedy_select in H. simpl in H.
      unfold greedy_step in H. simpl in H.
      destruct (decide ((∅ : gset Z) = ∅)) as [_|K]; [|congruence].
      simpl in H. injection H as <-. reflexivity.
Qed.

(** X11. The depots returned are nodes of the graph, and the set is
    empty exactly when the graph has no node. *)
Theorem depots_are_nodes_and_none_only_without_nodes (G : Graph float)
    (battery_capacity : float) (factor : Z) :
  (forall ds,
     select_depots G battery_capacity = Return ds ->
     (forall b, b ∈ ds -> In b (nodes G)) /\ (ds = ∅ <-> G = []))
  /\ (forall ds,
        select_depots_with_factor G battery_capacity factor = Return ds ->
        (forall b, b ∈ ds -> In b (nodes G)) /\ (ds = ∅ <-> G = [])).
Proof.
  assert (Hnil : forall G' : Graph float, nodes G' = [] <-> G' = []).
  { intros G'. unfold nodes.
    destruct G'; simpl; split; intros K; congruence. }
  split; intros ds H.
  - unfold select_depots, select_depots_run in H.
    destruct (compute_coverage _ _) as [cov|e|]; simpl in H;
      try discriminate.
    destruct (greedy_select cov _) as [r|e|] eqn:E; simpl in H;
      try discriminate.
    injection H as <-.
    apply greedy_select_shape in E. rewrite nodes_annotate in E.
    destruct E as [E1 E2]. split; [exact E1|].
    rewrite E2. apply Hnil.
  - unfold select_depots_with_factor in H.
    destruct (select_depots_with_factor_run G battery_capacity factor)
      as [r0|e|] eqn:E0; simpl in H; try discriminate.
    apply select_depots_with_factor_run_Return in E0.
    destruct (compute_coverage _ _) as [cov|e|]; simpl in E0;
      try discriminate.
    destruct (greedy_select cov _) as [r|e|] eqn:E; simpl in E0;
      try discriminate.
    injection E0 as ->.
    injection H as <-.
    apply greedy_select_shape in E. rewrite nodes_annotate in E.
    destruct E as [E1 E2]. split; [exact E1|].
    rewrite E2. apply Hnil.
Qed.

End SelectionShape.

(** ** More on [parse_text_file] *)

Section ParserDepots.
Context {float : Type} {F : PyFloat float}.
Variable extract_weight : string -> float * list string.

(** What one line does to [depots]. *)
Lemma parse_line_depots (st st' : parse_state float) (raw : string) :
  parse_line extract_weight st raw = Return st' ->
  if is_depot_line raw
  then depot_field raw = Return (st_depots st')
  else st_depots st' = st_depots st.
Proof.
  unfold parse_line, is_depot_line, depot_field, PyStr.startswith.
  intros H.
  destruct (String.prefix "DEPOT:" (PyStr.strip raw)) eqn:Hd.
  - pose proof Hd as Hp. expose_prefix Hp. rewrite Hp in H.
    change (negb (PyStr.nonempty ("DEPOT:" ++ t))) with false in H.
    change (String.prefix "NAME" ("DEPOT:" ++ t)) with false in H.
    change (String.prefix "NUMBER OF VERTICES" ("DEPOT:" ++ t))
      with false in H.
    change (String.prefix "VEHICLE CAPACITY" ("DEPOT:" ++ t))
      with false in H.
    change (String.prefix "LIST_REQUIRED_EDGES:" ("DEPOT:" ++ t))
      with false in H.
    change (String.prefix "LIST_NON_REQUIRED_EDGES:" ("DEPOT:" ++ t))
      with false in H.
    change (String.prefix "FAILURE_SCENARIO:" ("DEPOT:" ++ t))
      with false in H.
    cbv iota in H. rewrite <- Hp in H.
    inv_bind H. injection H as <-. simpl.
    rewrite Ha. simpl. exact Ha0.
  - repeat match type of H with
    | (if ?b then _ else _) = _ => destruct b
    end; try (injection H as <-; reflexivity).
    + inv_bind H. injection H as <-. reflexivity.
    + inv_bind H. injection H as <-. reflexivity.
    + unfold parse_edge_line in H.
      destruct (PyStr.split_max ") " 1 (PyStr.strip raw)) as [|u_v [|rest [|? ?]]];
        try discriminate.
      inv_bind H. destruct a as [u v]. destruct (extract_weight rest).
      injection H as <-. reflexivity.
Qed.

Lemma parse_lines_depots_absent (lines : list string) :
  forall st st',
  Forall (fun raw => is_depot_line raw = false) lines ->
  parse_lines extract_weight st lines = Return st' ->
  st_depots st' = st_depots st.
Proof.
  induction lines as [|raw lines IH]; intros st st' Hall H; simpl in H.
  - injection H as <-. reflexivity.
  - inv_bind H. apply Forall_cons in Hall. destruct Hall as [Hraw Hall].
    apply parse_line_depots in Ha. rewrite Hraw in Ha.
    rewrite (IH _ _ Hall H). exact Ha.
Qed.

(** X2. Without a [DEPOT:] line the depots [parse_text_file] returns
    are the empty list.  With such lines they are the list read from the
    last of them: the integers between the commas of what follows its
    first colon. *)
Theorem parse_text_file_depots (lines : list string) :
  (Forall (fun raw => is_depot_line raw = false) lines ->
   forall G ds c,
     parse_text_file extract_weight lines = Return (G, ds, c) -> ds = [])
  /\ (forall pre raw post G ds c,
        lines = pre ++ raw :: post ->
        is_depot_line raw = true ->
        Forall (fun raw => is_depot_line raw = false) post ->
        parse_text_file extract_weight lines = Return (G, ds, c) ->
        depot_field raw = Return ds).
Proof.
  split.
  - intros Hall G ds c H. unfold parse_text_file in H. inv_bind H.
    destruct (st_battery_capacity a); [|discriminate].
    injection H as _ <- _.
    apply (parse_lines_depots_absent _ _ _ Hall Ha).
  - intros pre raw post G ds c -> Hraw Hpost H.
    unfold parse_text_file in H. inv_bind H.
    destruct (st_battery_capacity a); [|discriminate].
    injection H as _ <- _.
    rewrite parse_lines_app in Ha. inv_bind Ha. simpl in Ha. inv_bind Ha.
    apply parse_line_depots in Ha1. rewrite Hraw in Ha1.
    rewrite (parse_lines_depots_absent _ _ _ Hpost Ha). exact Ha1.
Qed.

End ParserDepots.

Section ParserSkips.
Context {float : Type} {F : PyFloat float}.
Variable extract_weight : string -> float * list string.

Lemma parse_line_skipped (st : parse_state float) (raw : string) :
  is_skipped_line raw = true ->
  parse_line extract_weight st raw = Return st.
Proof.
  unfold is_skipped_line, parse_line. intros H.
  destruct (negb (PyStr.nonempty (PyStr.strip raw))); [reflexivity|].
  simpl in H. rewrite H. reflexivity.
Qed.

Lemma parse_lines_skipped (lines : list string) :
  forall st,
  parse_lines extract_weight st
    (List.filter (fun raw => negb (is_skipped_line raw)) lines)
  = parse_lines extract_weight st lines.
Proof.
  induction lines as [|raw lines IH]; intros st; [reflexivity|].
  simpl. destruct (is_skipped_line raw) eqn:E; simpl.
  - rewrite (parse_line_skipped st raw E). simpl. apply IH.
  - destruct (parse_line extract_weight st raw); simpl; auto.
Qed.

(** X1. [parse_text_file] gives the same outcome -- the same result or
    the same exception -- when the lines that are blank once stripped
    and the lines that start with [NAME] are taken out of its input,
    wherever they stand, inside the edge lists included. *)
Theorem parse_text_file_skips_blank_and_name_lines (lines : list string) :
  parse_text_file extract_weight
    (List.filter (fun raw => negb (is_skipped_line raw)) lines)
  = parse_text_file extract_weight lines.
Proof.
  unfold parse_text_file. rewrite parse_lines_skipped. reflexivity.
Qed.

Lemma contains_prefix (sep s : string) :
  PyStr.contains sep s = false -> String.prefix sep s = false.
Proof.
  destruct s; simpl; intros H.
  - apply orb_false_iff in H. tauto.
  - apply orb_false_iff in H. tauto.
Qed.

Lemma split_go_once (sep : string) (c : ascii) (s : string) :
  PyStr.split_go sep (Some 1%nat) 0 (String c s)
  = if String.prefix sep (String c s)
    then EmptyString
         :: PyStr.split_go sep (Some 0%nat) (String.length sep - 1) s
    else match PyStr.split_go sep (Some 1%nat) 0 s with
         | p :: ps => String c p :: ps
         | [] => [String c EmptyString]
         end.
Proof. reflexivity. Qed.

Lemma split_max_absent (sep s : string) :
  PyStr.contains sep s = false -> PyStr.split_max sep 1 s = [s].
Proof.
  unfold PyStr.split_max. induction s as [|c s IH]; intros H; [reflexivity|].
  pose proof (contains_prefix _ _ H) as Hp.
  rewrite split_go_once, Hp.
  simpl in H. apply orb_false_iff in H. destruct H as [_ H].
  rewrite (IH H). reflexivity.
Qed.

Lemma parse_line_unseparated (st : parse_state float) (raw : string) :
  in_edge_section (st_current_section st) = true ->
  is_keyword_line raw = false ->
  PyStr.contains ") " (PyStr.strip raw) = false ->
  parse_line extract_weight st raw = Raise ValueError_unpack.
Proof.
  unfold is_keyword_line, parse_line. intros Hs Hk Hc.
  repeat (apply orb_false_iff in Hk; destruct Hk as [Hk ?]).
  repeat match goal with
  | K : _ = false |- _ => rewrite K; clear K
  end.
  rewrite Hs. unfold parse_edge_line.
  rewrite (split_max_absent _ _ Hc). reflexivity.
Qed.

(** X3. Inside the required or the non-required list, a line that none
    of the keyword tests accepts and that holds no [") "] makes
    [parse_text_file] raise the [ValueError] of the tuple assignment
    [u_v, rest = line.split(') ', 1)], whatever follows it. *)
Theorem parse_text_file_rejects_edge_line_without_separator
    (pre : list string) (raw : string) (post : list string)
    (st : parse_state float) :
  parse_lines extract_weight initial_state pre = Return st ->
  in_edge_section (st_current_section st) = true ->
  is_keyword_line raw = false ->
  PyStr.contains ") " (PyStr.strip raw) = false ->
  parse_text_file extract_weight (pre ++ raw :: post)
  = Raise ValueError_unpack.
Proof.
  intros Hpre Hs Hk Hc. unfold parse_text_file.
  rewrite parse_lines_app, Hpre. simpl.
  rewrite (parse_line_unseparated st raw Hs Hk Hc). reflexivity.
Qed.

End ParserSkips.

(** ** The edges of the parsed graph *)

Lemma assoc_get_set_eq {A : Type} (k : Z) (a : A) (l : list (Z * A)) :
  assoc_get k (assoc_set k a l) = Some a.
Proof.
  induction l as [|[k' a'] l IH]; simpl.
  - rewrite Z.eqb_refl. reflexivity.
  - destruct (Z.eqb k k') eqn:E; simpl; rewrite E; [reflexivity|exact IH].
Qed.

Lemma assoc_get_set_ne {A : Type} (k k' : Z) (a : A) (l : list (Z * A)) :
  k' <> k -> assoc_get k' (assoc_set k a l) = assoc_get k' l.
Proof.
  intros Hne. induction l as [|[k0 a0] l IH]; simpl.
  - destruct (Z.eqb k' k) eqn:E; [apply Z.eqb_eq in E; congruence|].
    reflexivity.
  - destruct (Z.eqb k k0) eqn:E; simpl.
    + apply Z.eqb_eq in E. subst k0.
      destruct (Z.eqb k' k) eqn:E'; [apply Z.eqb_eq in E'; congruence|].
      reflexivity.
    + destruct (Z.eqb k' k0); [reflexivity|exact IH].
Qed.

Lemma assoc_get_app {A : Type} (k : Z) (l1 l2 : list (Z * A)) :
  assoc_get k (l1 ++ l2)
  = match assoc_get k l1 with
    | Some a => Some a
    | None => assoc_get k l2
    end.
Proof.
  induction l1 as [|[k' a'] l1 IH]; simpl; [reflexivity|].
  destruct (Z.eqb k k'); [reflexivity|exact IH].
Qed.

Section EdgeLookup.
Context {float : Type} {F : PyFloat float}.

Lemma assoc_get_add_node (n k : Z) (G : Graph float) :
  assoc_get k (add_node n G)
  = match assoc_get k G with
    | Some nbrs => Some nbrs
    | None => if Z.eqb k n then Some [] else None
    end.
Proof.
  unfold add_node, assoc_mem.
  destruct (assoc_get n G) as [nbrs|] eqn:E.
  - destruct (assoc_get k G) eqn:E'; [reflexivity|].
    destruct (Z.eqb k n) eqn:K; [|reflexivity].
    apply Z.eqb_eq in K. congruence.
  - rewrite assoc_get_app. simpl. reflexivity.
Qed.

Lemma edge_lookup_add_node (n : Z) (G : Graph float) (x y : Z) :
  edge_lookup (add_node n G) x y = edge_lookup G x y.
Proof.
  unfold edge_lookup. rewrite assoc_get_add_node.
  destruct (assoc_get x G); [reflexivity|].
  destruct (Z.eqb x n); reflexivity.
Qed.

Lemma edge_lookup_add_nodes_from (ns : list Z) :
  forall (G : Graph float) (x y : Z),
  edge_lookup (add_nodes_from ns G) x y = edge_lookup G x y.
Proof.
  unfold add_nodes_from.
  induction ns as [|n ns IH]; intros G x y; simpl; [reflexivity|].
  rewrite IH. apply edge_lookup_add_node.
Qed.

Lemma edge_lookup_add_edge (u v : Z) (w : float) (r : bool)
    (G : Graph float) (x y : Z) :
  edge_lookup (add_edge u v w r G) x y
  = if (Z.eqb x u && Z.eqb y v) || (Z.eqb x v && Z.eqb y u)
    then Some (updated_data u v w r G)
    else edge_lookup G x y.
Proof.
  unfold add_edge, updated_data.
  set (G1 := add_node v (add_node u G)).
  assert (HG1 : forall a b, edge_lookup G1 a b = edge_lookup G a b).
  { intros a b. unfold G1. now rewrite !edge_lookup_add_node. }
  assert (Hu : exists au, assoc_get u G1 = Some au).
  { unfold G1. rewrite !assoc_get_add_node.
    destruct (assoc_get u G); [eauto|].
    rewrite Z.eqb_refl. destruct (Z.eqb u v); eauto. }
  assert (Hv : exists av, assoc_get v G1 = Some av).
  { unfold G1. rewrite !assoc_get_add_node.
    destruct (assoc_get v G); [eauto|].
    destruct (Z.eqb v u); [eauto|]. rewrite Z.eqb_refl. eauto. }
  destruct Hu as [au Hu]. destruct Hv as [av Hv].
  rewrite Hu. simpl.
  assert (Hd : assoc_get v au = edge_lookup G u v).
  { rewrite <- HG1. unfold edge_lookup. rewrite Hu. reflexivity. }
  rewrite Hd.
  set (dd := match edge_lookup G u v with
             | Some d => mk_edge_data w r (travel_time d)
             | None => mk_edge_data w r None
             end).
  set (G2 := assoc_set u (assoc_set v dd au) G1).
  unfold edge_lookup at 1. unfold G2.
  assert (Hl : forall a b nb, assoc_get a G1 = Some nb ->
            assoc_get b nb = edge_lookup G a b).
  { intros a b nb K. rewrite <- HG1. unfold edge_lookup. now rewrite K. }
  destruct (Z.eqb x u) eqn:Exu; destruct (Z.eqb x v) eqn:Exv;
    destruct (Z.eqb y u) eqn:Eyu; destruct (Z.eqb y v) eqn:Eyv; simpl;
    repeat match goal with
    | K : Z.eqb _ _ = true |- _ => apply Z.eqb_eq in K
    | K : Z.eqb _ _ = false |- _ => apply Z.eqb_neq in K
    end; subst;
    repeat first
      [ rewrite assoc_get_set_eq
      | rewrite assoc_get_set_ne by congruence
      | rewrite Hu | rewrite Hv | progress simpl ];
    try reflexivity; try congruence;
    try (erewrite Hl by eassumption; reflexivity);
    try (rewrite <- HG1; reflexivity).
  all: unfold adjacency in *; rewrite Hv; simpl.
  all: rewrite (Hl _ _ _ Hv); reflexivity.
Qed.

End EdgeLookup.

Section ParserEdges.
Context {float : Type} {F : PyFloat float}.
Variable extract_weight : string -> float * list string.

Lemma parse_line_edge (st : parse_state float) (raw : string) (u v : Z) :
  in_edge_section (st_current_section st) = true ->
  is_keyword_line raw = false ->
  edge_line_endpoints raw = Return (u, v) ->
  parse_line extract_weight st raw
  = Return (mk_parse_state
              (add_edge u v (fst (extract_weight (edge_line_annotation raw)))
                 (required_in (st_current_section st)) (st_G st))
              (st_depots st) (st_battery_capacity st)
              (st_current_section st)
              (st_stdout st
               ++ snd (extract_weight (edge_line_annotation raw)))).
Proof.
  unfold is_keyword_line, parse_line. intros Hs Hk He.
  repeat (apply orb_false_iff in Hk; destruct Hk as [Hk ?]).
  repeat match goal with
  | K : _ = false |- _ => rewrite K; clear K
  end.
  rewrite Hs. unfold parse_edge_line, edge_line_endpoints in *.
  unfold edge_line_annotation.
  destruct (PyStr.split_max ") " 1 (PyStr.strip raw)) as [|u_v [|rest [|? ?]]];
    try discriminate.
  rewrite He. simpl. destruct (extract_weight rest) as [w printed].
  reflexivity.
Qed.

(** A line changes the attributes of no edge but the one it names. *)
Lemma parse_line_lookup (st st' : parse_state float) (raw : string)
    (x y : Z) :
  parse_line extract_weight st raw = Return st' ->
  edge_lookup (st_G st') x y = edge_lookup (st_G st) x y
  \/ edge_line_endpoints raw = Return (x, y)
  \/ edge_line_endpoints raw = Return (y, x).
Proof.
  intros H. apply parse_line_graph in H.
  destruct H as [->|[(n & _ & ->)|(u & v & w & r & He & _ & ->)]].
  - now left.
  - left. apply edge_lookup_add_nodes_from.
  - rewrite edge_lookup_add_edge.
    destruct (Z.eqb x u) eqn:E1; destruct (Z.eqb y v) eqn:E2;
      destruct (Z.eqb x v) eqn:E3; destruct (Z.eqb y u) eqn:E4; simpl;
      repeat match goal with
      | K : Z.eqb _ _ = true |- _ => apply Z.eqb_eq in K
      | K : Z.eqb _ _ = false |- _ => clear K
      end; subst; auto.
Qed.

Lemma parse_lines_lookup (lines : list string) (x y : Z) :
  forall st st',
  Forall (fun l => edge_line_endpoints l <> Return (x, y)
                   /\ edge_line_endpoints l <> Return (y, x)) lines ->
  parse_lines extract_weight st lines = Return st' ->
  edge_lookup (st_G st') x y = edge_lookup (st_G st) x y.
Proof.
  induction lines as [|raw lines IH]; intros st st' Hall H; simpl in H.
  - injection H as <-. reflexivity.
  - inv_bind H. apply Forall_cons in Hall. destruct Hall as [[H1 H2] Hall].
    rewrite (IH _ _ Hall H).
    destruct (parse_line_lookup _ _ _ x y Ha) as [K|[K|K]];
      [exact K|contradiction|contradiction].
Qed.

(** X4. An edge line [(u,v) ...] read inside an edge list gives the edge
    between [u] and [v] the weight [extract_weight] reads from its
    annotation and the flag of the list it stands in; when no later line
    names the same two endpoints, these are the attributes the returned
    graph holds for the edge, under both directions. *)
Theorem last_edge_line_decides_the_attributes (pre : list string)
    (raw : string) (post : list string) (st : parse_state float) (u v : Z)
    (G : Graph float) (ds : list Z) (c : float) :
  parse_lines extract_weight initial_state pre = Return st ->
  in_edge_section (st_current_section st) = true ->
  is_keyword_line raw = false ->
  edge_line_endpoints raw = Return (u, v) ->
  Forall (fun l => edge_line_endpoints l <> Return (u, v)
                   /\ edge_line_endpoints l <> Return (v, u)) post ->
  parse_text_file extract_weight (pre ++ raw :: post) = Return (G, ds, c) ->
  exists d,
    edge_lookup G u v = Some d
    /\ edge_lookup G v u = Some d
    /\ weight d = fst (extract_weight (edge_line_annotation raw))
    /\ required d = required_in (st_current_section st).
Proof.
  intros Hpre Hs Hk He Hpost H. unfold parse_text_file in H.
  rewrite parse_lines_app, Hpre in H. simpl in H.
  rewrite (parse_line_edge st raw u v Hs Hk He) in H. simpl in H.
  inv_bind H. destruct (st_battery_capacity a); [|discriminate].
  injection H as <- _ _.
  assert (Hpost' : Forall (fun l => edge_line_endpoints l <> Return (v, u)
                     /\ edge_line_endpoints l <> Return (u, v)) post).
  { eapply Forall_impl; [exact Hpost|]. simpl. tauto. }
  rewrite (parse_lines_lookup post u v _ _ Hpost Ha).
  rewrite (parse_lines_lookup post v u _ _ Hpost' Ha). simpl.
  rewrite !edge_lookup_add_edge, !Z.eqb_refl. simpl.
  rewrite orb_true_r.
  eexists. split; [reflexivity|]. split; [reflexivity|].
  unfold updated_data. destruct (edge_lookup (st_G st) u v); split; reflexivity.
Qed.

Lemma parse_lines_undirected (lines : list string) :
  forall st st',
  parse_lines extract_weight st lines = Return st' ->
  (forall n m, edge_lookup (st_G st) n m = edge_lookup (st_G st) m n) ->
  forall n m, edge_lookup (st_G st') n m = edge_lookup (st_G st') m n.
Proof.
  induction lines as [|raw lines IH]; intros st st' H Hsym; simpl in H.
  - injection H as <-. exact Hsym.
  - inv_bind H. apply (IH _ _ H). intros n m.
    apply parse_line_graph in Ha.
    destruct Ha as [->|[(k & _ & ->)|(u & v & w & r & _ & _ & ->)]].
    + apply Hsym.
    + rewrite !edge_lookup_add_nodes_from. apply Hsym.
    + rewrite !edge_lookup_add_edge, Hsym.
      rewrite (orb_comm (Z.eqb n u && Z.eqb m v)).
      rewrite (andb_comm (Z.eqb n v)), (andb_comm (Z.eqb n u)).
      reflexivity.
Qed.

(** X5. In a graph [parse_text_file] returns, [G[n][m]] and [G[m][n]]
    are the same for all [n] and [m] -- both absent or both the same
    attributes -- and the two endpoints of every edge are nodes. *)
Theorem parsed_graph_is_undirected (lines : list string) (G : Graph float)
    (ds : list Z) (c : float) :
  parse_text_file extract_weight lines = Return (G, ds, c) ->
  (forall n m, edge_lookup G n m = edge_lookup G m n)
  /\ (forall n m d, edge_lookup G n m = Some d ->
        In n (nodes G) /\ In m (nodes G)).
Proof.
  intros H. pose proof (parse_text_file_closed extract_weight lines G ds c H)
    as Hc.
  unfold parse_text_file in H. inv_bind H.
  destruct (st_battery_capacity a); [|discriminate].
  injection H as <- _ _.
  split.
  - apply (parse_lines_undirected _ _ _ Ha). intros n m. reflexivity.
  - intros n m d Hd. unfold edge_lookup in Hd.
    destruct (assoc_get n (st_G a)) as [nbrs|] eqn:En; [|discriminate].
    apply assoc_get_In in En. apply assoc_get_In in Hd.
    split.
    + unfold nodes. apply in_map_iff. exists (n, nbrs). auto.
    + eapply Hc; eassumption.
Qed.

End ParserEdges.

(** ** The order of the edge lines under rebalancing *)

Module RebalanceOrder.
Import Rebalance RebalanceFacts.

Lemma move_to_nonreq_app (n : nat) :
  forall req nonreq req' nonreq',
  move_to_nonreq n req nonreq = Return (req', nonreq') ->
  req' ++ nonreq' = req ++ nonreq.
Proof.
  induction n as [|n IH]; intros req nonreq req' nonreq' H; simpl in H.
  - injection H as <- <-. reflexivity.
  - unfold pop_last in H. destruct (rev req) as [|x r] eqn:Hr;
      simpl in H; [discriminate|].
    apply IH in H. rewrite H.
    assert (req = rev r ++ [x]) as ->.
    { rewrite <- (rev_involutive req), Hr. reflexivity. }
    rewrite <- app_assoc. reflexivity.
Qed.

Lemma move_to_req_app (n : nat) :
  forall req nonreq req' nonreq',
  move_to_req n req nonreq = Return (req', nonreq') ->
  req' ++ nonreq' = req ++ nonreq.
Proof.
  induction n as [|n IH]; intros req nonreq req' nonreq' H; simpl in H.
  - injection H as <- <-. reflexivity.
  - destruct nonreq as [|x nonreq].
    + injection H as <- <-. reflexivity.
    + simpl in H. apply IH in H. rewrite H, <- app_assoc. reflexivity.
Qed.

Lemma rebalance_lists_take_drop (req nonreq : list string) :
  let t := target_of (length req + length nonreq) in
  rebalance_lists req nonreq
  = Return (take t (req ++ nonreq), drop t (req ++ nonreq)).
Proof.
  intros t.
  destruct (rebalance_lists_lengths req nonreq)
    as (req' & nonreq' & E & L1 & L2).
  rewrite E. f_equal.
  assert (Happ : req' ++ nonreq' = req ++ nonreq).
  { unfold rebalance_lists in E.
    destruct (_ <? _)%nat;
      [eapply move_to_nonreq_app|eapply move_to_req_app]; exact E. }
  rewrite <- Happ. fold t in L1. rewrite <- L1.
  rewrite take_app_length, drop_app_length. reflexivity.
Qed.

(** X12. Rebalancing keeps the edge lines in their order and only moves
    the boundary between the two lists: with the required lines followed
    by the non-required lines of the input taken as one list of [n]
    lines, the new required list is its first [ceil(n / 2)] lines and the
    new non-required list the rest.  The output is the header up to the
    first required-list marker, these two lists with a
    [LIST_NON_REQUIRED_EDGES:] line between them, and the footer, each
    line passed through the rewriting of the count lines. *)
Theorem rebalance_moves_only_the_boundary (text_lines : list string) :
  let s := split_sections text_lines in
  let all_edges := req_lines s ++ nonreq_lines s in
  let t := target_of (length all_edges) in
  rebalanced_lists text_lines = Return (take t all_edges, drop t all_edges)
  /\ exists depot_count,
       rebalance_required_edges text_lines
       = Return
           (map (fix_count t (length all_edges - t)
                   (vehicles_for depot_count))
              (header_upto_marker (header s)
               ++ take t all_edges
               ++ [("LIST_NON_REQUIRED_EDGES:" ++ PyStr.nl)%string]
               ++ drop t all_edges ++ footer s),
            depot_count, vehicles_for depot_count).
Proof.
  intros s all_edges t.
  pose proof (rebalance_lists_take_drop (req_lines s) (nonreq_lines s)) as E.
  rewrite <- length_app in E. fold all_edges t in E.
  split; [exact E|].
  unfold rebalance_required_edges. fold s. rewrite E. simpl.
  pose proof (target_of_bounds (length all_edges)) as B. fold t in B.
  rewrite length_take, length_drop.
  replace (t `min` length all_edges)%nat with t by lia.
  eexists. reflexivity.
Qed.

(** X13. Every [NUMBER OF REQUIRED_EDGES:] line of the output carries
    [ceil(n / 2)] and every [NUMBER OF NON_REQUIRED_EDGES:] line
    [n - ceil(n / 2)], where [n] is the number of edge lines of the
    input. *)
Theorem rebalance_writes_the_counts_of_its_lists (text_lines fixed : list string)
    (depot_count vehicle_count : nat) :
  rebalance_required_edges text_lines
  = Return (fixed, depot_count, vehicle_count) ->
  let s := split_sections text_lines in
  let total := (length (req_lines s) + length (nonreq_lines s))%nat in
  forall l, In l fixed ->
    (PyStr.startswith "NUMBER OF REQUIRED_EDGES:" (PyStr.strip l) = true ->
     l = count_line "NUMBER OF REQUIRED_EDGES:" (target_of total))
    /\ (PyStr.startswith "NUMBER OF NON_REQUIRED_EDGES:" (PyStr.strip l) = true ->
        l = count_line "NUMBER OF NON_REQUIRED_EDGES:"
              (total - target_of total)).
Proof.
  intros H s total l Hl.
  unfold rebalance_required_edges in H. fold s in H.
  destruct (rebalance_lists_lengths (req_lines s) (nonreq_lines s))
    as (req & nonreq & E & L1 & L2).
  rewrite E in H. simpl in H. injection H as <- <- <-.
  fold total in L1, L2.
  apply in_map_iff in Hl. destruct Hl as (l0 & <- & _).
  replace (total - target_of total)%nat with (length nonreq) by lia.
  rewrite <- L1.
  unfold fix_count.
  destruct (PyStr.startswith "NUMBER OF REQUIRED_EDGES:" (PyStr.strip l0))
    eqn:E1.
  { split; [reflexivity|].
    rewrite (LineFacts.startswith_strip_unspaced
               "NUMBER OF NON_REQUIRED_EDGES:"
               (count_line "NUMBER OF REQUIRED_EDGES:" (length req))
               eq_refl eq_refl).
    discriminate. }
  destruct (PyStr.startswith "NUMBER OF NON_REQUIRED_EDGES:" (PyStr.strip l0))
    eqn:E2.
  { split; [|reflexivity].
    rewrite (LineFacts.startswith_strip_unspaced
               "NUMBER OF REQUIRED_EDGES:"
               (count_line "NUMBER OF NON_REQUIRED_EDGES:" (length nonreq))
               eq_refl eq_refl).
    discriminate. }
  destruct (PyStr.startswith "NUMBER OF VEHICLES:" (PyStr.strip l0)) eqn:E3.
  { split.
    - rewrite (LineFacts.startswith_strip_unspaced
                 "NUMBER OF REQUIRED_EDGES:"
                 (count_line "NUMBER OF VEHICLES:" _) eq_refl eq_refl).
      discriminate.
    - rewrite (LineFacts.startswith_strip_unspaced
                 "NUMBER OF NON_REQUIRED_EDGES:"
                 (count_line "NUMBER OF VEHICLES:" _) eq_refl eq_refl).
      discriminate. }
  split; congruence.
Qed.

End RebalanceOrder.

(** ** The report of [process_all] *)

Module ProcessAllFacts.
Import Rebalance RebalanceFacts ProcessAll.

Lemma index_where_none (p : string -> bool) (l : list string) :
  Forall (fun x => p x = false) l -> index_where p l = None.
Proof.
  induction 1 as [|x l Hx _ IH]; simpl; [reflexivity|].
  rewrite Hx, IH. reflexivity.
Qed.

Lemma index_where_app_none (p : string -> bool) (l1 l2 : list string) :
  Forall (fun x => p x = false) l1 ->
  index_where p (l1 ++ l2)
  = option_map (fun j => (length l1 + j)%nat) (index_where p l2).
Proof.
  induction 1 as [|x l Hx _ IH]; simpl.
  - destruct (index_where p l2); reflexivity.
  - rewrite Hx, IH. destruct (index_where p l2); reflexivity.
Qed.

Lemma index_where_app_hit (p : string -> bool) (l1 : list string)
    (x : string) (l2 : list string) :
  Forall (fun x => p x = false) l1 -> p x = true ->
  index_where p (l1 ++ x :: l2) = Some (length l1).
Proof.
  intros H1 Hx. rewrite (index_where_app_none p l1 _ H1). simpl.
  rewrite Hx. simpl. f_equal. lia.
Qed.

Lemma index_where_app_miss (p : string -> bool) (l1 : list string)
    (x : string) (l2 : list string) :
  Forall (fun x => p x = false) l1 -> p x = false ->
  Forall (fun x => p x = false) l2 ->
  index_where p (l1 ++ x :: l2) = None.
Proof.
  intros H1 Hx H2. apply index_where_none.
  apply Forall_app. split; [exact H1|]. constructor; assumption.
Qed.

Lemma slice_middle (a b c : list string) :
  slice (length a) (length a + length b) (a ++ b ++ c) = b.
Proof.
  unfold slice. rewrite drop_app_length.
  replace (length a + length b - length a)%nat with (length b) by lia.
  apply take_app_length.
Qed.

Lemma index_where_map (p : string -> bool) (f : string -> string)
    (l : list string) :
  (forall x, p (f x) = p x) ->
  index_where p (map f l) = index_where p l.
Proof.
  intros Hf. induction l as [|x l IH]; simpl; [reflexivity|].
  rewrite Hf, IH. reflexivity.
Qed.

Lemma prefix_refl (s : string) : String.prefix s s = true.
Proof.
  induction s as [|a s IH]; simpl; [reflexivity|].
  destruct (ascii_dec a a); [exact IH|congruence].
Qed.

Lemma exactly_prefix (K l : string) :
  PyStr.startswith K (PyStr.strip l) = false -> is_exactly K l = false.
Proof.
  unfold is_exactly, PyStr.startswith. intros H.
  destruct (String.eqb (PyStr.strip l) K) eqn:E; [|reflexivity].
  apply String.eqb_eq in E. rewrite E, prefix_refl in H. discriminate.
Qed.

Lemma M_not_N (l : string) : is_required_marker l = true -> is_nonrequired_marker l = false.
Proof.
  unfold is_required_marker, is_nonrequired_marker, PyStr.startswith. intros H.
  expose_prefix H. rewrite H. reflexivity.
Qed.

Lemma edge_not_marker (l : string) :
  is_edge_line l = true -> is_required_marker l = false /\ is_nonrequired_marker l = false.
Proof.
  unfold is_edge_line, is_required_marker, is_nonrequired_marker, PyStr.startswith. intros H.
  expose_prefix H. rewrite H. split; reflexivity.
Qed.

Lemma classify_sorted_out (st : sections) (l : string) :
  sorted_out st -> sorted_out (classify st l).
Proof.
  intros (H1 & H2 & H3 & H4). unfold classify.
  destruct (PyStr.startswith "LIST_REQUIRED_EDGES:" (PyStr.strip l)) eqn:EM.
  { repeat split; simpl; try assumption.
    apply Forall_app. split; [exact H1|].
    constructor; [|constructor]. apply M_not_N. exact EM. }
  destruct (PyStr.startswith "LIST_NON_REQUIRED_EDGES:" (PyStr.strip l))
    eqn:EN.
  { repeat split; simpl; assumption. }
  assert (Hh : Forall (fun l => is_nonrequired_marker l = false) (header st ++ [l])).
  { apply Forall_app. split; [exact H1|]. constructor; [exact EN|constructor]. }
  assert (Hf : Forall (fun l => is_required_marker l = false /\ is_nonrequired_marker l = false)
                 (footer st ++ [l])).
  { apply Forall_app. split; [exact H4|]. constructor; [|constructor].
    split; assumption. }
  destruct (PyStr.endswith ":" (PyStr.strip l) && in_edge_block (section st)).
  { repeat split; simpl; assumption. }
  destruct (section st) as [[| |]|]; simpl.
  - destruct (PyStr.startswith "(" (PyStr.strip l)) eqn:EE;
      repeat split; simpl; try assumption.
    apply Forall_app. split; [exact H2|]. constructor; [exact EE|constructor].
  - destruct (PyStr.startswith "(" (PyStr.strip l)) eqn:EE;
      repeat split; simpl; try assumption.
    apply Forall_app. split; [exact H3|]. constructor; [exact EE|constructor].
  - repeat split; simpl; assumption.
  - repeat split; simpl; assumption.
Qed.

Lemma fold_sorted_out (lines : list string) :
  forall st, sorted_out st -> sorted_out (fold_left classify lines st).
Proof.
  induction lines as [|l lines IH]; intros st H; [exact H|].
  simpl. apply IH, classify_sorted_out, H.
Qed.

Lemma classify_header (st : sections) (l : string) :
  (is_required_marker l = true /\ header (classify st l) = header st ++ [l])
  \/ (is_required_marker l = false
      /\ (header (classify st l) = header st
          \/ header (classify st l) = header st ++ [l])).
Proof.
  unfold classify, is_required_marker.
  destruct (PyStr.startswith "LIST_REQUIRED_EDGES:" (PyStr.strip l));
    [left; auto|right; split; [reflexivity|]].
  destruct (PyStr.startswith "LIST_NON_REQUIRED_EDGES:" (PyStr.strip l));
    [left; reflexivity|].
  destruct (PyStr.endswith ":" (PyStr.strip l) && in_edge_block (section st));
    [left; reflexivity|].
  destruct (section st) as [[| |]|]; simpl; auto;
    destruct (PyStr.startswith "(" (PyStr.strip l)); simpl; auto.
Qed.

Lemma header_grows (lines : list string) :
  forall st, exists more,
    header (fold_left classify lines st) = header st ++ more.
Proof.
  induction lines as [|l lines IH]; intros st; simpl.
  - exists []. now rewrite app_nil_r.
  - destruct (IH (classify st l)) as [more E]. rewrite E.
    destruct (classify_header st l) as [[_ ->]|[_ [->| ->]]].
    + exists (l :: more). now rewrite <- app_assoc.
    + eauto.
    + exists (l :: more). now rewrite <- app_assoc.
Qed.

Lemma header_upto_marker_free (h : list string) :
  Forall (fun l => is_required_marker l = false) h ->
  header_upto_marker h = h.
Proof.
  induction 1 as [|l h Hl _ IH]; simpl; [reflexivity|].
  unfold is_required_marker in Hl. rewrite Hl, IH. reflexivity.
Qed.

Lemma header_upto_marker_at (h : list string) (l : string)
    (more : list string) :
  Forall (fun l => is_required_marker l = false) h ->
  is_required_marker l = true ->
  header_upto_marker (h ++ l :: more) = h ++ [l].
Proof.
  intros Hh Hl. induction Hh as [|x h Hx _ IH]; simpl.
  - unfold is_required_marker in Hl. rewrite Hl. reflexivity.
  - unfold is_required_marker in Hx. rewrite Hx, IH. reflexivity.
Qed.

Lemma header_upto_marker_Forall (P : string -> Prop) (h : list string) :
  Forall P h -> Forall P (header_upto_marker h).
Proof.
  induction 1 as [|x h Hx _ IH]; simpl; [constructor|].
  destruct (PyStr.startswith _ _); constructor; auto.
Qed.

Lemma header_first_marker (lines : list string) :
  forall st,
  Forall (fun l => is_required_marker l = false) (header st) ->
  match find is_required_marker lines with
  | Some l0 =>
      exists h,
        header_upto_marker (header (fold_left classify lines st)) = h ++ [l0]
        /\ Forall (fun l => is_required_marker l = false) h
        /\ is_required_marker l0 = true
  | None =>
      Forall (fun l => is_required_marker l = false)
        (header_upto_marker (header (fold_left classify lines st)))
  end.
Proof.
  induction lines as [|l lines IH]; intros st Hst; simpl.
  - rewrite header_upto_marker_free by exact Hst. exact Hst.
  - destruct (classify_header st l) as [[Hl E]|[Hl E]]; rewrite Hl.
    + destruct (header_grows lines (classify st l)) as [more Em].
      rewrite Em, E, <- app_assoc. simpl.
      exists (header st). split; [|split; assumption].
      apply header_upto_marker_at; assumption.
    + apply IH. destruct E as [->| ->]; [exact Hst|].
      apply Forall_app. split; [exact Hst|]. constructor; [exact Hl|constructor].
Qed.

Lemma exactly_fix_count (a b c : nat) (x : string) :
  is_exactly "LIST_REQUIRED_EDGES:" (fix_count a b c x)
  = is_exactly "LIST_REQUIRED_EDGES:" x
  /\ is_exactly "LIST_NON_REQUIRED_EDGES:" (fix_count a b c x)
     = is_exactly "LIST_NON_REQUIRED_EDGES:" x.
Proof.
  unfold fix_count.
  destruct (PyStr.startswith "NUMBER OF REQUIRED_EDGES:" (PyStr.strip x))
    eqn:E1.
  { unfold PyStr.startswith in E1. expose_prefix E1.
    unfold is_exactly at 2 4. rewrite E1. split.
    - rewrite exactly_prefix; [reflexivity|].
      apply LineFacts.startswith_strip_unspaced; reflexivity.
    - rewrite exactly_prefix; [reflexivity|].
      apply LineFacts.startswith_strip_unspaced; reflexivity. }
  destruct (PyStr.startswith "NUMBER OF NON_REQUIRED_EDGES:" (PyStr.strip x))
    eqn:E2.
  { unfold PyStr.startswith in E2. expose_prefix E2.
    unfold is_exactly at 2 4. rewrite E2. split.
    - rewrite exactly_prefix; [reflexivity|].
      apply LineFacts.startswith_strip_unspaced; reflexivity.
    - rewrite exactly_prefix; [reflexivity|].
      apply LineFacts.startswith_strip_unspaced; reflexivity. }
  destruct (PyStr.startswith "NUMBER OF VEHICLES:" (PyStr.strip x)) eqn:E3.
  { unfold PyStr.startswith in E3. expose_prefix E3.
    unfold is_exactly at 2 4. rewrite E3. split.
    - rewrite exactly_prefix; [reflexivity|].
      apply LineFacts.startswith_strip_unspaced; reflexivity.
    - rewrite exactly_prefix; [reflexivity|].
      apply LineFacts.startswith_strip_unspaced; reflexivity. }
  split; reflexivity.
Qed.

Lemma fix_count_edge (a b c : nat) (x : string) :
  is_edge_line x = true -> fix_count a b c x = x.
Proof.
  unfold is_edge_line, fix_count, PyStr.startswith. intros H.
  expose_prefix H. rewrite H. reflexivity.
Qed.

Lemma map_fix_count_edges (a b c : nat) (l : list string) :
  Forall (fun x => is_edge_line x = true) l -> map (fix_count a b c) l = l.
Proof.
  induction 1 as [|x l Hx _ IH]; simpl; [reflexivity|].
  rewrite (fix_count_edge a b c x Hx), IH. reflexivity.
Qed.

Lemma filter_edges (l : list string) :
  Forall (fun x => is_edge_line x = true) l ->
  List.filter (fun l => PyStr.startswith "(" (PyStr.strip l)) l = l.
Proof.
  induction 1 as [|x l Hx _ IH]; simpl; [reflexivity|].
  unfold is_edge_line in Hx. rewrite Hx, IH. reflexivity.
Qed.

(** X15. For a file that exists, [process_all] writes the lines
    [rebalance_required_edges] returns and then reports: when the first
    line of the input that starts, once stripped, with
    [LIST_REQUIRED_EDGES:] is exactly that marker, the message gives
    [ceil(n / 2)] required edges and the vehicle count the rebalancing
    returned; when there is no such line, or the line holds more than the
    marker, [next] finds nothing and raises [StopIteration] -- after the
    file has been written. *)
Theorem process_all_reports_the_target (inst : string) (i : Z)
    (lines : list string) :
  let s := split_sections lines in
  let t := target_of (length (req_lines s) + length (nonreq_lines s)) in
  exists fixed depot_count vehicle_count,
    rebalance_required_edges lines
    = Return (fixed, depot_count, vehicle_count)
    /\ process_instance inst i lines
       = Return (fixed,
                 match find is_required_marker lines with
                 | Some l0 =>
                     if is_exactly "LIST_REQUIRED_EDGES:" l0
                     then Printed (message inst i t vehicle_count)
                     else StopIteration
                 | None => StopIteration
                 end).
Proof.
  intros s t.
  pose proof (RebalanceOrder.rebalance_lists_take_drop
                (req_lines s) (nonreq_lines s)) as E.
  fold t in E. simpl in E.
  set (all_edges := req_lines s ++ nonreq_lines s) in *.
  assert (Hso : sorted_out s).
  { apply fold_sorted_out. repeat split; constructor. }
  destruct Hso as (S1 & S2 & S3 & S4).
  assert (Hall : Forall (fun x => is_edge_line x = true) all_edges)
    by (apply Forall_app; split; assumption).
  set (req := take t all_edges) in *.
  set (nonreq := drop t all_edges) in *.
  assert (Hreq : Forall (fun x => is_edge_line x = true) req)
    by (apply Forall_take; exact Hall).
  assert (Hnonreq : Forall (fun x => is_edge_line x = true) nonreq)
    by (apply Forall_drop; exact Hall).
  assert (Hlen : length req = t).
  { unfold req. rewrite length_take.
    pose proof (target_of_bounds (length (req_lines s)
                                  + length (nonreq_lines s))) as B.
    fold t in B. unfold all_edges. rewrite length_app. lia. }
  unfold process_instance, rebalance_required_edges. fold s. rewrite E.
  simpl.
  set (out := rebuild (header s) req nonreq (footer s)).
  set (dc := count_depots out).
  set (fx := fix_count (length req) (length nonreq) (vehicles_for dc)).
  exists (map fx out), dc, (vehicles_for dc).
  split; [reflexivity|].
  rewrite !index_where_map
    by (intros x; apply (exactly_fix_count _ _ _ x)).
  assert (HN : is_exactly "LIST_NON_REQUIRED_EDGES:"
                 ("LIST_NON_REQUIRED_EDGES:" ++ PyStr.nl)%string = true)
    by reflexivity.
  assert (HeM : forall l, Forall (fun x => is_edge_line x = true) l ->
            Forall (fun x => is_exactly "LIST_REQUIRED_EDGES:" x = false) l).
  { intros l Hl. eapply Forall_impl; [exact Hl|]. simpl. intros x Hx.
    apply exactly_prefix. apply edge_not_marker in Hx. apply Hx. }
  assert (HeN : forall l, Forall (fun x => is_edge_line x = true) l ->
            Forall (fun x => is_exactly "LIST_NON_REQUIRED_EDGES:" x = false)
              l).
  { intros l Hl. eapply Forall_impl; [exact Hl|]. simpl. intros x Hx.
    apply exactly_prefix. apply edge_not_marker in Hx. apply Hx. }
  assert (Htail : Forall
            (fun x => is_exactly "LIST_REQUIRED_EDGES:" x = false)
            (req ++ [("LIST_NON_REQUIRED_EDGES:" ++ PyStr.nl)%string]
             ++ nonreq ++ footer s)).
  { apply Forall_app. split; [apply HeM, Hreq|].
    apply Forall_app. split; [constructor; [reflexivity|constructor]|].
    apply Forall_app. split; [apply HeM, Hnonreq|].
    eapply Forall_impl; [exact S4|]. simpl. intros x [Hx _].
    apply exactly_prefix. exact Hx. }
  assert (HhN : Forall
            (fun x => is_exactly "LIST_NON_REQUIRED_EDGES:" x = false)
            (header_upto_marker (header s))).
  { apply header_upto_marker_Forall.
    eapply Forall_impl; [exact S1|]. simpl. intros x Hx.
    apply exactly_prefix. exact Hx. }
  pose proof (header_first_marker lines (mk_sections [] [] [] [] None)
                (Forall_nil_2 _)) as Hfm.
  fold (split_sections lines) in Hfm. fold s in Hfm.
  unfold out, rebuild.
  set (Nline := ("LIST_NON_REQUIRED_EDGES:" ++ PyStr.nl)%string) in *.
  destruct (find is_required_marker lines) as [l0|].
  - destruct Hfm as (h & Eh & Hh & Hl0).
    rewrite Eh in *.
    assert (HhM : Forall
              (fun x => is_exactly "LIST_REQUIRED_EDGES:" x = false) h).
    { eapply Forall_impl; [exact Hh|]. simpl. intros x Hx.
      apply exactly_prefix. exact Hx. }
    assert (Eout : (h ++ [l0]) ++ req ++ [Nline] ++ nonreq ++ footer s
                   = h ++ l0 :: req ++ Nline :: nonreq ++ footer s).
    { rewrite <- app_assoc. reflexivity. }
    assert (Eout' : (h ++ [l0]) ++ req ++ [Nline] ++ nonreq ++ footer s
                    = ((h ++ [l0]) ++ req) ++ Nline :: nonreq ++ footer s).
    { rewrite <- (app_assoc (h ++ [l0]) req). reflexivity. }
    destruct (is_exactly "LIST_REQUIRED_EDGES:" l0) eqn:El0.
    + rewrite Eout at 1.
      rewrite (index_where_app_hit _ h l0 _ HhM El0).
      rewrite Eout' at 1.
      rewrite (index_where_app_hit _ ((h ++ [l0]) ++ req) Nline).
      2:{ apply Forall_app. split; [exact HhN|apply HeN, Hreq]. }
      2:{ exact HN. }
      do 3 f_equal. f_equal; [|unfold vehicles_for;
                                destruct (dc =? 1)%nat; reflexivity].
      rewrite !map_app.
      replace (length h + 1)%nat with (length (map fx h ++ map fx [l0]))
        by (rewrite length_app, !length_map; reflexivity).
      replace (length ((h ++ [l0]) ++ req))
        with (length (map fx h ++ map fx [l0]) + length (map fx req))%nat
        by (rewrite !length_app, !length_map; reflexivity).
      rewrite slice_middle.
      unfold fx. rewrite map_fix_count_edges by exact Hreq.
      rewrite filter_edges by exact Hreq. exact Hlen.
    + rewrite Eout at 1.
      rewrite (index_where_app_miss _ h l0
                 (req ++ Nline :: nonreq ++ footer s) HhM El0 Htail).
      reflexivity.
  - rewrite index_where_none; [reflexivity|].
    apply Forall_app. split; [|exact Htail].
    eapply Forall_impl; [exact Hfm|]. simpl. intros x Hx.
    apply exactly_prefix. exact Hx.
Qed.

End ProcessAllFacts.

(** ** Parsing what [update_gdb_with_third_radius] writes *)

Module GdbFacts.
Import PyStr StrPred StringFacts LineFacts.

(** [strip] keeps a prefix that neither starts nor ends with a space. *)
Lemma rstrip_keeps_prefix (P : string) (c : ascii) (t : string) :
  is_space c = false ->
  exists r, rstrip_with is_space ((P ++ String c "") ++ t)%string
            = ((P ++ String c "") ++ r)%string.
Proof.
  intros Hc. induction P as [|a P [r IH]].
  - exists (rstrip_with is_space t).
    change (("" ++ String c "") ++ t)%string with (String c t).
    rewrite (rstrip_with_head _ _ _ Hc). reflexivity.
  - exists r. rewrite !SplitFacts.append_String.
    simpl rstrip_with. rewrite IH.
    destruct ((P ++ String c "") ++ r)%string eqn:E; [|reflexivity].
    destruct P; discriminate E.
Qed.

Lemma startswith_strip_keeps (a : ascii) (P : string) (c : ascii)
    (l : string) :
  is_space a = false -> is_space c = false ->
  startswith (String a (P ++ String c "")) l = true ->
  startswith (String a (P ++ String c "")) (strip l) = true.
Proof.
  intros Ha Hc H. unfold startswith in *. expose_prefix H. subst l.
  unfold strip, strip_with.
  rewrite SplitFacts.append_String, (lstrip_with_head _ _ _ Ha).
  destruct (rstrip_keeps_prefix (String a P) c t Hc) as [r E].
  change (String a ((P ++ String c "") ++ t))%string
    with ((String a P ++ String c "") ++ t)%string.
  rewrite E. apply (prefix_app (String a P ++ String c "")).
Qed.

Lemma keeps_unstripped_keeps (l : string) :
  keeps_unstripped l = false -> keeps l = false.
Proof.
  unfold keeps_unstripped, keeps. intros H.
  apply andb_false_iff in H. rewrite !negb_false_iff in H.
  apply andb_false_iff. rewrite !negb_false_iff.
  destruct H as [H|H].
  - left. exact (startswith_strip_keeps "D" "EPOT" ":" l eq_refl eq_refl H).
  - right.
    pose proof (startswith_strip_keeps "N" "UMBER OF VEHICLES" ":" l
                  eq_refl eq_refl H) as K.
    unfold startswith in *. expose_prefix K. rewrite K. reflexivity.
Qed.

Lemma capacity_not_marker (l : string) :
  startswith "VEHICLE CAPACITY" l = true -> is_section_marker l = false.
Proof.
  intros H.
  pose proof (startswith_strip_keeps "V" "EHICLE CAPACIT" "Y" l
                eq_refl eq_refl H) as K.
  unfold is_section_marker, startswith in *. expose_prefix K. rewrite K.
  reflexivity.
Qed.

Lemma capacity_in_header_spec (lines : list string) :
  capacity_in_header lines = true ->
  forall pre cl post,
  lines = pre ++ cl :: post ->
  startswith "VEHICLE CAPACITY" cl = true ->
  Forall (fun x => is_section_marker x = false) pre.
Proof.
  induction lines as [|l lines IH]; intros H pre cl post E Hcl.
  - destruct pre; discriminate E.
  - destruct pre as [|x pre]; [constructor|].
    injection E as <- E. simpl in H.
    destruct (is_section_marker l) eqn:Em.
    + exfalso. rewrite forallb_forall in H.
      specialize (H cl). rewrite Hcl in H.
      assert (In cl lines) by (rewrite E; apply in_or_app; right; now left).
      specialize (H H0). discriminate.
    + constructor; [exact Em|]. eapply IH; eassumption.
Qed.

Lemma filter_split (f : string -> bool) (l : list string) :
  forall a x b,
  List.filter f l = a ++ x :: b ->
  exists pre post,
    l = pre ++ x :: post /\ a = List.filter f pre /\ b = List.filter f post.
Proof.
  induction l as [|y l IH]; intros a x b H; simpl in H.
  - destruct a; discriminate H.
  - destruct (f y) eqn:Ey.
    + destruct a as [|a0 a].
      * injection H as -> H. exists [], l. simpl. auto.
      * injection H as -> H. destruct (IH _ _ _ H) as (pre & post & -> & -> & ->).
        exists (a0 :: pre), post. simpl. rewrite Ey. auto.
    + destruct (IH _ _ _ H) as (pre & post & -> & -> & ->).
      exists (y :: pre), post. simpl. rewrite Ey. auto.
Qed.

Lemma insert_after_capacity_spec (v : string) (l : list string) :
  insert_after_capacity v l = l
  \/ exists a cl b,
       l = a ++ cl :: b
       /\ startswith "VEHICLE CAPACITY" cl = true
       /\ insert_after_capacity v l = a ++ cl :: v :: b.
Proof.
  induction l as [|x l IH]; simpl; [now left|].
  destruct (startswith "VEHICLE CAPACITY" x) eqn:E.
  - right. exists [], x, l. auto.
  - destruct IH as [->|(a & cl & b & -> & Hcl & ->)]; [now left|].
    right. exists (x :: a), cl, b. auto.
Qed.

Lemma insert_before_edge_spec (d : string) (l : list string) :
  (Forall (fun x => startswith "(" (strip x) = false) l
   /\ insert_before_edge d l = l)
  \/ exists a e b,
       l = a ++ e :: b /\ insert_before_edge d l = a ++ d :: e :: b.
Proof.
  induction l as [|x l IH]; simpl; [left; split; [constructor|reflexivity]|].
  destruct (startswith "(" (strip x)) eqn:E.
  - right. exists [], x, l. auto.
  - destruct IH as [[H ->]|(a & e & b & -> & ->)].
    + left. split; [constructor; assumption|reflexivity].
    + right. exists (x :: a), e, b. auto.
Qed.

End GdbFacts.

Section GdbRoundTrip.
Context {float : Type} {F : PyFloat float}.
Variable extract_weight : string -> float * list string.

Lemma parse_filtered_lines (keep : string -> bool) (lines : list string) :
  (forall l, keep l = false -> keeps l = false) ->
  forall st st' st1,
  same_but_depots st st' ->
  parse_lines extract_weight st lines = Return st1 ->
  exists st1',
    parse_lines extract_weight st' (List.filter keep lines) = Return st1'
    /\ same_but_depots st1 st1'.
Proof.
  intros Hkeep.
  induction lines as [|raw lines IH]; intros st st' st1 Hs H; simpl in H.
  - injection H as <-. exists st'. split; [reflexivity|exact Hs].
  - inv_bind H. simpl. destruct (keep raw) eqn:Hk.
    + destruct (parse_line_same extract_weight _ _ _ _ Hs Ha)
        as (a' & Ea & Hs').
      simpl. rewrite Ea. simpl. apply (IH _ _ _ Hs' H).
    + apply (IH a st' st1); [|exact H].
      apply dropped_line_same in Ha; [|apply Hkeep, Hk].
      eapply same_but_depots_trans; [|exact Hs].
      destruct Ha as (H1 & H2 & H3 & H4). repeat split; congruence.
Qed.

Lemma parse_lines_same (lines : list string) :
  forall st st' st1,
  same_but_depots st st' ->
  parse_lines extract_weight st lines = Return st1 ->
  exists st1',
    parse_lines extract_weight st' lines = Return st1'
    /\ same_but_depots st1 st1'.
Proof.
  induction lines as [|raw lines IH]; intros st st' st1 Hs H; simpl in H.
  - injection H as <-. exists st'. split; [reflexivity|exact Hs].
  - inv_bind H.
    destruct (parse_line_same extract_weight _ _ _ _ Hs Ha) as (a' & Ea & Hs').
    simpl. rewrite Ea. simpl. apply (IH _ _ _ Hs' H).
Qed.

Lemma parse_line_section (st st' : parse_state float) (raw : string) :
  is_section_marker raw = false ->
  parse_line extract_weight st raw = Return st' ->
  st_current_section st' = st_current_section st.
Proof.
  unfold is_section_marker, parse_line. intros Hm H.
  apply orb_false_iff in Hm. destruct Hm as [Hm H3].
  apply orb_false_iff in Hm. destruct Hm as [H1 H2].
  rewrite H1, H2, H3 in H.
  repeat match type of H with
  | (if ?b then _ else _) = _ => destruct b
  end; try (injection H as <-; reflexivity).
  - inv_bind H. injection H as <-. reflexivity.
  - inv_bind H. injection H as <-. reflexivity.
  - inv_bind H. injection H as <-. reflexivity.
  - unfold parse_edge_line in H.
    destruct (PyStr.split_max ") " 1 (PyStr.strip raw)) as [|u_v [|rest [|? ?]]];
      try discriminate.
    inv_bind H. destruct a as [u v]. destruct (extract_weight rest).
    injection H as <-. reflexivity.
Qed.

Lemma parse_lines_section (lines : list string) :
  forall st st',
  Forall (fun x => is_section_marker x = false) lines ->
  parse_lines extract_weight st lines = Return st' ->
  st_current_section st' = st_current_section st.
Proof.
  induction lines as [|raw lines IH]; intros st st' Hall H; simpl in H.
  - injection H as <-. reflexivity.
  - inv_bind H. apply Forall_cons in Hall. destruct Hall as [Hraw Hall].
    rewrite (IH _ _ Hall H). apply (parse_line_section _ _ _ Hraw Ha).
Qed.

(** A line the parser leaves the state at can be put in anywhere after
    the lines that lead to that state. *)
Lemma parse_lines_insert (a b : list string) (x : string)
    (st sa st1 : parse_state float) :
  parse_lines extract_weight st a = Return sa ->
  parse_line extract_weight sa x = Return sa ->
  parse_lines extract_weight st (a ++ b) = Return st1 ->
  parse_lines extract_weight st (a ++ x :: b) = Return st1.
Proof.
  intros Ha Hx H. rewrite parse_lines_app, Ha in *. simpl in *.
  rewrite Hx. simpl. exact H.
Qed.

End GdbRoundTrip.

Section GdbTheorem.
Context {float : Type} {F : PyFloat float}.
Import GdbFacts.

Lemma insert_after_capacity_In (v : string) (l : list string) (x : string) :
  (In x (insert_after_capacity v l) -> x = v \/ In x l)
  /\ (In x l -> In x (insert_after_capacity v l)).
Proof.
  induction l as [|y l [IH1 IH2]]; simpl; [tauto|].
  destruct (PyStr.startswith "VEHICLE CAPACITY" y); simpl;
    intuition congruence.
Qed.

Lemma edge_line_kept (l : string) :
  PyStr.startswith "(" (PyStr.strip l) = true -> keeps_unstripped l = true.
Proof.
  intros H. destruct (keeps_unstripped l) eqn:E; [reflexivity|].
  apply keeps_unstripped_keeps in E. unfold keeps in E.
  unfold PyStr.startswith in *. expose_prefix H. rewrite H in E.
  discriminate E.
Qed.

(** The list of lines [update_gdb_with_third_radius] hands to
    [writelines] parses to the same graph and capacity as its input. *)
Lemma parse_of_third_radius_lines
    (lines : list string) (p : placement) (G : Graph float) (ds : list Z)
    (c : float) :
  concat (map splitlines_keepends lines) = lines ->
  capacity_in_header lines = true ->
  parse_text_file extract_weight_balanced lines = Return (G, ds, c) ->
  update_gdb_instance lines = Return p ->
  new_depots p <> ∅ ->
  exists ds',
    parse_text_file extract_weight_balanced (written p)
    = Return (G, ds', c)
    /\ (forallb (fun l => implb (is_depot_line l)
                            (PyStr.startswith "DEPOT:" l)) lines = true ->
        existsb (fun l => PyStr.startswith "(" (PyStr.strip l)) lines = true ->
        ds' = sorted (new_depots p)).
Proof.
  intros Hsl Hcap Hparse Hupd Hne.
  unfold update_gdb_instance in Hupd. rewrite Hparse in Hupd. simpl in Hupd.
  inv_bind Hupd. injection Hupd as <-. simpl in *. rename a into sel.
  rewrite Hsl. clear Hsl Ha.
  change (List.filter _ lines) with (List.filter keeps_unstripped lines).
  set (filtered := List.filter keeps_unstripped lines).
  set (v := vehicle_line (size sel)). set (d := depot_line sel).
  unfold parse_text_file in Hparse. inv_bind Hparse. rename a into st.
  destruct (st_battery_capacity st) as [c0|] eqn:Ec; [|discriminate].
  injection Hparse as <- _ <-.
  destruct (parse_filtered_lines extract_weight_balanced keeps_unstripped
              lines keeps_unstripped_keeps _ _ _
              (same_but_depots_refl initial_state) Ha)
    as (stf & Ef & Hsf).
  fold filtered in Ef.
  (* the vehicle line goes where the section is still [None] *)
  assert (Hl2 : parse_lines extract_weight_balanced initial_state
                  (insert_after_capacity v filtered) = Return stf).
  { destruct (insert_after_capacity_spec v filtered)
      as [->|(a1 & cl & b1 & Efilt & Hcl & ->)]; [exact Ef|].
    destruct (filter_split _ _ _ _ _ Efilt) as (pre & post & El & -> & ->).
    pose proof (capacity_in_header_spec lines Hcap _ _ _ El Hcl) as Hpre.
    assert (Hhead : Forall (fun x => is_section_marker x = false)
                      (List.filter keeps_unstripped pre ++ [cl])).
    { apply Forall_app. split.
      - apply List.Forall_forall. intros x Hx. apply filter_In in Hx.
        rewrite List.Forall_forall in Hpre. apply Hpre, Hx.
      - constructor; [apply capacity_not_marker, Hcl|constructor]. }
    rewrite Efilt in Ef.
    change (List.filter keeps_unstripped pre
            ++ cl :: List.filter keeps_unstripped post)
      with (List.filter keeps_unstripped pre
            ++ [cl] ++ List.filter keeps_unstripped post) in Ef.
    rewrite app_assoc in Ef.
    change (List.filter keeps_unstripped pre
            ++ cl :: v :: List.filter keeps_unstripped post)
      with (List.filter keeps_unstripped pre
            ++ [cl] ++ v :: List.filter keeps_unstripped post).
    rewrite app_assoc.
    pose proof Ef as Ef'. rewrite parse_lines_app in Ef'. inv_bind Ef'.
    rename a into sc.
    pose proof (parse_lines_section extract_weight_balanced _ _ _ Hhead Ha0)
      as Hsec.
    apply (parse_lines_insert extract_weight_balanced _ _ _ _ sc _ Ha0);
      [|exact Ef].
    apply vehicle_line_parses. rewrite Hsec. reflexivity. }
  assert (Hv : is_depot_line v = false).
  { unfold is_depot_line, v.
    apply LineFacts.startswith_strip_unspaced; reflexivity. }
  assert (Hkept : forall x, In x (insert_after_capacity v filtered) ->
            forallb (fun l => implb (is_depot_line l)
                                (PyStr.startswith "DEPOT:" l)) lines = true ->
            is_depot_line x = false).
  { intros x Hx Hall. apply insert_after_capacity_In in Hx.
    destruct Hx as [->|Hx]; [exact Hv|].
    apply filter_In in Hx. destruct Hx as [Hx Hk].
    rewrite forallb_forall in Hall. specialize (Hall x Hx).
    unfold keeps_unstripped in Hk. apply andb_true_iff in Hk.
    destruct Hk as [Hk _]. apply negb_true_iff in Hk. rewrite Hk in Hall.
    destruct (is_depot_line x); [discriminate|reflexivity]. }
  destruct (insert_before_edge_spec d (insert_after_capacity v filtered))
    as [[Hnoedge ->]|(a2 & e & b2 & El2 & ->)].
  - exists (st_depots stf). split.
    + unfold parse_text_file. rewrite Hl2. simpl.
      destruct Hsf as (K1 & K2 & _). simpl in K1, K2.
      rewrite <- K2, Ec, <- K1. reflexivity.
    + intros _ Hex. exfalso. apply existsb_exists in Hex.
      destruct Hex as (x & Hx & Hedge).
      rewrite List.Forall_forall in Hnoedge.
      rewrite (Hnoedge x) in Hedge; [discriminate|].
      apply insert_after_capacity_In. apply filter_In.
      split; [exact Hx|apply edge_line_kept, Hedge].
  - rewrite El2 in Hl2. rewrite parse_lines_app in Hl2. inv_bind Hl2.
    rename a into sa2.
    pose proof (depot_line_parses extract_weight_balanced sa2 sel Hne) as Hd.
    fold d in Hd.
    destruct (parse_lines_same extract_weight_balanced (e :: b2) sa2
                (mk_parse_state (st_G sa2) (sorted sel)
                   (st_battery_capacity sa2) (st_current_section sa2)
                   (st_stdout sa2)) stf)
      as (stw & Ew & Hsw); [repeat split|exact Hl2|].
    exists (st_depots stw). split.
    + unfold parse_text_file. rewrite parse_lines_app, Ha0. simpl.
      rewrite Hd. simpl. simpl in Ew. rewrite Ew. simpl.
      destruct Hsf as (K1 & K2 & _), Hsw as (J1 & J2 & _).
      simpl in *. rewrite <- J2, <- K2, Ec, <- J1, <- K1. reflexivity.
    + intros Hall _.
      assert (Hrest : Forall (fun raw => is_depot_line raw = false)
                        (e :: b2)).
      { apply List.Forall_forall. intros x Hx. apply Hkept; [|exact Hall].
        rewrite El2. apply in_or_app. right. exact Hx. }
      rewrite (parse_lines_depots_absent extract_weight_balanced
                 (e :: b2) _ _ Hrest Ew).
      reflexivity.
Qed.

(** The lines written for a text read as whole lines are whole lines, so
    the file is read back line by line as it was written. *)
Lemma reread_third_radius (lines : list string) (p : placement) :
  Forall (fun l => StrPred.is_line l = true) lines ->
  concat (map splitlines_keepends lines) = lines ->
  update_gdb_instance lines = Return p ->
  readlines (writelines (written p)) = written p.
Proof.
  intros Hl Hsl Hupd. unfold update_gdb_instance in Hupd.
  inv_bind Hupd. destruct a as [[G ds] c]. inv_bind Hupd.
  injection Hupd as <-. simpl. rewrite Hsl.
  apply TextFacts.readlines_writelines.
  set (v := vehicle_line (size a)). set (d := depot_line a).
  assert (Hv : Forall (fun l => StrPred.is_line l = true)
                 (insert_after_capacity v
                    (List.filter
                       (fun l => negb (PyStr.startswith "DEPOT:" l)
                                 && negb (PyStr.startswith
                                            "NUMBER OF VEHICLES:" l))
                       lines))).
  { apply List.Forall_forall. intros x Hx.
    apply insert_after_capacity_In in Hx. destruct Hx as [->|Hx].
    - apply TextFacts.vehicle_line_is_line.
    - apply filter_In in Hx. rewrite List.Forall_forall in Hl.
      apply Hl, Hx. }
  destruct (GdbFacts.insert_before_edge_spec d
              (insert_after_capacity v
                 (List.filter
                    (fun l => negb (PyStr.startswith "DEPOT:" l)
                              && negb (PyStr.startswith
                                         "NUMBER OF VEHICLES:" l))
                    lines)))
    as [[_ ->]|(a2 & e & b2 & El & ->)]; [exact Hv|].
  rewrite El in Hv. apply Forall_app in Hv. destruct Hv as [H1 H2].
  apply Forall_app. split; [exact H1|].
  constructor; [apply TextFacts.depot_line_is_line|exact H2].
Qed.

(** X17. The file [update_gdb_with_third_radius] writes, read again,
    parses to the same graph and capacity as its input, provided the
    text read ends with a newline, its lines hold no line boundary but
    their final newline, no line starting with [VEHICLE CAPACITY] comes
    after a section marker, and a depot was selected.  When in addition
    every depot line of the input starts with [DEPOT:] and the input has
    an edge line, the depots read back are the selected ones in
    increasing order. *)
Theorem parse_of_third_radius_output_gives_same_graph
    (text : string) (lines : list string) (p : placement)
    (G : Graph float) (ds : list Z) (c : float) :
  readlines text = lines ->
  PyStr.endswith PyStr.nl (read text) = true ->
  concat (map splitlines_keepends lines) = lines ->
  capacity_in_header lines = true ->
  parse_text_file extract_weight_balanced lines = Return (G, ds, c) ->
  update_gdb_instance lines = Return p ->
  new_depots p <> ∅ ->
  exists ds',
    parse_text_file extract_weight_balanced
      (readlines (writelines (written p)))
    = Return (G, ds', c)
    /\ (forallb (fun l => implb (is_depot_line l)
                            (PyStr.startswith "DEPOT:" l)) lines = true ->
        existsb (fun l => PyStr.startswith "(" (PyStr.strip l)) lines = true ->
        ds' = sorted (new_depots p)).
Proof.
  intros Hr Hnl Hsl Hcap Hparse Hupd Hne.
  rewrite (reread_third_radius lines p); [|subst lines|exact Hsl|exact Hupd].
  - exact (parse_of_third_radius_lines lines p G ds c
             Hsl Hcap Hparse Hupd Hne).
  - apply TextFacts.readlines_lines, Hnl.
Qed.

End GdbTheorem.

(** ** Rebalancing what [update_all_instances] writes *)

Module TokenFacts.
Import PyStr StrPred SplitFacts StringFacts LineFacts.

Lemma numeric_not_sep (c : ascii) :
  is_numeric c = true -> negb (is_sep c) = true.
Proof.
  destruct c as [[|] [|] [|] [|] [|] [|] [|] [|]]; vm_compute; congruence.
Qed.

Lemma re_split_unsep (x : string) :
  all_chars (fun c => negb (is_sep c)) x = true ->
  re_split_go false x = [x].
Proof.
  induction x as [|c x IH]; [reflexivity|]. simpl. intros H.
  apply andb_true_iff in H. destruct H as [Hc Hx].
  apply negb_true_iff in Hc. rewrite Hc, (IH Hx). reflexivity.
Qed.

Lemma re_split_app_comma (x rest : string) :
  all_chars (fun c => negb (is_sep c)) x = true ->
  re_split_go false (x ++ String "," rest)%string
  = x :: re_split_go true rest.
Proof.
  induction x as [|c x IH]; intros H.
  - reflexivity.
  - simpl in H. apply andb_true_iff in H. destruct H as [Hc Hx].
    apply negb_true_iff in Hc. rewrite append_String.
    simpl re_split_go. rewrite Hc, (IH Hx). reflexivity.
Qed.

Lemma re_split_go_head (b : bool) (c : ascii) (r : string) :
  is_sep c = false ->
  re_split_go b (String c r) = re_split_go false (String c r).
Proof. intros H. simpl. rewrite H. reflexivity. Qed.

Lemma re_split_join (l : list string) :
  l <> [] ->
  Forall (fun x => all_chars (fun c => negb (is_sep c)) x = true
                   /\ x <> EmptyString) l ->
  re_split_seps (join "," l) = l.
Proof.
  unfold re_split_seps, join. induction l as [|x l IH]; [congruence|].
  intros _ H. apply Forall_cons in H. destruct H as [[Hx _] Hl].
  destruct l as [|y l].
  - simpl. apply re_split_unsep. exact Hx.
  - change (String.concat "," (x :: y :: l))
      with (x ++ String "," (String.concat "," (y :: l)))%string.
    rewrite (re_split_app_comma _ _ Hx). f_equal.
    pose proof Hl as Hl'. apply Forall_cons in Hl'.
    destruct Hl' as [[Hy Hyne] _].
    assert (Hhead : exists c r, String.concat "," (y :: l) = String c r
                                /\ is_sep c = false).
    { destruct y as [|c y]; [congruence|].
      simpl in Hy. apply andb_true_iff in Hy. destruct Hy as [Hc _].
      apply negb_true_iff in Hc.
      destruct l; simpl; eauto. }
    destruct Hhead as (c & r & E & Hc).
    rewrite E, (re_split_go_head true c r Hc), <- E.
    apply IH; [discriminate|exact Hl].
Qed.

Lemma length_sorted (ds : gset Z) : length (sorted ds) = size ds.
Proof.
  unfold sorted.
  rewrite (Permutation_length (merge_sort_Permutation Z.le (elements ds))).
  reflexivity.
Qed.

Lemma depot_tokens_depot_line (ds : gset Z) :
  length (Rebalance.depot_tokens (depot_line ds)) = size ds.
Proof.
  destruct (decide (ds = ∅)) as [->|Hne]; [reflexivity|].
  pose proof (sorted_nonempty ds Hne) as Hs.
  rewrite <- length_sorted.
  unfold Rebalance.depot_tokens, depot_line.
  set (l := sorted ds) in *. set (J := join "," (map str l)).
  assert (Hnum : Forall (fun x => all_chars is_numeric x = true)
                   (map str l)).
  { apply List.Forall_forall. intros x Hx.
    apply in_map_iff in Hx. destruct Hx as (z & <- & _).
    apply str_numeric. }
  assert (Hsp : all_chars (fun c => negb (is_space c)) J = true).
  { apply all_chars_join; [reflexivity|].
    eapply Forall_impl; [exact Hnum|]. intros x Hx.
    eapply all_chars_impl; [|exact Hx]. apply numeric_not_space. }
  assert (HJ : exists c J', J = String c J' /\ is_space c = false).
  { unfold J. destruct l as [|z l']; [congruence|].
    pose proof (str_nonempty z) as Hz.
    pose proof (str_numeric z) as Hn.
    unfold join. simpl.
    destruct (str z) as [|c s] eqn:Ez; [congruence|].
    simpl in Hn. apply andb_true_iff in Hn. destruct Hn as [Hc _].
    apply numeric_not_space, negb_true_iff in Hc.
    destruct (map str l'); simpl; eauto. }
  change (split_max ":" 1 ("DEPOT: " ++ J ++ nl)%string)
    with ["DEPOT"; String " " (J ++ nl)%string].
  cbn [nth].
  assert (Estrip : strip (String " " (J ++ nl)) = J).
  { unfold strip, strip_with.
    change (lstrip_with is_space (String " " (J ++ nl)))
      with (lstrip_with is_space (J ++ nl)%string).
    destruct HJ as (c & J' & E & Hc).
    rewrite E at 1. rewrite append_String, (lstrip_with_head _ _ _ Hc).
    rewrite <- append_String, <- E. apply rstrip_app_nl. exact Hsp. }
  rewrite Estrip. unfold J.
  rewrite re_split_join.
  - assert (Hf : List.filter nonempty (map str l) = map str l).
    { clear. induction l as [|z l IH]; [reflexivity|]. simpl.
      pose proof (str_nonempty z). destruct (str z); [congruence|].
      simpl. rewrite IH. reflexivity. }
    rewrite Hf, length_map. reflexivity.
  - destruct l; [congruence|discriminate].
  - apply List.Forall_forall. intros x Hx.
    apply in_map_iff in Hx. destruct Hx as (z & <- & _).
    split; [|apply str_nonempty].
    eapply all_chars_impl; [|apply str_numeric]. apply numeric_not_sep.
Qed.

End TokenFacts.

Module PipelineFacts.
Import Rebalance RebalanceFacts ProcessAll ProcessAllFacts.

Lemma count_depots_at (A : list string) (d : string) (B : list string) :
  Forall (fun l => is_depot_line l = false) A ->
  is_depot_line d = true ->
  count_depots (A ++ d :: B) = length (depot_tokens d).
Proof.
  intros HA Hd. induction HA as [|x A Hx _ IH]; simpl.
  - unfold is_depot_line in Hd. rewrite Hd. reflexivity.
  - unfold is_depot_line in Hx. rewrite Hx. exact IH.
Qed.

Lemma classify_Forall (P : string -> Prop) (st : sections) (l : string) :
  P l ->
  Forall P (header st) /\ Forall P (req_lines st)
  /\ Forall P (nonreq_lines st) /\ Forall P (footer st) ->
  Forall P (header (classify st l)) /\ Forall P (req_lines (classify st l))
  /\ Forall P (nonreq_lines (classify st l))
  /\ Forall P (footer (classify st l)).
Proof.
  intros Hl (H1 & H2 & H3 & H4). unfold classify.
  assert (Forall P [l]) by (constructor; [exact Hl|constructor]).
  repeat match goal with
  | |- context [if ?b then _ else _] => destruct b
  | |- context [match section st with _ => _ end] =>
      destruct (section st) as [[| |]|]
  end; simpl; repeat split; try assumption;
    apply Forall_app; split; assumption.
Qed.

Lemma split_sections_Forall (P : string -> Prop) (lines : list string) :
  forall st,
  Forall P lines ->
  Forall P (header st) /\ Forall P (req_lines st)
  /\ Forall P (nonreq_lines st) /\ Forall P (footer st) ->
  let s := fold_left classify lines st in
  Forall P (header s) /\ Forall P (req_lines s)
  /\ Forall P (nonreq_lines s) /\ Forall P (footer s).
Proof.
  induction lines as [|l lines IH]; intros st Hall Hst; [exact Hst|].
  apply Forall_cons in Hall. destruct Hall as [Hl Hall]. simpl.
  apply IH; [exact Hall|]. apply classify_Forall; assumption.
Qed.

(** Before the first marker the header holds no required-list marker. *)
Lemma classify_unmarked (st : sections) (l : string) :
  (section st = None ->
   Forall (fun l => is_required_marker l = false) (header st)) ->
  section (classify st l) = None ->
  Forall (fun l => is_required_marker l = false) (header (classify st l)).
Proof.
  unfold classify, is_required_marker. intros Hst.
  destruct (PyStr.startswith "LIST_REQUIRED_EDGES:" (PyStr.strip l)) eqn:EM;
    [discriminate|].
  destruct (PyStr.startswith "LIST_NON_REQUIRED_EDGES:" (PyStr.strip l));
    [discriminate|].
  destruct (PyStr.endswith ":" (PyStr.strip l) && in_edge_block (section st));
    [discriminate|].
  destruct (section st) as [[| |]|] eqn:Es; simpl;
    try (destruct (PyStr.startswith "(" (PyStr.strip l)); simpl);
    rewrite ?Es; intros E; try discriminate E.
  all: apply Forall_app; split; [apply Hst; reflexivity|].
  all: constructor; [exact EM|constructor].
Qed.

Lemma fold_unmarked (lines : list string) :
  forall st,
  (section st = None ->
   Forall (fun l => is_required_marker l = false) (header st)) ->
  section (fold_left classify lines st) = None ->
  Forall (fun l => is_required_marker l = false)
    (header (fold_left classify lines st)).
Proof.
  induction lines as [|l lines IH]; intros st Hst; [exact Hst|].
  simpl. apply IH. apply classify_unmarked. exact Hst.
Qed.

Lemma classify_plain (st : sections) (l : string) :
  is_required_marker l = false ->
  is_nonrequired_marker l = false ->
  in_edge_block (section st) = false ->
  classify st l
  = match section st with
    | None =>
        mk_sections (header st ++ [l]) (req_lines st) (nonreq_lines st)
          (footer st) (section st)
    | _ =>
        mk_sections (header st) (req_lines st) (nonreq_lines st)
          (footer st ++ [l]) (section st)
    end.
Proof.
  unfold classify, is_required_marker, is_nonrequired_marker.
  intros -> -> Hb. rewrite Hb, andb_false_r.
  destruct (section st) as [[| |]|]; try discriminate; reflexivity.
Qed.

End PipelineFacts.

Module Pipeline.
Import Rebalance RebalanceFacts ProcessAll ProcessAllFacts PipelineFacts.

Lemma vehicle_line_kinds (n : nat) :
  is_required_marker (vehicle_line n) = false
  /\ is_nonrequired_marker (vehicle_line n) = false
  /\ is_depot_line (vehicle_line n) = false
  /\ forall a b c,
       fix_count a b c (vehicle_line n) = count_line "NUMBER OF VEHICLES:" c.
Proof.
  repeat split;
    try (apply LineFacts.startswith_strip_unspaced; reflexivity).
  intros a b c. unfold fix_count.
  rewrite (LineFacts.startswith_strip_unspaced "NUMBER OF REQUIRED_EDGES:"
             (vehicle_line n) eq_refl eq_refl).
  rewrite (LineFacts.startswith_strip_unspaced
             "NUMBER OF NON_REQUIRED_EDGES:" (vehicle_line n)
             eq_refl eq_refl).
  assert (K : PyStr.startswith "NUMBER OF VEHICLES:"
                 (PyStr.strip (vehicle_line n)) = true)
    by exact (GdbFacts.startswith_strip_keeps "N" "UMBER OF VEHICLES" ":"
                (vehicle_line n) eq_refl eq_refl eq_refl).
  rewrite K. reflexivity.
Qed.

Lemma depot_line_kinds (ds : gset Z) :
  is_required_marker (depot_line ds) = false
  /\ is_nonrequired_marker (depot_line ds) = false
  /\ is_depot_line (depot_line ds) = true.
Proof.
  repeat split;
    try (apply LineFacts.startswith_strip_unspaced; reflexivity).
  exact (GdbFacts.startswith_strip_keeps "D" "EPOT" ":" (depot_line ds)
           eq_refl eq_refl eq_refl).
Qed.

Lemma rebalance_of_serialized (lines : list string) (ds : gset Z) :
  in_edge_block (section (split_sections (List.filter keeps lines))) = false ->
  exists fixed,
    rebalance_required_edges (serialize lines ds)
    = Return (fixed, size ds, vehicles_for (size ds))
    /\ In (count_line "NUMBER OF VEHICLES:" (vehicles_for (size ds))) fixed.
Proof.
  intros Hb. unfold serialize.
  set (kept := List.filter keeps lines) in *.
  set (v := vehicle_line (size ds)). set (d := depot_line ds).
  destruct (vehicle_line_kinds (size ds)) as (V1 & V2 & V3 & V4).
  destruct (depot_line_kinds ds) as (D1 & D2 & D3).
  fold v in V1, V2, V3, V4. fold d in D1, D2, D3.
  assert (Hkept : Forall (fun l => is_depot_line l = false) kept).
  { apply List.Forall_forall. intros x Hx. apply filter_In in Hx.
    destruct Hx as [_ Hk]. unfold keeps in Hk.
    apply andb_true_iff in Hk. destruct Hk as [Hk _].
    apply negb_true_iff in Hk. exact Hk. }
  set (s0 := split_sections kept) in *.
  destruct (split_sections_Forall _ kept (mk_sections [] [] [] [] None) Hkept)
    as (K1 & K2 & K3 & K4); [repeat split; constructor|].
  fold (split_sections kept) in K1, K2, K3, K4. fold s0 in K1, K2, K3, K4.
  pose proof (fold_unmarked kept (mk_sections [] [] [] [] None)
                (fun _ => Forall_nil_2 _)) as Hun.
  fold (split_sections kept) in Hun. fold s0 in Hun.
  unfold rebalance_required_edges, split_sections.
  rewrite fold_left_app. fold (split_sections kept). fold s0. simpl fold_left.
  rewrite (classify_plain s0 v V1 V2 Hb).
  assert (Hb' : in_edge_block
                  (section
                     match section s0 with
                     | None =>
                         mk_sections (header s0 ++ [v]) (req_lines s0)
                           (nonreq_lines s0) (footer s0) (section s0)
                     | _ =>
                         mk_sections (header s0) (req_lines s0)
                           (nonreq_lines s0) (footer s0 ++ [v]) (section s0)
                     end) = false).
  { destruct (section s0) as [[| |]|] eqn:Es; simpl; rewrite ?Es;
      try discriminate Hb; reflexivity. }
  rewrite (classify_plain _ d D1 D2 Hb').
  destruct (rebalance_lists_lengths (req_lines s0) (nonreq_lines s0))
    as (req & nonreq & E & _ & _).
  pose proof (RebalanceOrder.rebalance_lists_take_drop
                (req_lines s0) (nonreq_lines s0)) as Etd.
  simpl in Etd. rewrite E in Etd. injection Etd as Ereq Enonreq.
  assert (Hall : Forall (fun l => is_depot_line l = false)
                   (req_lines s0 ++ nonreq_lines s0))
    by (apply Forall_app; split; assumption).
  assert (Hreq : Forall (fun l => is_depot_line l = false) req)
    by (rewrite Ereq; apply Forall_take, Hall).
  assert (Hnonreq : Forall (fun l => is_depot_line l = false) nonreq)
    by (rewrite Enonreq; apply Forall_drop, Hall).
  assert (Hout : exists A B,
            rebuild
              (header
                 match section s0 with
                 | None =>
                     mk_sections ((header s0 ++ [v]) ++ [d]) (req_lines s0)
                       (nonreq_lines s0) (footer s0) (section s0)
                 | _ =>
                     mk_sections (header s0) (req_lines s0)
                       (nonreq_lines s0) ((footer s0 ++ [v]) ++ [d])
                       (section s0)
                 end) req nonreq
              (footer
                 match section s0 with
                 | None =>
                     mk_sections ((header s0 ++ [v]) ++ [d]) (req_lines s0)
                       (nonreq_lines s0) (footer s0) (section s0)
                 | _ =>
                     mk_sections (header s0) (req_lines s0)
                       (nonreq_lines s0) ((footer s0 ++ [v]) ++ [d])
                       (section s0)
                 end)
            = A ++ d :: B
            /\ Forall (fun l => is_depot_line l = false) A /\ In v A).
  { unfold rebuild.
    destruct (section s0) as [[| |]|] eqn:Es; try discriminate Hb; simpl.
    - exists (header_upto_marker (header s0) ++ req
              ++ [("LIST_NON_REQUIRED_EDGES:" ++ PyStr.nl)%string]
              ++ nonreq ++ footer s0 ++ [v]), [].
      split; [|split].
      + rewrite <- !app_assoc. reflexivity.
      + repeat (apply Forall_app; split);
          try assumption; try (constructor; [|constructor]);
          try reflexivity; try exact V3.
        apply header_upto_marker_Forall. exact K1.
      + repeat (apply in_or_app; right). now left.
    - specialize (Hun eq_refl).
      rewrite header_upto_marker_free.
      2:{ repeat (apply Forall_app; split); try exact Hun;
            constructor; try constructor; assumption. }
      exists (header s0 ++ [v]),
        (req ++ [("LIST_NON_REQUIRED_EDGES:" ++ PyStr.nl)%string]
         ++ nonreq ++ footer s0).
      split; [|split].
      + rewrite <- !app_assoc. reflexivity.
      + apply Forall_app. split; [exact K1|].
        constructor; [exact V3|constructor].
      + apply in_or_app. right. now left. }
  assert (Ereb : forall st,
            req_lines st = req_lines s0 -> nonreq_lines st = nonreq_lines s0 ->
            rebalance_lists (req_lines st) (nonreq_lines st)
            = Return (req, nonreq)) by (intros st -> ->; exact E).
  destruct (section s0) as [[| |]|] eqn:Es; try discriminate Hb;
    simpl in *; rewrite E; simpl;
    destruct Hout as (A & B & -> & HA & Hv);
    rewrite (count_depots_at A d B HA D3);
    unfold d; rewrite TokenFacts.depot_tokens_depot_line;
    (eexists; split; [reflexivity|]);
    apply in_map_iff; exists v;
    (split; [apply V4|apply in_or_app; left; exact Hv]).
Qed.

End Pipeline.

Section PipelineTheorem.
Context {float : Type} {F : PyFloat float}.

(** X16. [update_all_instances] followed by the rebalancing, which reads
    the file the former wrote: when the text read ends with a newline
    and the lines kept from it do not end inside an edge list,
    rebalancing the lines of the written file counts as many depots as
    were selected, sets the vehicle count to 2 for one depot and to the
    number of depots otherwise, and writes that count on the
    [NUMBER OF VEHICLES:] line. *)
Theorem rebalancing_after_selection_counts_the_selected_depots
    (text : string) (lines : list string) (p : placement) :
  readlines text = lines ->
  PyStr.endswith PyStr.nl (read text) = true ->
  update_instance lines = Return p ->
  Rebalance.in_edge_block
    (Rebalance.section
       (Rebalance.split_sections (List.filter keeps lines))) = false ->
  exists fixed,
    Rebalance.rebalance_required_edges (readlines (writelines (written p)))
    = Return (fixed, size (new_depots p),
              Rebalance.vehicles_for (size (new_depots p)))
    /\ In (Rebalance.count_line "NUMBER OF VEHICLES:"
             (Rebalance.vehicles_for (size (new_depots p)))) fixed.
Proof.
  intros Hr Hnl H Hb. unfold update_instance in H. inv_bind H.
  destruct a as [[G ds] c]. inv_bind H. injection H as <-. simpl.
  rewrite TextFacts.reread_serialized
    by (rewrite <- Hr; apply TextFacts.readlines_lines, Hnl).
  apply Pipeline.rebalance_of_serialized. exact Hb.
Qed.

End PipelineTheorem.

(** ** What the coverage map holds *)

Section CoverageMap.
Context {float : Type} {F : PyFloat float}.

(** X6. The map [compute_coverage] returns has exactly the nodes of the
    graph as keys; the set of a node holds exactly the nodes for which
    the search from it returned a distance, which is [0] for the node
    itself and not above the radius otherwise; and when the adjacency
    lists name only nodes of the graph, every set holds only nodes. *)
Theorem coverage_map_holds_the_reach_of_every_node (G : Graph float)
    (radius : float) (coverage : gmap Z (gset Z)) :
  compute_coverage G radius = Return coverage ->
  (forall n, is_Some (coverage !! n) <-> In n (nodes G))
  /\ (forall n s, coverage !! n = Some s ->
        forall m, m ∈ s <-> within_reach G radius n m)
  /\ (closed G ->
      forall n s m, coverage !! n = Some s -> m ∈ s -> In m (nodes G)).
Proof.
  intros E.
  destruct (compute_coverage_from_result G radius radius (nodes G) ∅)
    as [_ Hres].
  destruct (Hres coverage E) as (C1 & _ & C3).
  { intros k s H. rewrite lookup_empty in H. discriminate. }
  { auto. }
  split; [|split].
  - intros n. split; [|apply C1].
    intros [s Hs].
    apply (compute_coverage_entries G radius coverage n s E Hs).
  - intros n s Hs m. apply (coverage_reach G radius coverage n m s E Hs).
  - intros Hc n s m Hs Hm.
    destruct (C3 n s Hs) as [_ Hsub].
    destruct (Hsub m Hm) as [K|(k & nbrs & d & K1 & K2)]; [exact K|].
    eapply Hc; eassumption.
Qed.

End CoverageMap.

Section Neighbours.
Context {float : Type} {F : PyFloat float}.
Variable G : Graph float.
Variable cutoff : float.

Lemma relax_pushes (d_v : float) (nbrs : adjacency float) :
  forall st st',
  relax cutoff d_v nbrs st = Return st' ->
  seen_is_pending st ->
  seen_is_pending st'
  /\ (forall e, In e (fringe st) -> In e (fringe st'))
  /\ forall m e, In (m, e) nbrs ->
       fltb cutoff (fadd d_v (edge_cost e)) = false ->
       is_Some (dist st' !! m)
       \/ exists x, In x (fringe st') /\ entry_node x = m.
Proof.
  induction nbrs as [|[u e] rest IH]; intros st st' H J; simpl in H.
  - injection H as <-. split; [exact J|]. split; [auto|]. intros m e [].
  - destruct (fltb cutoff (fadd d_v (edge_cost e))) eqn:Ecut.
    { destruct (IH _ _ H J) as (J' & Hfr & Hn).
      split; [exact J'|]. split; [exact Hfr|].
      intros m e0 [[= -> ->]|Hin] Hc; [congruence|eauto]. }
    destruct (dist st !! u) as [ud|] eqn:Ed.
    { destruct (fltb (fadd d_v (edge_cost e)) ud); [discriminate|].
      destruct (IH _ _ H J) as (J' & Hfr & Hn).
      split; [exact J'|]. split; [exact Hfr|].
      intros m e0 [[= -> ->]|Hin] Hc; [|eauto].
      left. pose proof (relax_shape cutoff d_v rest st) as [_ Hs].
      destruct (Hs st' H) as [Hd _]. rewrite Hd, Ed. eauto. }
    destruct (seen st !! u) as [s|] eqn:Es.
    + destruct (fltb (fadd d_v (edge_cost e)) s) eqn:Ecl.
      * apply IH in H.
        -- destruct H as (J' & Hfr & Hn).
           split; [exact J'|]. split.
           ++ intros x Hx. apply Hfr. simpl. now right.
           ++ intros m e0 [[= -> ->]|Hin] Hc; [|eauto].
              right. eexists. split; [apply Hfr; simpl; left; reflexivity|].
              reflexivity.
        -- intros k Hk. simpl in *.
           destruct (decide (k = u)) as [->|Hne].
           ++ right. eexists. split; [left; reflexivity|reflexivity].
           ++ rewrite lookup_insert_ne in Hk by congruence.
              destruct (J k Hk) as [K|(x & K1 & K2)]; [now left|].
              right. exists x. split; [now right|exact K2].
      * destruct (IH _ _ H J) as (J' & Hfr & Hn).
        split; [exact J'|]. split; [exact Hfr|].
        intros m e0 [[= -> ->]|Hin] Hc; [|eauto].
        destruct (J m) as [K|(x & K1 & K2)]; [rewrite Es; eauto| |].
        -- rewrite Ed in K. destruct K; discriminate.
        -- right. exists x. split; [apply Hfr, K1|exact K2].
    + apply IH in H.
      * destruct H as (J' & Hfr & Hn).
        split; [exact J'|]. split.
        -- intros x Hx. apply Hfr. simpl. now right.
        -- intros m e0 [[= -> ->]|Hin] Hc; [|eauto].
           right. eexists. split; [apply Hfr; simpl; left; reflexivity|].
           reflexivity.
      * intros k Hk. simpl in *.
        destruct (decide (k = u)) as [->|Hne].
        -- right. eexists. split; [left; reflexivity|reflexivity].
        -- rewrite lookup_insert_ne in Hk by congruence.
           destruct (J k Hk) as [K|(x & K1 & K2)]; [now left|].
           right. exists x. split; [now right|exact K2].
Qed.

Lemma dijkstra_reaches_neighbours (source : Z) (lengths : gmap Z float)
    (nbrs : adjacency float) (m : Z) (e : edge_data float) :
  single_source_dijkstra_path_length G source cutoff = Return lengths ->
  assoc_get source G = Some nbrs ->
  In (m, e) nbrs ->
  fltb cutoff (fadd (float_of_Z 0) (edge_cost e)) = false ->
  is_Some (lengths !! m).
Proof.
  unfold single_source_dijkstra_path_length, assoc_mem.
  intros H Hn Hin Hc. rewrite Hn in H.
  unfold dijkstra_fuel in H. simpl in H. rewrite Hn in H. simpl in H.
  destruct (relax cutoff (float_of_Z 0) nbrs _) as [st1|x|] eqn:Er;
    simpl in H; try discriminate.
  apply relax_pushes in Er.
  - destruct Er as (_ & _ & Hpush).
    destruct (dijkstra_loop_keeps G cutoff _ _ _ H) as (K1 & K2 & _).
    destruct (Hpush m e Hin Hc) as [K|(x & Kx & <-)].
    + apply K1, K.
    + apply K2, Kx.
  - intros u Hu. simpl in *. left.
    destruct (decide (u = source)) as [->|Hne].
    + rewrite lookup_insert_eq. eauto.
    + rewrite lookup_singleton_ne in Hu by congruence.
      destruct Hu; discriminate.
Qed.

End Neighbours.

Section NeighbourTheorem.
Context {float : Type} {F : PyFloat float}.

(** X7. A neighbour [m] of [n] whose edge cost, added to the distance
    [0] of [n], is not above the radius is in the coverage set of [n]. *)
Theorem neighbours_within_the_radius_are_covered (G : Graph float)
    (radius : float) (coverage : gmap Z (gset Z)) (n : Z)
    (nbrs : adjacency float) (m : Z) (e : edge_data float) :
  compute_coverage G radius = Return coverage ->
  assoc_get n G = Some nbrs ->
  In (m, e) nbrs ->
  fltb radius (fadd (float_of_Z 0) (edge_cost e)) = false ->
  exists s, coverage !! n = Some s /\ m ∈ s.
Proof.
  intros E Hn Hin Hc.
  destruct (compute_coverage_from_result G radius radius (nodes G) ∅)
    as [_ Hres].
  destruct (Hres coverage E) as (C1 & _ & _).
  { intros k s H. rewrite lookup_empty in H. discriminate. }
  { auto. }
  assert (Hnode : In n (nodes G)).
  { unfold nodes. apply in_map_iff. exists (n, nbrs).
    split; [reflexivity|]. apply assoc_get_In. exact Hn. }
  destruct (C1 n Hnode) as [s Hs]. exists s. split; [exact Hs|].
  destruct (compute_coverage_entries G radius coverage n s E Hs)
    as (_ & lengths & El & ->).
  apply elem_of_dom.
  apply (dijkstra_reaches_neighbours G radius n lengths nbrs m e El Hn Hin Hc).
Qed.

End NeighbourTheorem.

(** ** Rebalancing a rebalanced file *)

Module IdempotenceFacts.
Import Rebalance RebalanceFacts ProcessAll ProcessAllFacts PipelineFacts.

Lemma count_line_kinds (K : string) (n : nat) :
  K = "NUMBER OF REQUIRED_EDGES:" \/ K = "NUMBER OF NON_REQUIRED_EDGES:"
  \/ K = "NUMBER OF VEHICLES:" ->
  is_required_marker (count_line K n) = false
  /\ is_nonrequired_marker (count_line K n) = false
  /\ is_depot_line (count_line K n) = false
  /\ forall a b c,
       fix_count a b c (count_line K n)
       = count_line K (if String.eqb K "NUMBER OF REQUIRED_EDGES:" then a
                       else if String.eqb K "NUMBER OF NON_REQUIRED_EDGES:"
                            then b else c).
Proof.
  intros [->|[->| ->]]; repeat split;
    try (apply LineFacts.startswith_strip_unspaced; reflexivity);
    intros a b c; unfold fix_count.
  - assert (K : PyStr.startswith "NUMBER OF REQUIRED_EDGES:"
                  (PyStr.strip (count_line "NUMBER OF REQUIRED_EDGES:" n))
                = true)
      by exact (GdbFacts.startswith_strip_keeps "N"
                  "UMBER OF REQUIRED_EDGES" ":"
                  (count_line "NUMBER OF REQUIRED_EDGES:" n)
                  eq_refl eq_refl eq_refl).
    rewrite K. reflexivity.
  - rewrite (LineFacts.startswith_strip_unspaced "NUMBER OF REQUIRED_EDGES:"
               (count_line "NUMBER OF NON_REQUIRED_EDGES:" n)
               eq_refl eq_refl).
    assert (K : PyStr.startswith "NUMBER OF NON_REQUIRED_EDGES:"
                  (PyStr.strip
                     (count_line "NUMBER OF NON_REQUIRED_EDGES:" n))
                = true)
      by exact (GdbFacts.startswith_strip_keeps "N"
                  "UMBER OF NON_REQUIRED_EDGES" ":"
                  (count_line "NUMBER OF NON_REQUIRED_EDGES:" n)
                  eq_refl eq_refl eq_refl).
    rewrite K. reflexivity.
  - rewrite (LineFacts.startswith_strip_unspaced "NUMBER OF REQUIRED_EDGES:"
               (count_line "NUMBER OF VEHICLES:" n) eq_refl eq_refl).
    rewrite (LineFacts.startswith_strip_unspaced
               "NUMBER OF NON_REQUIRED_EDGES:"
               (count_line "NUMBER OF VEHICLES:" n) eq_refl eq_refl).
    assert (K : PyStr.startswith "NUMBER OF VEHICLES:"
                  (PyStr.strip (count_line "NUMBER OF VEHICLES:" n))
                = true)
      by exact (GdbFacts.startswith_strip_keeps "N" "UMBER OF VEHICLES" ":"
                  (count_line "NUMBER OF VEHICLES:" n)
                  eq_refl eq_refl eq_refl).
    rewrite K. reflexivity.
Qed.

Lemma fix_count_plain (a b c : nat) (x : string) :
  is_count_line x = false -> fix_count a b c x = x.
Proof.
  unfold is_count_line, fix_count. intros H.
  apply orb_false_iff in H. destruct H as [H H3].
  apply orb_false_iff in H. destruct H as [H1 H2].
  rewrite H1, H2, H3. reflexivity.
Qed.

Lemma fix_count_count_line (a b c : nat) (x : string) :
  is_count_line x = true ->
  exists K n,
    (K = "NUMBER OF REQUIRED_EDGES:" \/ K = "NUMBER OF NON_REQUIRED_EDGES:"
     \/ K = "NUMBER OF VEHICLES:")
    /\ PyStr.startswith K (PyStr.strip x) = true
    /\ fix_count a b c x = count_line K n
    /\ fix_count a b c (count_line K n) = count_line K n.
Proof.
  unfold is_count_line, fix_count at 1. intros H.
  destruct (PyStr.startswith "NUMBER OF REQUIRED_EDGES:" (PyStr.strip x))
    eqn:E1.
  { exists "NUMBER OF REQUIRED_EDGES:", a. repeat split; auto.
    destruct (count_line_kinds "NUMBER OF REQUIRED_EDGES:" a)
      as (_ & _ & _ & C4); [auto|]. rewrite C4. reflexivity. }
  destruct (PyStr.startswith "NUMBER OF NON_REQUIRED_EDGES:" (PyStr.strip x))
    eqn:E2.
  { exists "NUMBER OF NON_REQUIRED_EDGES:", b. repeat split; auto.
    destruct (count_line_kinds "NUMBER OF NON_REQUIRED_EDGES:" b)
      as (_ & _ & _ & C4); [auto|]. rewrite C4. reflexivity. }
  destruct (PyStr.startswith "NUMBER OF VEHICLES:" (PyStr.strip x)) eqn:E3;
    [|discriminate].
  exists "NUMBER OF VEHICLES:", c. repeat split; auto.
  destruct (count_line_kinds "NUMBER OF VEHICLES:" c)
    as (_ & _ & _ & C4); [auto|]. rewrite C4. reflexivity.
Qed.

Lemma count_prefix_kinds (K x : string) :
  K = "NUMBER OF REQUIRED_EDGES:" \/ K = "NUMBER OF NON_REQUIRED_EDGES:"
  \/ K = "NUMBER OF VEHICLES:" ->
  PyStr.startswith K (PyStr.strip x) = true ->
  is_required_marker x = false /\ is_nonrequired_marker x = false
  /\ is_depot_line x = false /\ is_edge_line x = false.
Proof.
  unfold is_required_marker, is_nonrequired_marker, is_depot_line,
    is_edge_line, PyStr.startswith.
  intros [->|[->| ->]] H; expose_prefix H; rewrite H;
    repeat split; reflexivity.
Qed.

(** What step 5 leaves true of a line. *)
Lemma fix_count_kinds (a b c : nat) (x : string) :
  is_required_marker (fix_count a b c x) = is_required_marker x
  /\ is_nonrequired_marker (fix_count a b c x) = is_nonrequired_marker x
  /\ is_depot_line (fix_count a b c x) = is_depot_line x
  /\ (is_depot_line x = true -> fix_count a b c x = x)
  /\ fix_count a b c (fix_count a b c x) = fix_count a b c x.
Proof.
  destruct (is_count_line x) eqn:Ec.
  - destruct (fix_count_count_line a b c x Ec) as (K & n & HK & Hp & E & E').
    destruct (count_prefix_kinds K x HK Hp) as (P1 & P2 & P3 & _).
    destruct (count_line_kinds K n HK) as (C1 & C2 & C3 & _).
    rewrite E, E', C1, C2, C3, P1, P2, P3.
    repeat split; try reflexivity. discriminate.
  - rewrite (fix_count_plain a b c x Ec), (fix_count_plain a b c x Ec).
    repeat split; reflexivity.
Qed.

Lemma classify_tidy (st : sections) (l : string) :
  tidy st -> tidy (classify st l).
Proof.
  intros (T1 & T2 & T3). unfold classify, ends_colon in *.
  assert (T3' : forall sec,
            sec <> Some footer_section ->
            (footer st = [] /\ sec <> Some footer_section)
            \/ exists f0 rest,
                 footer st = f0 :: rest
                 /\ PyStr.endswith ":" (PyStr.strip f0) = true).
  { intros sec Hsec. destruct T3 as [[E _]|T3]; [left; auto|right; exact T3]. }
  destruct (PyStr.startswith "LIST_REQUIRED_EDGES:" (PyStr.strip l)).
  { repeat split; simpl; try assumption. apply T3'. discriminate. }
  destruct (PyStr.startswith "LIST_NON_REQUIRED_EDGES:" (PyStr.strip l)).
  { repeat split; simpl; try assumption. apply T3'. discriminate. }
  destruct (PyStr.endswith ":" (PyStr.strip l)) eqn:Ec; simpl.
  - destruct (in_edge_block (section st)) eqn:Eb.
    + repeat split; simpl; try assumption. right.
      destruct T3 as [[-> _]|(f0 & rest & -> & Hf)].
      * exists l, []. auto.
      * exists f0, (rest ++ [l]). auto.
    + destruct (section st) as [[| |]|] eqn:Es; try discriminate Eb; simpl.
      * repeat split; simpl; try assumption. right.
        destruct T3 as [[_ K]|(f0 & rest & -> & Hf)]; [congruence|].
        exists f0, (rest ++ [l]). auto.
      * repeat split; simpl; assumption.
  - destruct (section st) as [[| |]|] eqn:Es; simpl.
    + destruct (PyStr.startswith "(" (PyStr.strip l)) eqn:Ee;
        repeat split; simpl; try assumption.
      apply Forall_app. split; [exact T1|].
      constructor; [split; assumption|constructor].
    + destruct (PyStr.startswith "(" (PyStr.strip l)) eqn:Ee;
        repeat split; simpl; try assumption;
        try apply T1; try apply T2; try exact T3;
        try (rewrite Es; exact T3).
      apply Forall_app. split; [exact T2|].
      constructor; [split; assumption|constructor].
    + repeat split; simpl; try assumption. right.
      destruct T3 as [[_ K]|(f0 & rest & -> & Hf)]; [congruence|].
      exists f0, (rest ++ [l]). auto.
    + repeat split; simpl; assumption.
Qed.

Lemma fold_tidy (lines : list string) :
  forall st, tidy st -> tidy (fold_left classify lines st).
Proof.
  induction lines as [|l lines IH]; intros st H; [exact H|].
  simpl. apply IH, classify_tidy, H.
Qed.

(** Step 1 on a run of lines of one kind. *)
Lemma fold_header_run (l : list string) :
  forall h r n f,
  Forall (fun x => is_required_marker x = false
                   /\ is_nonrequired_marker x = false) l ->
  fold_left classify l (mk_sections h r n f None)
  = mk_sections (h ++ l) r n f None.
Proof.
  induction l as [|x l IH]; intros h r n f H; simpl.
  - now rewrite app_nil_r.
  - apply Forall_cons in H. destruct H as [[H1 H2] H].
    rewrite (classify_plain (mk_sections h r n f None) x H1 H2 eq_refl).
    simpl.
    rewrite (IH _ _ _ _ H), <- app_assoc. reflexivity.
Qed.

Lemma fold_footer_run (l : list string) :
  forall h r n f,
  Forall (fun x => is_required_marker x = false
                   /\ is_nonrequired_marker x = false) l ->
  fold_left classify l (mk_sections h r n f (Some footer_section))
  = mk_sections h r n (f ++ l) (Some footer_section).
Proof.
  induction l as [|x l IH]; intros h r n f H; simpl.
  - now rewrite app_nil_r.
  - apply Forall_cons in H. destruct H as [[H1 H2] H].
    rewrite (classify_plain (mk_sections h r n f (Some footer_section))
               x H1 H2 eq_refl).
    simpl.
    rewrite (IH _ _ _ _ H), <- app_assoc. reflexivity.
Qed.

Lemma classify_edge (st : sections) (x : string) :
  is_edge_line x = true -> ends_colon x = false ->
  in_edge_block (section st) = true ->
  classify st x
  = match section st with
    | Some required =>
        mk_sections (header st) (req_lines st ++ [x]) (nonreq_lines st)
          (footer st) (section st)
    | _ =>
        mk_sections (header st) (req_lines st) (nonreq_lines st ++ [x])
          (footer st) (section st)
    end.
Proof.
  intros He Hc Hb. destruct (edge_not_marker x He) as [H1 H2].
  unfold classify. unfold is_required_marker, is_nonrequired_marker,
    is_edge_line, ends_colon in *.
  rewrite H1, H2, Hc, He. simpl.
  destruct (section st) as [[| |]|]; try discriminate Hb; reflexivity.
Qed.

Lemma fold_required_run (l : list string) :
  forall h r n f,
  Forall (fun x => is_edge_line x = true /\ ends_colon x = false) l ->
  fold_left classify l (mk_sections h r n f (Some required))
  = mk_sections h (r ++ l) n f (Some required).
Proof.
  induction l as [|x l IH]; intros h r n f H; simpl.
  - now rewrite app_nil_r.
  - apply Forall_cons in H. destruct H as [[H1 H2] H].
    rewrite (classify_edge (mk_sections h r n f (Some required))
               x H1 H2 eq_refl).
    simpl.
    rewrite (IH _ _ _ _ H), <- app_assoc. reflexivity.
Qed.

Lemma fold_nonrequired_run (l : list string) :
  forall h r n f,
  Forall (fun x => is_edge_line x = true /\ ends_colon x = false) l ->
  fold_left classify l (mk_sections h r n f (Some nonrequired))
  = mk_sections h r (n ++ l) f (Some nonrequired).
Proof.
  induction l as [|x l IH]; intros h r n f H; simpl.
  - now rewrite app_nil_r.
  - apply Forall_cons in H. destruct H as [[H1 H2] H].
    rewrite (classify_edge (mk_sections h r n f (Some nonrequired))
               x H1 H2 eq_refl).
    simpl.
    rewrite (IH _ _ _ _ H), <- app_assoc. reflexivity.
Qed.

Lemma classify_marker (st : sections) (x : string) :
  is_required_marker x = true ->
  classify st x
  = mk_sections (header st ++ [x]) (req_lines st) (nonreq_lines st)
      (footer st) (Some required).
Proof.
  unfold classify, is_required_marker. intros ->. reflexivity.
Qed.

Lemma classify_footer_start (st : sections) (x : string) :
  is_required_marker x = false -> is_nonrequired_marker x = false ->
  ends_colon x = true -> in_edge_block (section st) = true ->
  classify st x
  = mk_sections (header st) (req_lines st) (nonreq_lines st)
      (footer st ++ [x]) (Some footer_section).
Proof.
  unfold classify, is_required_marker, is_nonrequired_marker, ends_colon.
  intros -> -> -> ->. reflexivity.
Qed.

Lemma count_depots_map_fix (a b c : nat) (l : list string) :
  count_depots (map (fix_count a b c) l) = count_depots l.
Proof.
  induction l as [|x l IH]; simpl; [reflexivity|].
  destruct (fix_count_kinds a b c x) as (_ & _ & Hd & Hx & _).
  unfold is_depot_line in Hd, Hx. rewrite Hd.
  destruct (PyStr.startswith "DEPOT:" (PyStr.strip x));
    [rewrite Hx; reflexivity|exact IH].
Qed.

Lemma existsb_find (f : string -> bool) (l : list string) :
  existsb f l = true -> exists x, find f l = Some x.
Proof.
  induction l as [|y l IH]; simpl; [discriminate|].
  destruct (f y); [eauto|exact IH].
Qed.

End IdempotenceFacts.

Module Idempotence.
Import Rebalance RebalanceFacts ProcessAll ProcessAllFacts PipelineFacts.
Import IdempotenceFacts.

Lemma marker_not_count (x : string) :
  is_required_marker x = true -> is_count_line x = false.
Proof.
  unfold is_required_marker, is_count_line, PyStr.startswith. intros H.
  expose_prefix H. rewrite H. reflexivity.
Qed.

Lemma rebalance_lists_settled (req nonreq : list string) :
  length req = target_of (length req + length nonreq) ->
  rebalance_lists req nonreq = Return (req, nonreq).
Proof.
  intros H.
  pose proof (RebalanceOrder.rebalance_lists_take_drop req nonreq) as E.
  simpl in E. rewrite <- H in E.
  rewrite take_app_length, drop_app_length in E. exact E.
Qed.

(** X14. For an input that has a required-list marker and whose count
    lines do not end with a colon, rebalancing the output of
    [rebalance_required_edges] returns that same output, with the same
    depot and vehicle counts. *)
Theorem rebalancing_twice_changes_nothing (lines fixed : list string)
    (depot_count vehicle_count : nat) :
  existsb is_required_marker lines = true ->
  counts_are_given lines = true ->
  rebalance_required_edges lines
  = Return (fixed, depot_count, vehicle_count) ->
  rebalance_required_edges fixed
  = Return (fixed, depot_count, vehicle_count).
Proof.
  intros Hex Hcg Hreb.
  set (s := split_sections lines) in *.
  assert (Hso : sorted_out s)
    by (apply fold_sorted_out; repeat split; constructor).
  assert (Hti : tidy s).
  { apply fold_tidy. split; [constructor|]. split; [constructor|].
    left. split; [reflexivity|discriminate]. }
  destruct Hso as (S1 & S2 & S3 & S4). destruct Hti as (T1 & T2 & T3).
  assert (Hcg' : Forall (fun l => negb (ends_colon l && is_count_line l)
                                  = true) lines).
  { apply List.Forall_forall. unfold counts_are_given in Hcg.
    rewrite forallb_forall in Hcg. exact Hcg. }
  destruct (split_sections_Forall _ lines (mk_sections [] [] [] [] None)
              Hcg') as (_ & _ & _ & G4); [repeat split; constructor|].
  fold (split_sections lines) in G4. fold s in G4.
  pose proof (RebalanceOrder.rebalance_lists_take_drop
                (req_lines s) (nonreq_lines s)) as E.
  simpl in E.
  set (t := target_of (length (req_lines s) + length (nonreq_lines s))) in *.
  set (all_edges := req_lines s ++ nonreq_lines s) in *.
  assert (Hall : Forall (fun l => is_edge_line l = true
                                  /\ ends_colon l = false) all_edges)
    by (apply Forall_app; split; assumption).
  set (req := take t all_edges) in *.
  set (nonreq := drop t all_edges) in *.
  assert (Hreq : Forall (fun l => is_edge_line l = true
                                  /\ ends_colon l = false) req)
    by (apply Forall_take; exact Hall).
  assert (Hnonreq : Forall (fun l => is_edge_line l = true
                                     /\ ends_colon l = false) nonreq)
    by (apply Forall_drop; exact Hall).
  assert (Hreq' : Forall (fun l => is_edge_line l = true) req)
    by (eapply Forall_impl; [exact Hreq|]; simpl; tauto).
  assert (Hnonreq' : Forall (fun l => is_edge_line l = true) nonreq)
    by (eapply Forall_impl; [exact Hnonreq|]; simpl; tauto).
  assert (Hlen : length req = target_of (length req + length nonreq)).
  { assert (Happ : req ++ nonreq = all_edges) by apply take_drop.
    assert (Hsum : (length req + length nonreq
                    = length (req_lines s) + length (nonreq_lines s))%nat).
    { rewrite <- !length_app, Happ. reflexivity. }
    rewrite Hsum. fold t. unfold req. rewrite length_take.
    pose proof (target_of_bounds (length (req_lines s)
                                  + length (nonreq_lines s))) as B.
    fold t in B. unfold all_edges. rewrite length_app. lia. }
  unfold rebalance_required_edges in Hreb. fold s in Hreb.
  rewrite E in Hreb. simpl in Hreb. injection Hreb as <- <- <-.
  set (out := rebuild (header s) req nonreq (footer s)).
  set (dc := count_depots out).
  set (fx := fix_count (length req) (length nonreq) (vehicles_for dc)).
  set (Nline := ("LIST_NON_REQUIRED_EDGES:" ++ PyStr.nl)%string).
  assert (Fplain : forall x, is_count_line x = false -> fx x = x)
    by (intros x Hx; apply fix_count_plain; exact Hx).
  assert (Fedges : forall l, Forall (fun x => is_edge_line x = true) l ->
            map fx l = l)
    by (intros l Hl; apply map_fix_count_edges; exact Hl).
  assert (Fkinds : forall x,
            is_required_marker (fx x) = is_required_marker x
            /\ is_nonrequired_marker (fx x) = is_nonrequired_marker x
            /\ fx (fx x) = fx x).
  { intros x. destruct (fix_count_kinds (length req) (length nonreq)
                          (vehicles_for dc) x) as (K1 & K2 & _ & _ & K5).
    auto. }
  assert (Fdepots : forall l, count_depots (map fx l) = count_depots l)
    by (intros l; apply count_depots_map_fix).
  (* the header part ends with the marker *)
  destruct (existsb_find _ _ Hex) as [l0 Hfind].
  pose proof (header_first_marker lines (mk_sections [] [] [] [] None)
                (Forall_nil_2 _)) as Hfm.
  fold (split_sections lines) in Hfm. fold s in Hfm. rewrite Hfind in Hfm.
  destruct Hfm as (h & Eh & Hh & Hl0).
  assert (HhN : Forall (fun x => is_nonrequired_marker x = false) (h ++ [l0])).
  { rewrite <- Eh. apply header_upto_marker_Forall. exact S1. }
  apply Forall_app in HhN. destruct HhN as [HhN _].
  assert (Hfh : Forall (fun x => is_required_marker x = false
                                 /\ is_nonrequired_marker x = false)
                  (map fx h)).
  { apply Forall_map. apply List.Forall_forall. intros x Hx. simpl.
    rewrite List.Forall_forall in Hh, HhN.
    destruct (Fkinds x) as (K1 & K2 & _).
    rewrite K1, K2. split; [apply Hh|apply HhN]; exact Hx. }
  assert (Hff : Forall (fun x => is_required_marker x = false
                                 /\ is_nonrequired_marker x = false)
                  (map fx (footer s))).
  { apply Forall_map. apply List.Forall_forall. intros x Hx. simpl.
    rewrite List.Forall_forall in S4.
    destruct (Fkinds x) as (K1 & K2 & _).
    rewrite K1, K2. apply S4. exact Hx. }
  assert (Efixed : map fx out
                   = map fx h ++ l0 :: req ++ Nline :: nonreq
                     ++ map fx (footer s)).
  { unfold out, rebuild. fold Nline.
    rewrite Eh, <- app_assoc, !map_app. cbn [map app].
    rewrite (Fplain l0 (marker_not_count _ Hl0)).
    rewrite (Fedges req Hreq'), (Fedges nonreq Hnonreq').
    rewrite (Fplain Nline eq_refl). reflexivity. }
  (* step 1 on the output finds the same four lists *)
  assert (Hsplit : exists sec,
            split_sections (map fx out)
            = mk_sections (map fx h ++ [l0]) req nonreq (map fx (footer s))
                sec).
  { rewrite Efixed. unfold split_sections.
    rewrite fold_left_app, (fold_header_run _ _ _ _ _ Hfh).
    simpl fold_left at 1.
    cbn [fold_left]. rewrite (classify_marker _ l0 Hl0). simpl.
    rewrite fold_left_app, (fold_required_run _ _ _ _ _ Hreq).
    cbn [fold_left].
    change (classify (mk_sections (map fx h ++ [l0]) ([] ++ req) [] []
                        (Some required)) Nline)
      with (mk_sections (map fx h ++ [l0]) ([] ++ req) [] []
              (Some nonrequired)).
    rewrite fold_left_app, (fold_nonrequired_run _ _ _ _ _ Hnonreq).
    simpl app.
    destruct T3 as [[Ef _]|(f0 & rest & Ef & Hf0)]; rewrite Ef in *.
    - simpl. eauto.
    - simpl map. cbn [fold_left].
      apply Forall_cons in G4. destruct G4 as [G0 _].
      rewrite Hf0 in G0. simpl in G0. apply negb_true_iff in G0.
      rewrite (Fplain f0 G0).
      apply Forall_cons in S4. destruct S4 as [[M0 N0] _].
      erewrite classify_footer_start;
        [|exact M0|exact N0|exact Hf0|reflexivity].
      simpl.
      simpl map in Hff. apply Forall_cons in Hff. destruct Hff as [_ Hff].
      rewrite (fold_footer_run _ _ _ _ _ Hff). simpl. eauto. }
  destruct Hsplit as [sec Hsplit].
  unfold rebalance_required_edges. rewrite Hsplit. simpl.
  rewrite (rebalance_lists_settled req nonreq Hlen). simpl.
  assert (Eout : rebuild (map fx h ++ [l0]) req nonreq (map fx (footer s))
                 = map fx out).
  { unfold rebuild.
    assert (Hh' : Forall (fun l => is_required_marker l = false) (map fx h))
      by (eapply Forall_impl; [exact Hfh|]; simpl; tauto).
    rewrite (header_upto_marker_at (map fx h) l0 [] Hh' Hl0).
    rewrite Efixed, <- app_assoc. reflexivity. }
  rewrite Eout, Fdepots. fold dc. fold fx.
  do 3 f_equal. rewrite map_map. apply map_ext. intros x. apply Fkinds.
Qed.

End Idempotence.

(** ** The end-to-end example of the specification *)

Module ExampleFacts.
Import PyStr Example.

Example scenario_parses :
  parse_text_file extract_weight_balanced scenario
  = Return (graph, [1], inject_Z 10).
Proof. vm_compute. reflexivity. Qed.

Example scenario_is_balanced :
  Rebalance.rebalanced_lists scenario
  = Return (map line ["(1,2) edge weight 3.0"; "(3,4) edge weight 4.0"],
            map line ["(1,3) edge weight 2.0"; "(2,4) edge weight 2.0"]).
Proof. vm_compute. reflexivity. Qed.

Example scenario_rebalanced_vehicles :
  exists fixed,
    Rebalance.rebalance_required_edges scenario = Return (fixed, 1%nat, 2%nat)
    /\ In (line "NUMBER OF VEHICLES: 2") fixed.
Proof. eexists. split; [vm_compute; reflexivity|]. simpl. tauto. Qed.

Example scenario_depots :
  (r ← select_depots_run graph (inject_Z 10);
   Return (picks r, how r, sorted (selected (final r)),
           sorted (covered (final r))))
  = Return ([1], AllCovered, [1], [1; 2; 3; 4]).
Proof. vm_compute. reflexivity. Qed.

(** Without a newline at the end of the text, the line appended by
    [update_all_instances] continues the last line of the file, here the
    capacity line, and the written file is no longer accepted. *)
Example unterminated_text_is_continued :
  parse_text_file extract_weight_updated (readlines unterminated_text)
  = Return (unterminated_graph, [], inject_Z 10)
  /\ (p ← update_instance (float := Q) (readlines unterminated_text);
      Return (readlines (writelines (written p))))
     = Return (map line
                 ["NUMBER OF VERTICES: 2";
                  "LIST_REQUIRED_EDGES:";
                  "(1,2) edge weight 3.0";
                  "FAILURE_SCENARIO:";
                  "VEHICLE CAPACITY: 10NUMBER OF VEHICLES: 1";
                  "DEPOT: 1"])
  /\ (p ← update_instance (float := Q) (readlines unterminated_text);
      parse_text_file extract_weight_updated
        (readlines (writelines (written p))))
     = Raise ValueError_literal.
Proof. repeat split; vm_compute; reflexivity. Qed.

End ExampleFacts.

(** ** The theorems at concrete inputs *)

Module Witnesses.
Import PyStr Example ExampleFacts.

Lemma greedy_picks_first_of_maximal_gain_witness :
  greedy_step coverage3 [1; 2; 3] {[1; 2; 3]} start = Return (Picked 1 after1)
  /\ exists l1 l2,
       [1; 2; 3] = l1 ++ 1 :: l2
       /\ (1 ∉ selected start)
       /\ (forall n, In n l1 -> n ∉ selected start ->
             node_gain coverage3 start n < node_gain coverage3 start 1)
       /\ (forall n, In n l2 -> n ∉ selected start ->
             node_gain coverage3 start n <= node_gain coverage3 start 1)
       /\ (StronglySorted Z.lt [1; 2; 3] ->
           forall n, In n [1; 2; 3] -> n ∉ selected start ->
             node_gain coverage3 start n = node_gain coverage3 start 1 ->
             1 <= n).
Proof.
  assert (H : greedy_step coverage3 [1; 2; 3] {[1; 2; 3]} start
              = Return (Picked 1 after1)) by (vm_compute; reflexivity).
  split; [exact H|].
  exact (greedy_picks_first_of_maximal_gain coverage3 [1; 2; 3] {[1; 2; 3]}
           start 1 after1 H).
Defined.

Lemma compute_coverage_contains_self_witness :
  closed (annotate_travel_time graph)
  /\ nonneg_costs (annotate_travel_time graph)
  /\ exists coverage,
       compute_coverage (annotate_travel_time graph) (inject_Z 5)
       = Return coverage
       /\ forall node, In node (nodes (annotate_travel_time graph)) ->
            exists s, coverage !! node = Some s /\ node ∈ s.
Proof.
  assert (Hc : closed (annotate_travel_time graph))
    by (apply closedb_sound; vm_compute; reflexivity).
  assert (Hn : nonneg_costs (annotate_travel_time graph))
    by (apply nonneg_costsb_sound; vm_compute; reflexivity).
  split; [exact Hc|]. split; [exact Hn|].
  destruct (compute_coverage_contains_self (annotate_travel_time graph)
              (inject_Z 5)) as (Hself & _ & Hret).
  destruct (Hret Hc Hn) as [coverage E].
  exists coverage. split; [exact E|]. exact (Hself coverage E).
Defined.

Lemma greedy_selection_terminates_covering_witness :
  closed graph /\ nonneg_weights graph
  /\ (exists r,
        select_depots_run graph (inject_Z 10) = Return r
        /\ (length (picks r) <= number_of_nodes graph)%nat
        /\ how r = AllCovered
        /\ covered (final r) = list_to_set (nodes graph))
  /\ (exists r,
        select_depots_with_factor_run graph (inject_Z 10) 2 = Return r
        /\ (length (picks r) <= number_of_nodes graph)%nat
        /\ how r = AllCovered
        /\ covered (final r) = list_to_set (nodes graph))
  /\ select_depots_with_factor_run graph (inject_Z 10) 0
     = Raise ZeroDivisionError.
Proof.
  assert (Hc : closed graph) by (apply closedb_sound; vm_compute; reflexivity).
  assert (Hn : nonneg_weights graph)
    by (apply nonneg_weightsb_sound; vm_compute; reflexivity).
  split; [exact Hc|]. split; [exact Hn|].
  destruct (greedy_selection_terminates_covering graph (inject_Z 10) 2 Hc)
    as [(H1 & _ & R1) (H2 & _ & R2 & _)].
  split; [|split].
  - destruct (R1 Hn) as [r E]. exists r. split; [exact E|exact (H1 r E)].
  - assert (H0 : 2 <> 0) by lia.
    assert (Hf : int_fits_float 2 = true) by (vm_compute; reflexivity).
    destruct (R2 Hn H0 Hf) as [r E].
    exists r. split; [exact E|exact (H2 r E)].
  - destruct (greedy_selection_terminates_covering graph (inject_Z 10) 0 Hc)
      as [_ (_ & _ & _ & Z0)].
    exact (Z0 eq_refl).
Defined.

Lemma extract_weight_tokens_witness :
  extract_weight_balanced (float := Q) "edge weight 3.0" = (inject_Z 3, [])
  /\ extract_weight_balanced (float := Q) "cost 4" = (inject_Z 4, [])
  /\ extract_weight_balanced (float := Q) "length 7"
     = (inject_Z 1, [warning_no_weight])
  /\ extract_weight_visualize (float := Q) "length 7" = (inject_Z 1, [])
  /\ extract_weight_updated (float := Q) "length 7" = (inject_Z 1, []).
Proof.
  pose proof (extract_weight_tokens (float := Q) "length 7") as H.
  destruct H as (_ & _ & _ & _ & _ & _ & H1 & H2).
  split; [vm_compute; reflexivity|]. split; [vm_compute; reflexivity|].
  destruct (H1 eq_refl eq_refl) as [Hb Hu].
  split; [exact Hb|]. split; [exact Hu|].
  exact (H2 eq_refl eq_refl).
Defined.

Lemma parsed_graph_in_range_when_lines_are_witness :
  parse_text_file extract_weight_balanced scenario
  = Return (graph, [1], inject_Z 10)
  /\ (forall x, In x (nodes graph) -> 1 <= x <= 4)
  /\ (forall u v d, In (u, v, d) (edges graph) ->
        1 <= u <= 4 /\ 1 <= v <= 4 /\ u <> v)
  /\ (forall n nbrs m e, In (n, nbrs) graph -> In (m, e) nbrs ->
        1 <= n <= 4 /\ 1 <= m <= 4 /\ n <> m).
Proof.
  split; [exact scenario_parses|].
  apply (parsed_graph_in_range_when_lines_are extract_weight_balanced
           scenario 4 graph [1] (inject_Z 10)).
  - intros raw n Hin Hv. simpl in Hin.
    repeat (destruct Hin as [Heq|Hin];
            [subst raw; vm_compute in Hv;
             first [discriminate Hv|injection Hv as <-; lia]|]).
    destruct Hin.
  - intros raw u v Hin Hv. simpl in Hin.
    repeat (destruct Hin as [Heq|Hin];
            [subst raw; vm_compute in Hv;
             first [discriminate Hv
                   |injection Hv as <- <-; repeat split; lia]|]).
    destruct Hin.
  - exact scenario_parses.
Defined.

Lemma parser_accepts_loop_outside_declared_range :
  vertices_field (line "NUMBER OF VERTICES: 2") = Return 2
  /\ parse_text_file extract_weight_balanced loop_scenario
     = Return (loop_graph, [], inject_Z 10)
  /\ nodes loop_graph = [1; 2; 3]
  /\ edges loop_graph = [(3, 3, mk_edge_data (inject_Z 1) true None)].
Proof. repeat split; vm_compute; reflexivity. Qed.

(** A number after a bare "weight" is not read, in any of the three
    scripts, and two of them fall back to [1.0] without printing. *)
Lemma extract_weight_ignores_bare_weight_and_defaults_silently :
  float_of_string (float := Q) "5.0" = Some (inject_Z 5)
  /\ extract_weight_balanced (float := Q) "weight 5.0"
     = (inject_Z 1, [warning_no_weight])
  /\ extract_weight_visualize (float := Q) "weight 5.0" = (inject_Z 1, [])
  /\ extract_weight_updated (float := Q) "weight 5.0" = (inject_Z 1, [])
  /\ extract_weight_visualize (float := Q) "length 7" = (inject_Z 1, [])
  /\ extract_weight_updated (float := Q) "length 7" = (inject_Z 1, []).
Proof. repeat split; vm_compute; reflexivity. Qed.

Lemma parse_written_gives_same_graph_witness :
  exists p,
    update_instance (readlines scenario_text) = Return p
    /\ exists G' ds' c',
         parse_text_file extract_weight_updated
           (readlines (writelines (written p)))
         = Return (G', ds', c')
         /\ G' = st_G scenario_state
         /\ st_battery_capacity scenario_state = Some c'
         /\ ds' = sorted (new_depots p)
         /\ number_of_nodes G' = number_of_nodes (st_G scenario_state)
         /\ number_of_edges G' = number_of_edges (st_G scenario_state)
         /\ edges G' = edges (st_G scenario_state).
Proof.
  destruct (update_instance (float := Q) (readlines scenario_text))
    as [p|e|] eqn:E;
    [|vm_compute in E; discriminate E|vm_compute in E; discriminate E].
  exists p. split; [reflexivity|].
  apply (parse_written_gives_same_graph scenario_text
           (readlines scenario_text) scenario_state p).
  - reflexivity.
  - vm_compute. reflexivity.
  - vm_compute. reflexivity.
  - reflexivity.
  - vm_compute. discriminate.
  - exact E.
Defined.

Lemma depot_selection_writes_one_vehicle_for_one_depot :
  (p ← update_instance (float := Q) two_vehicle_scenario;
   Return (sorted (new_depots p), num_vehicles p, written p))
  = Return ([1], 1%nat,
            map line
              ["NUMBER OF VERTICES: 4";
               "VEHICLE CAPACITY: 10";
               "LIST_REQUIRED_EDGES:";
               "(1,2) edge weight 3.0";
               "(3,4) edge weight 4.0";
               "LIST_NON_REQUIRED_EDGES:";
               "(1,3) edge weight 2.0";
               "(2,4) edge weight 2.0";
               "FAILURE_SCENARIO:";
               "NUMBER OF VEHICLES: 1";
               "DEPOT: 1"])
  /\ (p ← update_gdb_instance (float := Q) two_vehicle_scenario;
      Return (sorted (new_depots p), num_vehicles p, written p))
     = Return ([1], 1%nat,
               map line
                 ["NUMBER OF VERTICES: 4";
                  "VEHICLE CAPACITY: 10";
                  "NUMBER OF VEHICLES: 1";
                  "LIST_REQUIRED_EDGES:";
                  "DEPOT: 1";
                  "(1,2) edge weight 3.0";
                  "(3,4) edge weight 4.0";
                  "LIST_NON_REQUIRED_EDGES:";
                  "(1,3) edge weight 2.0";
                  "(2,4) edge weight 2.0";
                  "FAILURE_SCENARIO:"]).
Proof. split; vm_compute; reflexivity. Qed.

Lemma written_file_does_not_parse_without_footer :
  PyStr.endswith PyStr.nl (read open_ended_text) = true
  /\ parse_text_file extract_weight_updated (readlines open_ended_text)
     = Return (open_ended_graph, [], inject_Z 10)
  /\ (p ← update_instance (float := Q) (readlines open_ended_text);
      Return (readlines (writelines (written p))))
     = Return (open_ended_scenario
               ++ [line "NUMBER OF VEHICLES: 1"; line "DEPOT: 1"])
  /\ (p ← update_instance (float := Q) (readlines open_ended_text);
      parse_text_file extract_weight_updated
        (readlines (writelines (written p))))
     = Raise ValueError_unpack.
Proof. repeat split; vm_compute; reflexivity. Qed.

End Witnesses.

(** ** The further properties, run on the examples *)

Module MoreWitnesses.
Import PyStr Example ExampleFacts.

Lemma parse_text_file_rejects_edge_line_without_separator_witness :
  parse_text_file extract_weight_balanced
    (scenario_header ++ line "NUMBER OF VEHICLES: 1" :: [])
  = Raise ValueError_unpack.
Proof.
  apply (parse_text_file_rejects_edge_line_without_separator
           extract_weight_balanced scenario_header
           (line "NUMBER OF VEHICLES: 1") []
           (mk_parse_state (add_nodes_from (range 1 5) empty_graph) []
              (Some (inject_Z 10)) (Some required_edges) [])).
  - vm_compute. reflexivity.
  - reflexivity.
  - vm_compute. reflexivity.
  - vm_compute. reflexivity.
Defined.

Lemma last_edge_line_decides_the_attributes_witness :
  exists d,
    edge_lookup graph 1 2 = Some d
    /\ edge_lookup graph 2 1 = Some d
    /\ weight d
       = fst (extract_weight_balanced
                (edge_line_annotation (line "(1,2) edge weight 3.0")))
    /\ required d = required_in (Some required_edges).
Proof.
  apply (last_edge_line_decides_the_attributes extract_weight_balanced
           scenario_header (line "(1,2) edge weight 3.0") scenario_rest
           (mk_parse_state (add_nodes_from (range 1 5) empty_graph) []
              (Some (inject_Z 10)) (Some required_edges) [])
           1 2 graph [1] (inject_Z 10)).
  - vm_compute. reflexivity.
  - reflexivity.
  - vm_compute. reflexivity.
  - vm_compute. reflexivity.
  - unfold scenario_rest. simpl map.
    repeat (constructor;
            [split; intros H; vm_compute in H; discriminate H|]).
    constructor.
  - vm_compute. reflexivity.
Defined.

Lemma parsed_graph_is_undirected_witness :
  (forall n m, edge_lookup graph n m = edge_lookup graph m n)
  /\ (forall n m d, edge_lookup graph n m = Some d ->
        In n (nodes graph) /\ In m (nodes graph)).
Proof.
  apply (parsed_graph_is_undirected extract_weight_balanced scenario
           graph [1] (inject_Z 10)).
  vm_compute. reflexivity.
Defined.

Lemma coverage_map_holds_the_reach_of_every_node_witness :
  exists coverage,
    compute_coverage (annotate_travel_time graph) (inject_Z 5)
    = Return coverage
    /\ (forall n, is_Some (coverage !! n)
                  <-> In n (nodes (annotate_travel_time graph)))
    /\ (forall n s, coverage !! n = Some s ->
          forall m, m ∈ s
                    <-> within_reach (annotate_travel_time graph)
                          (inject_Z 5) n m)
    /\ (closed (annotate_travel_time graph) ->
        forall n s m, coverage !! n = Some s -> m ∈ s ->
          In m (nodes (annotate_travel_time graph))).
Proof.
  destruct (compute_coverage (annotate_travel_time graph) (inject_Z 5))
    as [coverage|e|] eqn:E;
    [|vm_compute in E; discriminate E|vm_compute in E; discriminate E].
  exists coverage. split; [reflexivity|].
  exact (coverage_map_holds_the_reach_of_every_node
           (annotate_travel_time graph) (inject_Z 5) coverage E).
Defined.

Lemma neighbours_within_the_radius_are_covered_witness :
  exists coverage,
    compute_coverage (annotate_travel_time graph) (inject_Z 5)
    = Return coverage
    /\ exists s, coverage !! 1 = Some s /\ 2 ∈ s.
Proof.
  destruct (compute_coverage (annotate_travel_time graph) (inject_Z 5))
    as [coverage|e|] eqn:E;
    [|vm_compute in E; discriminate E|vm_compute in E; discriminate E].
  exists coverage. split; [reflexivity|].
  apply (neighbours_within_the_radius_are_covered
           (annotate_travel_time graph) (inject_Z 5) coverage 1
           [(2, mk_edge_data (inject_Z 3) true (Some (inject_Z 3)));
            (3, mk_edge_data (inject_Z 2) false (Some (inject_Z 2)))]
           2 (mk_edge_data (inject_Z 3) true (Some (inject_Z 3)))).
  - exact E.
  - vm_compute. reflexivity.
  - left. reflexivity.
  - vm_compute. reflexivity.
Defined.

Lemma every_node_is_within_reach_of_a_depot_witness :
  closed graph
  /\ (forall ds,
        select_depots graph (inject_Z 10) = Return ds ->
        forall n, In n (nodes graph) ->
          exists b, b ∈ ds
            /\ within_reach (annotate_travel_time graph)
                 (fdiv (inject_Z 10) (float_of_Z 2)) b n)
  /\ (forall ds,
        select_depots_with_factor graph (inject_Z 10) 2 = Return ds ->
        forall n, In n (nodes graph) ->
          exists b, b ∈ ds
            /\ within_reach (annotate_travel_time graph)
                 (fdiv (inject_Z 10) (float_of_Z 2)) b n).
Proof.
  assert (Hc : closed graph) by (apply closedb_sound; vm_compute; reflexivity).
  split; [exact Hc|].
  exact (every_node_is_within_reach_of_a_depot graph (inject_Z 10) 2 Hc).
Defined.

Lemma every_depot_reaches_a_node_no_earlier_depot_reaches_witness :
  closed graph
  /\ (forall r l1 b l2,
        select_depots_run graph (inject_Z 10) = Return r ->
        picks r = l1 ++ b :: l2 ->
        exists n,
          within_reach (annotate_travel_time graph)
            (fdiv (inject_Z 10) (float_of_Z 2)) b n
          /\ forall b', In b' l1 ->
               ~ within_reach (annotate_travel_time graph)
                   (fdiv (inject_Z 10) (float_of_Z 2)) b' n)
  /\ (forall r l1 b l2,
        select_depots_with_factor_run graph (inject_Z 10) 2 = Return r ->
        picks r = l1 ++ b :: l2 ->
        exists n,
          within_reach (annotate_travel_time graph)
            (fdiv (inject_Z 10) (float_of_Z 2)) b n
          /\ forall b', In b' l1 ->
               ~ within_reach (annotate_travel_time graph)
                   (fdiv (inject_Z 10) (float_of_Z 2)) b' n).
Proof.
  assert (Hc : closed graph) by (apply closedb_sound; vm_compute; reflexivity).
  split; [exact Hc|].
  exact (every_depot_reaches_a_node_no_earlier_depot_reaches graph
           (inject_Z 10) 2 Hc).
Defined.

Lemma a_node_without_incident_edge_is_a_depot_witness :
  closed lonely_graph
  /\ In 3 (nodes lonely_graph)
  /\ (forall ds, select_depots lonely_graph (inject_Z 10) = Return ds ->
        3 ∈ ds)
  /\ (forall ds,
        select_depots_with_factor lonely_graph (inject_Z 10) 2 = Return ds ->
        3 ∈ ds).
Proof.
  assert (Hc : closed lonely_graph)
    by (apply closedb_sound; vm_compute; reflexivity).
  assert (Hn : In 3 (nodes lonely_graph)) by (vm_compute; tauto).
  split; [exact Hc|]. split; [exact Hn|].
  apply (a_node_without_incident_edge_is_a_depot lonely_graph
           (inject_Z 10) 2 3 Hc Hn).
  intros k nbrs d Hk Hd. vm_compute in Hk.
  destruct Hk as [Hk|[Hk|[Hk|[]]]]; injection Hk as <- <-;
    simpl in Hd; repeat (destruct Hd as [Hd|Hd]; [discriminate Hd|]);
    exact Hd.
Defined.

Lemma rebalance_writes_the_counts_of_its_lists_witness :
  exists fixed depot_count vehicle_count,
    Rebalance.rebalance_required_edges scenario
    = Return (fixed, depot_count, vehicle_count)
    /\ forall l, In l fixed ->
         (startswith "NUMBER OF REQUIRED_EDGES:" (strip l) = true ->
          l = Rebalance.count_line "NUMBER OF REQUIRED_EDGES:" 2)
         /\ (startswith "NUMBER OF NON_REQUIRED_EDGES:" (strip l) = true ->
             l = Rebalance.count_line "NUMBER OF NON_REQUIRED_EDGES:" 2).
Proof.
  destruct (Rebalance.rebalance_required_edges scenario)
    as [[[fixed dc] vc]|e|] eqn:E;
    [|vm_compute in E; discriminate E|vm_compute in E; discriminate E].
  exists fixed, dc, vc. split; [reflexivity|].
  exact (RebalanceOrder.rebalance_writes_the_counts_of_its_lists
           scenario fixed dc vc E).
Defined.

Lemma rebalancing_twice_changes_nothing_witness :
  exists fixed depot_count vehicle_count,
    Rebalance.rebalance_required_edges scenario
    = Return (fixed, depot_count, vehicle_count)
    /\ Rebalance.rebalance_required_edges fixed
       = Return (fixed, depot_count, vehicle_count).
Proof.
  destruct (Rebalance.rebalance_required_edges scenario)
    as [[[fixed dc] vc]|e|] eqn:E;
    [|vm_compute in E; discriminate E|vm_compute in E; discriminate E].
  exists fixed, dc, vc. split; [reflexivity|].
  apply (Idempotence.rebalancing_twice_changes_nothing scenario fixed dc vc).
  - vm_compute. reflexivity.
  - vm_compute. reflexivity.
  - exact E.
Defined.

Lemma rebalancing_after_selection_counts_the_selected_depots_witness :
  exists p fixed,
    update_instance (float := Q) (readlines scenario_text) = Return p
    /\ Rebalance.rebalance_required_edges
         (readlines (writelines (written p)))
       = Return (fixed, size (new_depots p),
                 Rebalance.vehicles_for (size (new_depots p)))
    /\ In (Rebalance.count_line "NUMBER OF VEHICLES:"
             (Rebalance.vehicles_for (size (new_depots p)))) fixed.
Proof.
  destruct (update_instance (float := Q) (readlines scenario_text))
    as [p|e|] eqn:E;
    [|vm_compute in E; discriminate E|vm_compute in E; discriminate E].
  destruct (rebalancing_after_selection_counts_the_selected_depots
              scenario_text (readlines scenario_text) p)
    as (fixed & H1 & H2).
  - reflexivity.
  - vm_compute. reflexivity.
  - exact E.
  - vm_compute. reflexivity.
  - exists p, fixed. split; [reflexivity|]. split; assumption.
Defined.

Lemma parse_of_third_radius_output_gives_same_graph_witness :
  exists p ds',
    update_gdb_instance (float := Q) (readlines two_vehicle_text) = Return p
    /\ parse_text_file extract_weight_balanced
         (readlines (writelines (written p)))
       = Return (graph, ds', inject_Z 10)
    /\ ds' = sorted (new_depots p).
Proof.
  destruct (update_gdb_instance (float := Q) (readlines two_vehicle_text))
    as [p|e|] eqn:E;
    [|vm_compute in E; discriminate E|vm_compute in E; discriminate E].
  assert (Hsize : (q ← update_gdb_instance (float := Q)
                         (readlines two_vehicle_text);
                   Return (size (new_depots q))) = Return 1%nat)
    by (vm_compute; reflexivity).
  rewrite E in Hsize. simpl in Hsize. injection Hsize as Hsize.
  destruct (parse_of_third_radius_output_gives_same_graph
              two_vehicle_text (readlines two_vehicle_text) p graph [3]
              (inject_Z 10))
    as (ds' & H1 & H2).
  - reflexivity.
  - vm_compute. reflexivity.
  - vm_compute. reflexivity.
  - vm_compute. reflexivity.
  - vm_compute. reflexivity.
  - exact E.
  - intros Hemp. rewrite Hemp, size_empty in Hsize. discriminate Hsize.
  - exists p, ds'. split; [reflexivity|]. split; [exact H1|].
    apply H2; vm_compute; reflexivity.
Defined.

End MoreWitnesses.
